(** * BlenderXR: editor utility glue and the shift widget

    A shallow embedding of

    - [blender/source/blender/vr/intern/vr_widget_shift.cpp]
      ([Widget_Shift::render_icon]), and
    - [blender/source/blender/editors/util/ed_util.c]
      ([ED_editors_init], [ED_editors_exit], [ED_editors_flush_edits],
      [apply_keyb_grid], [unpack_menu], [ED_spacedata_id_remap]).

    Both files are thin orchestration over the host application.  A call
    into the host is recorded, with its arguments, in a trace of calls; the
    fields the functions read and write themselves are kept in explicit
    state.  Where a later step of a function depends on what such a call
    did (the mode toggle during [ED_editors_init], the edit-bone free during
    [ED_editors_exit]) the effect of the call is a field of a class that
    stands for the host.

    The first part of the file holds the definitions, the second part the
    theorems. *)

From Stdlib Require Import ZArith QArith Qabs Qround List String Ascii Bool Lia.
From Stdlib Require Import Floats.SpecFloat.
From stdpp Require Import base option list gmap strings.

Local Close Scope Q_scope.
Local Open Scope Z_scope.

(** ** Single-precision floats

    C's [float] is IEEE 754 binary32: 24 bits of precision (the implicit bit
    included) and infinities at exponent 128.  The operations are those of
    the Standard Library's [SpecFloat] at these parameters, which round to
    nearest, ties to even. *)
Module F32.

Definition prec : Z := 24.
Definition emax : Z := 128.

Definition float32 : Type := spec_float.

Definition add : float32 -> float32 -> float32 := SFadd prec emax.
Definition mul : float32 -> float32 -> float32 := SFmul prec emax.
Definition div : float32 -> float32 -> float32 := SFdiv prec emax.
Definition opp : float32 -> float32 := SFopp.

(** C's [==] and [!=] on floats: a NaN differs from everything, itself
    included, and the two zeros are equal. *)
Definition eqb : float32 -> float32 -> bool := SFeqb.
Definition neqb (x y : float32) : bool := negb (eqb x y).

(** The float nearest to an integer. *)
Definition of_Z (z : Z) : float32 := binary_normalize prec emax z 0 false.

(** The float a decimal literal [num/den] denotes, for [num] and [den]
    that are floats themselves: one correctly rounded division. *)
Definition of_ratio (num den : Z) : float32 := div (of_Z num) (of_Z den).

Definition zero : float32 := S754_zero false.
Definition one : float32 := Eval cbv in of_Z 1.
Definition half : float32 := Eval cbv in of_ratio 1 2.

(** [floorf]: the largest integral value not above the argument.  Zeros,
    infinities and NaN are returned as they are; a finite [m * 2^e] with
    [e >= 0] is integral already.  Otherwise the integer part of the
    magnitude is [m / 2^-e], one more in magnitude for a negative argument
    that is not integral; it has at most 24 bits, so the conversion back
    is exact. *)
Definition floorf (x : float32) : float32 :=
  match x with
  | S754_finite s m e =>
      if 0 <=? e then x
      else
        let q := Z.shiftr (Zpos m) (- e) in
        let integral := Z.shiftl q (- e) =? Zpos m in
        if s
        then binary_normalize prec emax (- (if integral then q else q + 1)) 0 true
        else binary_normalize prec emax q 0 false
  | _ => x
  end.

Definition is_valid (x : float32) : bool := valid_binary prec emax x.

(** The mantissa has at most [prec] digits.  This is the part of
    [is_valid] that does not look at the exponent. *)
Definition in_precision (x : float32) : bool :=
  match x with
  | S754_finite _ m _ => Zpos m <? 2 ^ prec
  | _ => true
  end.

(** Zeros and finite numbers, as opposed to infinities and NaN. *)
Definition is_finite (x : float32) : bool :=
  match x with
  | S754_zero _ | S754_finite _ _ _ => true
  | _ => false
  end.

(** The rational number a finite float [(-1)^s * m * 2^e] is; the zeros
    are 0.  (An infinity or a NaN is no number; 0 stands in for them.) *)
Definition to_Q (x : float32) : Q :=
  match x with
  | S754_finite s m (Zneg k) => Qmake (cond_Zopp s (Zpos m)) (2 ^ k)
  | S754_finite s m e => inject_Z (cond_Zopp s (Zpos m) * 2 ^ e)
  | _ => 0%Q
  end.

End F32.

Abbreviation float32 := F32.float32.

(** ** vr_widget_shift.cpp *)
Module VR_Widget_Shift.

(** What the widget takes from the headers of the VR module: [Mat44f] and
    its product [operator*] ([vr_types.h]), the static member
    [m_widget_touched] of the widget base class ([vr_ui.h]), [VR_Side]
    ([vr_types.h]) and the texture [VR_Draw::shift_tex] ([vr_draw.h]). *)
Class VR_Types : Type := {
  Mat44f : Type;
  Mat44f_mul : Mat44f -> Mat44f -> Mat44f;
  m_widget_touched : Mat44f;
  VR_Side : Type;
  Texture : Type;
  shift_tex : Texture
}.

(** An RGBA colour, as [VR_Draw::set_color] takes it. *)
Definition Color : Type := (float32 * float32 * float32 * float32)%type.

(** The calls into [VR_Draw], with their arguments.  The second argument of
    [update_modelview_matrix] is the projection matrix, a null pointer
    here. *)
Inductive DrawCall `{VR_Types} : Type :=
| update_modelview_matrix (modelview : Mat44f) (projection : option Mat44f)
| set_color (c : Color)
| render_rect (left right top bottom z u v : float32) (tex : Texture).

Definition rect_extent : float32 := Eval cbv in F32.of_ratio 9 1000.
Definition rect_depth : float32 := Eval cbv in F32.of_ratio 1 1000.

Definition color_active : Color := (F32.one, F32.zero, F32.zero, F32.one).
Definition color_idle : Color := (F32.one, F32.one, F32.one, F32.one).

Definition render_icon `{VR_Types} (t : Mat44f) (controller_side : VR_Side)
    (active touched : bool) : list DrawCall :=
  (if touched
   then
     let t_touched := Mat44f_mul m_widget_touched t in
     [update_modelview_matrix t_touched None]
   else [update_modelview_matrix t None])
  ++ (if active
      then [set_color color_active]
      else [set_color color_idle])
  ++ [render_rect (F32.opp rect_extent) rect_extent rect_extent
                  (F32.opp rect_extent) rect_depth F32.one F32.one shift_tex].

(** What the draw layer has been given when a rectangle is rendered: the
    modelview matrix and the colour of the latest calls before it.  This
    is a reading of the trace of calls, not the code of [VR_Draw], which
    is not among the sources: what the draw layer does with the matrix,
    the colour and the null projection is not modelled. *)
Record DrawState `{VR_Types} : Type := {
  modelview : option Mat44f;
  color : option Color
}.

Definition draw_step `{VR_Types} (st : DrawState) (c : DrawCall) : DrawState :=
  match c with
  | update_modelview_matrix m _ => {| modelview := Some m; color := color st |}
  | set_color rgba => {| modelview := modelview st; color := Some rgba |}
  | render_rect _ _ _ _ _ _ _ _ => st
  end.

(** The draw states in which the rectangles of a trace are rendered, in the
    order of rendering. *)
Fixpoint rendered `{VR_Types} (st : DrawState) (calls : list DrawCall)
  : list DrawState :=
  match calls with
  | [] => []
  | (render_rect _ _ _ _ _ _ _ _ as c) :: rest => st :: rendered (draw_step st c) rest
  | c :: rest => rendered (draw_step st c) rest
  end.

Definition no_state `{VR_Types} : DrawState := {| modelview := None; color := None |}.

(** The colour, and the modelview matrix, of each rectangle one call of
    [render_icon] renders. *)
Definition icon_color `{VR_Types} (t : Mat44f) (side : VR_Side)
    (active touched : bool) : list (option Color) :=
  map color (rendered no_state (render_icon t side active touched)).

Definition icon_modelview `{VR_Types} (t : Mat44f) (side : VR_Side)
    (active touched : bool) : list (option Mat44f) :=
  map modelview (rendered no_state (render_icon t side active touched)).

(** *** An instance to evaluate on

    Four by four matrices of floats, as lists of rows, with the usual
    product; a touched matrix that enlarges by one half and lifts the icon
    by three millimetres. *)
Definition Matrix : Type := list (list float32).

Definition dot (u v : list float32) : float32 :=
  fold_left F32.add (zip_with F32.mul u v) F32.zero.

Definition column (m : Matrix) (j : nat) : list float32 :=
  map (fun row => nth j row F32.zero) m.

Definition Matrix_mul (a b : Matrix) : Matrix :=
  map (fun row => map (fun j => dot row (column b j)) [0; 1; 2; 3]%nat) a.

Definition identity : Matrix :=
  let o := F32.zero in
  let i := F32.one in
  [[i; o; o; o]; [o; i; o; o]; [o; o; i; o]; [o; o; o; i]].

Definition enlarge : Matrix :=
  let o := F32.zero in
  let i := F32.one in
  let s := F32.of_ratio 3 2 in
  [[s; o; o; o]; [o; s; o; o]; [o; o; s; o]; [o; o; F32.of_ratio 3 1000; i]].

Inductive Side : Type := VR_SIDE_LEFT | VR_SIDE_RIGHT.

Definition example_types : VR_Types := {|
  Mat44f := Matrix;
  Mat44f_mul := Matrix_mul;
  m_widget_touched := enlarge;
  VR_Side := Side;
  Texture := unit;
  shift_tex := tt
|}.

End VR_Widget_Shift.

(** ** ed_util.c *)
Module ed_util.

(** *** The data the functions read and write

    A pointer into the host's memory is an address; a pointer that may be
    null is an [option]. *)
Definition pointer : Type := positive.

(** The header every datablock starts with; [lib] is null for local data. *)
Record ID : Type := { lib : option pointer }.

(** The macro [ID_IS_LINKED]: the [lib] of the header is not null. *)
Definition ID_IS_LINKED (i : ID) : bool :=
  match lib i with Some _ => true | None => false end.

(** [Object.type]: the three types the file names, and the others. *)
Inductive ObType : Type := OB_MESH | OB_ARMATURE | OB_GPENCIL | OB_OTHER.

Global Instance ObType_eq_dec : EqDecision ObType.
Proof. solve_decision. Defined.

Record SculptSession : Type := { cache : option pointer }.

(** [mode] is the bit field of [eObjectMode], a C [int]: an integer, with
    [&] and [~] as [Z.land] and [Z.lnot], which keep two's complement
    values in range; [data] points to the object's datablock, which
    objects may share. *)
Record Object : Type := {
  ob_id : ID;
  type : ObType;
  mode : Z;
  data : option pointer;
  sculpt : option SculptSession
}.

Record Mesh : Type := { me_id : ID; edit_btmesh : option pointer }.
Record bArmature : Type := { arm_id : ID; edbo : option pointer }.

Inductive Datablock : Type :=
| DB_Mesh (me : Mesh)
| DB_Armature (arm : bArmature)
| DB_Other (i : ID).

Definition datablock_id (db : Datablock) : ID :=
  match db with
  | DB_Mesh me => me_id me
  | DB_Armature arm => arm_id arm
  | DB_Other i => i
  end.

Record wmWindowManager : Type := { undo_stack : option pointer }.
Record ReportList : Type := { flag : Z }.

(** [Main]: the file name and the list of objects, [bmain->object], a
    pointer to an object being its index in the list. *)
Record Main : Type := { name : string; object : list Object }.

(** The state: what the accessors of the context [C] give, the window
    managers of [G_MAIN], [G.relbase_valid], and the datablocks by
    address.  [CTX_wm_manager] and [CTX_wm_reports] are dereferenced by
    the file without a test and are kept by value; no function here uses
    both the context's window manager and those of [G_MAIN]. *)
Record World : Type := {
  CTX_data_main : option Main;
  CTX_wm_manager : wmWindowManager;
  CTX_wm_reports : ReportList;
  CTX_data_active_object : option nat;
  CTX_data_scene : option pointer;
  G_MAIN_wm : list wmWindowManager;
  G_relbase_valid : bool;
  heap : gmap pointer Datablock
}.

Definition set_main (bmain : option Main) (C : World) : World :=
  {| CTX_data_main := bmain;
     CTX_wm_manager := CTX_wm_manager C;
     CTX_wm_reports := CTX_wm_reports C;
     CTX_data_active_object := CTX_data_active_object C;
     CTX_data_scene := CTX_data_scene C;
     G_MAIN_wm := G_MAIN_wm C;
     G_relbase_valid := G_relbase_valid C;
     heap := heap C |}.

Definition set_wm (wm : wmWindowManager) (C : World) : World :=
  {| CTX_data_main := CTX_data_main C;
     CTX_wm_manager := wm;
     CTX_wm_reports := CTX_wm_reports C;
     CTX_data_active_object := CTX_data_active_object C;
     CTX_data_scene := CTX_data_scene C;
     G_MAIN_wm := G_MAIN_wm C;
     G_relbase_valid := G_relbase_valid C;
     heap := heap C |}.

Definition set_reports (reports : ReportList) (C : World) : World :=
  {| CTX_data_main := CTX_data_main C;
     CTX_wm_manager := CTX_wm_manager C;
     CTX_wm_reports := reports;
     CTX_data_active_object := CTX_data_active_object C;
     CTX_data_scene := CTX_data_scene C;
     G_MAIN_wm := G_MAIN_wm C;
     G_relbase_valid := G_relbase_valid C;
     heap := heap C |}.

Definition set_G_MAIN_wm (wms : list wmWindowManager) (C : World) : World :=
  {| CTX_data_main := CTX_data_main C;
     CTX_wm_manager := CTX_wm_manager C;
     CTX_wm_reports := CTX_wm_reports C;
     CTX_data_active_object := CTX_data_active_object C;
     CTX_data_scene := CTX_data_scene C;
     G_MAIN_wm := wms;
     G_relbase_valid := G_relbase_valid C;
     heap := heap C |}.

Definition set_heap (h : gmap pointer Datablock) (C : World) : World :=
  {| CTX_data_main := CTX_data_main C;
     CTX_wm_manager := CTX_wm_manager C;
     CTX_wm_reports := CTX_wm_reports C;
     CTX_data_active_object := CTX_data_active_object C;
     CTX_data_scene := CTX_data_scene C;
     G_MAIN_wm := G_MAIN_wm C;
     G_relbase_valid := G_relbase_valid C;
     heap := h |}.

(** The objects of the context's main database; none when it is null. *)
Definition objects (C : World) : list Object :=
  match CTX_data_main C with
  | Some bmain => object bmain
  | None => []
  end.

(** [ePF_FileStatus] of [BKE_packedFile.h]: the results of
    [checkPackedFile] and the unpack methods share the enumeration. *)
Inductive ePF_FileStatus : Type :=
| PF_EQUAL | PF_DIFFERS | PF_NOFILE
| PF_WRITE_ORIGINAL | PF_WRITE_LOCAL | PF_USE_LOCAL | PF_USE_ORIGINAL
| PF_KEEP | PF_REMOVE | PF_NOOP | PF_ASK.

Global Instance ePF_FileStatus_eq_dec : EqDecision ePF_FileStatus.
Proof. solve_decision. Defined.

Record SpaceLink : Type := { spacetype : Z }.

Global Instance SpaceLink_eq_dec : EqDecision SpaceLink.
Proof. solve_decision. Defined.

(** *** The calls into the host, with their arguments *)
Inductive Event : Type :=
| Call_BKE_undosys_stack_create
| Call_BKE_undosys_stack_destroy (ustack : pointer)
| Call_ED_object_mode_toggle (mode : Z)
| Call_ED_space_image_paint_update (sce : pointer)
| Call_EDBM_mesh_free (em : pointer)
| Call_MEM_freeN (vmemh : pointer)
| Call_ED_armature_edit_free (arm : pointer)
| Call_ED_mesh_mirror_spatial_table (mode : ascii)
| Call_ED_mesh_mirror_topo_table (mode : ascii)
| Call_multires_force_update (ob : nat)
| Call_BKE_sculptsession_bm_to_me_for_render (ob : nat)
| Call_BKE_sculptsession_bm_to_me (ob : nat) (reorder : bool)
| Call_ED_object_editmode_load (ob : nat)
| Call_UI_popup_menu_begin (title : string)
| Call_uiItemFullO_ptr (ot : option pointer) (label : string)
| Call_RNA_enum_set (prop : string) (value : ePF_FileStatus)
| Call_RNA_string_set (prop value : string)
| Call_UI_popup_menu_end
| Call_id_remap (spaceid : Z) (sa : pointer) (sl : SpaceLink)
    (old_id : pointer) (new_id : option pointer).

Global Instance Event_eq_dec : EqDecision Event.
Proof. solve_decision. Defined.

(** A state with the calls made so far. *)
Definition St : Type := (World * list Event)%type.

(** A call into the host: it is recorded, and has its effect. *)
Definition call (e : Event) (effect : World -> World) (s : St) : St :=
  (effect (fst s), snd s ++ [e]).

(** A call whose effect no function of the file reads back. *)
Definition call_ (e : Event) (s : St) : St := call e (fun C => C) s.

(** [#define SWAP(type, a, b) { type sw_ap; sw_ap = (a); (a) = (b); (b) = sw_ap; }] *)
Definition SWAP {A : Type} (ab : A * A) : A * A := (snd ab, fst ab).

(** The constants of [DNA_object_types.h] and [DNA_windowmanager_types.h]
    the file names. *)
Class DNA : Type := {
  OB_MODE_OBJECT : Z;
  OB_MODE_EDIT : Z;
  OB_MODE_SCULPT : Z;
  RPT_STORE : Z
}.

(** *** ED_editors_init *)

(** What [ED_editors_init] calls: the fresh undo stack, the test for mode
    data of the object at an index, and the effects of the mode toggle and
    of the paint update on the state. *)
Class InitHost : Type := {
  BKE_undosys_stack_create : World -> pointer;
  BKE_object_has_mode_data : World -> nat -> Z -> bool;
  ED_object_mode_toggle : Z -> World -> World;
  ED_space_image_paint_update : pointer -> World -> World
}.

Definition with_mode (m : Z) (ob : Object) : Object :=
  {| ob_id := ob_id ob; type := type ob; mode := m;
     data := data ob; sculpt := sculpt ob |}.

(** [ob->mode = m] for the object at index [i]. *)
Definition set_ob_mode (i : nat) (m : Z) (C : World) : World :=
  match CTX_data_main C with
  | Some bmain =>
      set_main (Some {| name := name bmain;
                        object := alter (with_mode m) i (object bmain) |}) C
  | None => C
  end.

(** The body of the loop over the objects, for the object [ob] at index
    [i].  [None] is a fault: [data] is dereferenced and dangles. *)
Definition init_object `{DNA} `{InitHost} (obact i : nat) (ob : Object) (s : St)
  : option St :=
  let mode_ := mode ob in
  if mode_ =? OB_MODE_OBJECT then Some s
  else if negb (BKE_object_has_mode_data (fst s) i mode_) then
    if negb (bool_decide (type ob = OB_GPENCIL)) then
      let data_ := data ob in
      let s := (set_ob_mode i OB_MODE_OBJECT (fst s), snd s) in
      if bool_decide (i = obact) && negb (ID_IS_LINKED (ob_id ob)) then
        match data_ with
        | None =>
            Some (call (Call_ED_object_mode_toggle mode_) (ED_object_mode_toggle mode_) s)
        | Some p =>
            match heap (fst s) !! p with
            | None => None
            | Some db =>
                if negb (ID_IS_LINKED (datablock_id db))
                then Some (call (Call_ED_object_mode_toggle mode_)
                                (ED_object_mode_toggle mode_) s)
                else Some s
            end
        end
      else Some s
    else Some s
  else Some s.

(** [for (ob = bmain->object.first; ob; ob = ob->id.next)], from the object
    at index [i].  The list is read again at every step, after what the
    host did; [fuel] bounds the steps, and [None] is a fault or too little
    fuel. *)
Fixpoint init_objects `{DNA} `{InitHost} (fuel : nat) (obact i : nat) (s : St)
  : option St :=
  match fuel with
  | O => None
  | S fuel =>
      match CTX_data_main (fst s) with
      | None => None
      | Some bmain =>
          match object bmain !! i with
          | None => Some s
          | Some ob =>
              match init_object obact i ob s with
              | Some s => init_objects fuel obact (S i) s
              | None => None
              end
          end
      end
  end.

(** The start of [ED_editors_init], up to the first [SWAP]: the state, and
    the local [reports_flag_prev]. *)
Definition init_enter `{DNA} `{InitHost} (C : World) : St * Z :=
  let wm := CTX_wm_manager C in
  let s :=
    match undo_stack wm with
    | None =>
        call Call_BKE_undosys_stack_create
             (fun C => set_wm {| undo_stack := Some (BKE_undosys_stack_create C) |} C)
             (C, [])
    | Some _ => (C, [])
    end in
  let reports := CTX_wm_reports (fst s) in
  let reports_flag_prev := Z.land (flag reports) (Z.lnot RPT_STORE) in
  let '(flag_, reports_flag_prev) := SWAP (flag reports, reports_flag_prev) in
  ((set_reports {| flag := flag_ |} (fst s), snd s), reports_flag_prev).

(** The toggling of the modes: nothing without an active object. *)
Definition init_modes `{DNA} `{InitHost} (s : St) : option St :=
  match CTX_data_active_object (fst s) with
  | Some obact =>
      match CTX_data_main (fst s) with
      | Some bmain => init_objects (S (length (object bmain))) obact 0 s
      | None => None
      end
  | None => Some s
  end.

(** The image editor's paint mode. *)
Definition init_paint `{DNA} `{InitHost} (s : St) : St :=
  match CTX_data_scene (fst s) with
  | Some sce =>
      call (Call_ED_space_image_paint_update sce) (ED_space_image_paint_update sce) s
  | None => s
  end.

(** The second [SWAP]. *)
Definition init_leave (reports_flag_prev : Z) (s : St) : St :=
  let '(flag_, _) := SWAP (flag (CTX_wm_reports (fst s)), reports_flag_prev) in
  (set_reports {| flag := flag_ |} (fst s), snd s).

Definition ED_editors_init `{DNA} `{InitHost} (C : World) : option St :=
  let '(s, reports_flag_prev) := init_enter C in
  match init_modes s with
  | Some s => Some (init_leave reports_flag_prev (init_paint s))
  | None => None
  end.

(** *** ED_editors_exit *)

(** What [ED_editors_exit] calls and reads back: [ED_armature_edit_free]
    frees the edit bones of an armature, and the loop tests [arm->edbo] of
    a shared armature again after it. *)
Class ExitHost : Type := {
  ED_armature_edit_free : bArmature -> bArmature
}.

(** The body of the loop over the objects.  [None] is a fault: [ob->data]
    is null, dangles, or is not of the object's type. *)
Definition exit_object `{ExitHost} (ob : Object) (s : St) : option St :=
  match type ob with
  | OB_MESH =>
      match data ob with
      | Some p =>
          match heap (fst s) !! p with
          | Some (DB_Mesh me) =>
              match edit_btmesh me with
              | Some em =>
                  let s := call_ (Call_EDBM_mesh_free em) s in
                  let s := call_ (Call_MEM_freeN em) s in
                  let me := {| me_id := me_id me; edit_btmesh := None |} in
                  Some (set_heap (<[p := DB_Mesh me]> (heap (fst s))) (fst s), snd s)
              | None => Some s
              end
          | _ => None
          end
      | None => None
      end
  | OB_ARMATURE =>
      match data ob with
      | Some p =>
          match heap (fst s) !! p with
          | Some (DB_Armature arm) =>
              match edbo arm with
              | Some _ =>
                  Some (call (Call_ED_armature_edit_free p)
                             (fun C => set_heap (<[p := DB_Armature (ED_armature_edit_free arm)]>
                                                   (heap C)) C) s)
              | None => Some s
              end
          | _ => None
          end
      | None => None
      end
  | _ => Some s
  end.

(** The loop: the body changes datablocks, never the list of objects. *)
Fixpoint exit_objects `{ExitHost} (obs : list Object) (s : St) : option St :=
  match obs with
  | [] => Some s
  | ob :: rest =>
      match exit_object ob s with
      | Some s => exit_objects rest s
      | None => None
      end
  end.

(** The undo stack of the first window manager of [G_MAIN]. *)
Definition exit_undo (s : St) : St :=
  match G_MAIN_wm (fst s) with
  | wm :: rest =>
      match undo_stack wm with
      | Some ustack =>
          let s := call_ (Call_BKE_undosys_stack_destroy ustack) s in
          (set_G_MAIN_wm ({| undo_stack := None |} :: rest) (fst s), snd s)
      | None => s
      end
  | [] => s
  end.

Definition ED_editors_exit `{ExitHost} (C : World) : option St :=
  match CTX_data_main C with
  | None => Some (C, [])
  | Some bmain =>
      let s := exit_undo (C, []) in
      match exit_objects (object bmain) s with
      | Some s =>
          let s := call_ (Call_ED_mesh_mirror_spatial_table "e") s in
          let s := call_ (Call_ED_mesh_mirror_topo_table "e") s in
          Some s
      | None => None
      end
  end.

(** *** ED_editors_flush_edits *)

(** [ob->sculpt && ob->sculpt->cache]. *)
Definition stroke_active (ob : Object) : bool :=
  match sculpt ob with
  | Some ss => match cache ss with Some _ => true | None => false end
  | None => false
  end.

(** The body of the loop, for the object [ob] at index [i]: the flag
    [has_edited] and the calls so far go in and come out. *)
Definition flush_object `{DNA} (for_render : bool) (i : nat) (ob : Object)
    (s : bool * list Event) : bool * list Event :=
  let '(has_edited, calls) := s in
  if negb (Z.land (mode ob) OB_MODE_SCULPT =? 0) then
    if negb (stroke_active ob) then
      let calls := calls ++ [Call_multires_force_update i] in
      let has_edited := true in
      if for_render
      then (has_edited, calls ++ [Call_BKE_sculptsession_bm_to_me_for_render i])
      else (has_edited, calls ++ [Call_BKE_sculptsession_bm_to_me i false])
    else (has_edited, calls)
  else if negb (Z.land (mode ob) OB_MODE_EDIT =? 0) then
    let has_edited := true in
    (has_edited, calls ++ [Call_ED_object_editmode_load i])
  else (has_edited, calls).

Fixpoint flush_objects `{DNA} (for_render : bool) (i : nat) (obs : list Object)
    (s : bool * list Event) : bool * list Event :=
  match obs with
  | [] => s
  | ob :: rest => flush_objects for_render (S i) rest (flush_object for_render i ob s)
  end.

(** The value returned, and the calls made; [None] is the fault of a null
    main database. *)
Definition ED_editors_flush_edits `{DNA} (C : World) (for_render : bool)
  : option (bool * list Event) :=
  match CTX_data_main C with
  | Some bmain => Some (flush_objects for_render 0 (object bmain) (false, []))
  | None => None
  end.

(** *** apply_keyb_grid

    The value [*val] holds on return. *)
Definition apply_keyb_grid (shift ctrl : Z) (val fac1 fac2 fac3 : float32)
    (invert : Z) : float32 :=
  let ctrl := if negb (invert =? 0) then (if ctrl =? 0 then 1 else 0) else ctrl in
  if negb (ctrl =? 0) && negb (shift =? 0) then
    if F32.neqb fac3 F32.zero
    then F32.mul fac3 (F32.floorf (F32.add (F32.div val fac3) F32.half))
    else val
  else if negb (ctrl =? 0) then
    if F32.neqb fac2 F32.zero
    then F32.mul fac2 (F32.floorf (F32.add (F32.div val fac2) F32.half))
    else val
  else
    if F32.neqb fac1 F32.zero
    then F32.mul fac1 (F32.floorf (F32.add (F32.div val fac1) F32.half))
    else val.

(** *** unpack_menu *)

(** What [unpack_menu] calls and reads the result of: the operator type by
    name, the translation of a label, the file part of a path cut to a
    buffer's size, formatted printing into a buffer of a size, and the
    comparison of a packed file with the file on disk; and the sizes
    [FILE_MAX] and [FILE_MAXDIR] of [BLI_path_util.h]. *)
Class UnpackHost : Type := {
  FILE_MAX : nat;
  FILE_MAXDIR : nat;
  WM_operatortype_find : string -> bool -> option pointer;
  IFACE_ : string -> string;
  BLI_split_file_part : string -> nat -> string;
  BLI_snprintf : nat -> string -> list string -> string;
  checkPackedFile : string -> string -> pointer -> ePF_FileStatus
}.

Definition BKE_main_blendfile_path (bmain : Main) : string := name bmain.

(** One entry of the menu: the item with its label, then its properties
    [method] and [id]. *)
Definition unpack_item (ot : option pointer) (line : string)
    (method : ePF_FileStatus) (id_name : string) : list Event :=
  [Call_uiItemFullO_ptr ot line;
   Call_RNA_enum_set "method" method;
   Call_RNA_string_set "id" id_name].

(** [char line[FILE_MAX + 100]]. *)
Definition line_size `{UnpackHost} : nat := (FILE_MAX + 100)%nat.

(** [local_name], printed into [char local_name[FILE_MAXDIR + FILE_MAX]]
    from the folder and the file part [fi] of [abs_name]. *)
Definition unpack_local_name `{UnpackHost} (abs_name folder : string) : string :=
  let fi := BLI_split_file_part abs_name FILE_MAX in
  BLI_snprintf (FILE_MAXDIR + FILE_MAX)%nat "//%s/%s" [folder; fi].

(** The first [switch]: the entries for the local name. *)
Definition unpack_local `{UnpackHost} (ot : option pointer) (bmain : Main)
    (id_name local_name : string) (pf : pointer) : list Event :=
  match checkPackedFile (BKE_main_blendfile_path bmain) local_name pf with
  | PF_NOFILE =>
      let line := BLI_snprintf line_size (IFACE_ "Create %s") [local_name] in
      unpack_item ot line PF_WRITE_LOCAL id_name
  | PF_EQUAL =>
      let line := BLI_snprintf line_size (IFACE_ "Use %s (identical)") [local_name] in
      unpack_item ot line PF_USE_LOCAL id_name
  | PF_DIFFERS =>
      let line := BLI_snprintf line_size (IFACE_ "Use %s (differs)") [local_name] in
      let line' := BLI_snprintf line_size (IFACE_ "Overwrite %s") [local_name] in
      unpack_item ot line PF_USE_LOCAL id_name
      ++ unpack_item ot line' PF_WRITE_LOCAL id_name
  | _ => []
  end.

(** The second [switch]: the entries for the absolute name. *)
Definition unpack_original `{UnpackHost} (ot : option pointer) (bmain : Main)
    (id_name abs_name : string) (pf : pointer) : list Event :=
  match checkPackedFile (BKE_main_blendfile_path bmain) abs_name pf with
  | PF_NOFILE =>
      let line := BLI_snprintf line_size (IFACE_ "Create %s") [abs_name] in
      unpack_item ot line PF_WRITE_ORIGINAL id_name
  | PF_EQUAL =>
      let line := BLI_snprintf line_size (IFACE_ "Use %s (identical)") [abs_name] in
      unpack_item ot line PF_USE_ORIGINAL id_name
  | PF_DIFFERS =>
      let line := BLI_snprintf line_size (IFACE_ "Use %s (differs)") [abs_name] in
      let line' := BLI_snprintf line_size (IFACE_ "Overwrite %s") [abs_name] in
      unpack_item ot line PF_USE_ORIGINAL id_name
      ++ unpack_item ot line' PF_WRITE_ORIGINAL id_name
  | _ => []
  end.

(** The calls [unpack_menu] makes; [None] is the fault of a null main
    database, whose file name is read. *)
Definition unpack_menu `{UnpackHost} (C : World)
    (opname id_name abs_name folder : string) (pf : pointer)
  : option (list Event) :=
  match CTX_data_main C with
  | None => None
  | Some bmain =>
      let ot := WM_operatortype_find opname true in
      let calls := [Call_UI_popup_menu_begin (IFACE_ "Unpack File")] in
      let calls := calls ++ unpack_item ot (IFACE_ "Remove Pack") PF_REMOVE id_name in
      let calls :=
        if G_relbase_valid C then
          let local_name := unpack_local_name abs_name folder in
          if negb (String.eqb abs_name local_name)
          then calls ++ unpack_local ot bmain id_name local_name pf
          else calls
        else calls in
      let calls := calls ++ unpack_original ot bmain id_name abs_name pf in
      Some (calls ++ [Call_UI_popup_menu_end])
  end.

(** *** ED_spacedata_id_remap *)

(** A space type: its identifier and its [id_remap] callback, which may be
    null and otherwise does to the state what the space type decides. *)
Record SpaceType : Type := {
  spaceid : Z;
  id_remap : option (pointer -> SpaceLink -> pointer -> option pointer -> World -> World)
}.

(** The registry of space types, by identifier. *)
Class SpaceHost : Type := {
  BKE_spacetype_from_id : Z -> option SpaceType
}.

Definition ED_spacedata_id_remap `{SpaceHost} (sa : pointer) (sl : SpaceLink)
    (old_id : pointer) (new_id : option pointer) (s : St) : St :=
  match BKE_spacetype_from_id (spacetype sl) with
  | Some st =>
      match id_remap st with
      | Some callback =>
          call (Call_id_remap (spaceid st) sa sl old_id new_id)
               (callback sa sl old_id new_id) s
      | None => s
      end
  | None => s
  end.

(** *** Observations, and the wording of the claims

    What the theorems say of the functions above: observations of a state
    or of a trace of calls, the conditions under which a function returns,
    and definitions that follow the wording of the specification, to
    compare the functions with. *)

(** An object is in a mode when the mode's bit is set in [ob->mode]. *)
Definition in_sculpt_mode `{DNA} (ob : Object) : Prop :=
  Z.land (mode ob) OB_MODE_SCULPT <> 0.

Definition in_edit_mode `{DNA} (ob : Object) : Prop :=
  Z.land (mode ob) OB_MODE_EDIT <> 0.

(** The number of objects of the main database, when there is one. *)
Definition object_count (C : World) : option nat :=
  match CTX_data_main C with
  | Some bmain => Some (length (object bmain))
  | None => None
  end.

(** The data is linked: [data && ID_IS_LINKED(data)]. *)
Definition data_linked (h : gmap pointer Datablock) (d : option pointer) : Prop :=
  exists p db, d = Some p /\ h !! p = Some db /\ ID_IS_LINKED (datablock_id db) = true.

(** The object [ob] at index [i] is the active object, and neither it nor
    its data is linked. *)
Definition toggle_allowed (obact i : nat) (ob : Object)
    (h : gmap pointer Datablock) : Prop :=
  i = obact /\ ID_IS_LINKED (ob_id ob) = false /\ ~ data_linked h (data ob).

Definition is_toggle (e : Event) : bool :=
  match e with
  | Call_ED_object_mode_toggle _ => true
  | _ => false
  end.

(** What the loop of [ED_editors_init] relies on: the mode toggle leaves
    the main database in place with as many objects as it had. *)
Definition toggle_keeps_objects `{InitHost} : Prop :=
  forall (m : Z) (C : World),
    object_count (ED_object_mode_toggle m C) = object_count C.

(** What [ED_editors_init] dereferences: with an active object there is a
    main database, and the data of the active object, when not null, is a
    datablock. *)
Definition init_ready (C : World) : Prop :=
  forall obact,
    CTX_data_active_object C = Some obact ->
    is_Some (CTX_data_main C)
    /\ forall ob p,
         objects C !! obact = Some ob -> data ob = Some p -> is_Some (heap C !! p).

(** The data of a mesh object is a mesh, that of an armature object an
    armature: what [ED_editors_exit] relies on when it casts [ob->data]. *)
Definition data_typed (h : gmap pointer Datablock) (ob : Object) : Prop :=
  match type ob with
  | OB_MESH => exists p me, data ob = Some p /\ h !! p = Some (DB_Mesh me)
  | OB_ARMATURE => exists p arm, data ob = Some p /\ h !! p = Some (DB_Armature arm)
  | _ => True
  end.

(** The test the loop of [ED_editors_flush_edits] makes of an object, and
    the calls it makes for the object at index [i]. *)
Definition flush_wanted `{DNA} (ob : Object) : bool :=
  if negb (Z.land (mode ob) OB_MODE_SCULPT =? 0)
  then negb (stroke_active ob)
  else negb (Z.land (mode ob) OB_MODE_EDIT =? 0).

Definition flush_calls `{DNA} (for_render : bool) (i : nat) (ob : Object)
  : list Event :=
  snd (flush_object for_render i ob (false, [])).

(** The object a call of the flush is made for, if it is one. *)
Definition flushed_object (e : Event) : option nat :=
  match e with
  | Call_multires_force_update ob
  | Call_BKE_sculptsession_bm_to_me_for_render ob
  | Call_BKE_sculptsession_bm_to_me ob _
  | Call_ED_object_editmode_load ob => Some ob
  | _ => None
  end.

(** The factor of [apply_keyb_grid]: [fac3] when ctrl and shift are both
    set, else [fac2] when ctrl is set, else [fac1], where [invert] first
    negates ctrl. *)
Definition selected_factor (shift ctrl : Z) (fac1 fac2 fac3 : float32)
    (invert : Z) : float32 :=
  let ctrl_set := xorb (negb (invert =? 0)) (negb (ctrl =? 0)) in
  let shift_set := negb (shift =? 0) in
  if ctrl_set && shift_set then fac3
  else if ctrl_set then fac2
  else fac1.

(** [factor * floor(val / factor + 0.5)], in single precision. *)
Definition grid_multiple (factor val : float32) : float32 :=
  F32.mul factor (F32.floorf (F32.add (F32.div val factor) F32.half)).

(** [r] is the multiple of [factor] nearest to [val], as numbers: an
    integral multiple, and no integral multiple is nearer to [val]. *)
Definition nearest_multiple (factor val r : float32) : Prop :=
  exists k : Z,
    (F32.to_Q r == inject_Z k * F32.to_Q factor)%Q
    /\ forall j : Z,
         (Qabs (F32.to_Q r - F32.to_Q val)
          <= Qabs (inject_Z j * F32.to_Q factor - F32.to_Q val))%Q.

(** The float just below one half, [0.5 - 2^-25] (0.49999997). *)
Definition below_half : float32 := S754_finite false 16777215 (-25).

(** The entries of the unpack menu for one path and the result of
    [checkPackedFile] for it: a 'Use' and an 'Overwrite' entry when the file
    differs, one 'Create' entry when there is no file, one 'Use' entry when
    the file is equal.  [use] and [write] are the methods for the path. *)
Definition unpack_entries `{UnpackHost} (ot : option pointer)
    (status : ePF_FileStatus) (path : string) (use write : ePF_FileStatus)
    (id_name : string) : list Event :=
  match status with
  | PF_DIFFERS =>
      unpack_item ot (BLI_snprintf line_size (IFACE_ "Use %s (differs)") [path]) use id_name
      ++ unpack_item ot (BLI_snprintf line_size (IFACE_ "Overwrite %s") [path]) write id_name
  | PF_NOFILE =>
      unpack_item ot (BLI_snprintf line_size (IFACE_ "Create %s") [path]) write id_name
  | PF_EQUAL =>
      unpack_item ot (BLI_snprintf line_size (IFACE_ "Use %s (identical)") [path]) use id_name
  | _ => []
  end.

(** An entry targets the local path when its method is a local one. *)
Definition targets_local (e : Event) : bool :=
  match e with
  | Call_RNA_enum_set _ PF_WRITE_LOCAL | Call_RNA_enum_set _ PF_USE_LOCAL => true
  | _ => false
  end.

(** The callback [ED_spacedata_id_remap] is to invoke: that of the space
    type found for the link's [spacetype], when one is found and its
    [id_remap] is not null. *)
Definition remap_callback `{SpaceHost} (sl : SpaceLink)
  : option (Z * (pointer -> SpaceLink -> pointer -> option pointer -> World -> World)) :=
  match BKE_spacetype_from_id (spacetype sl) with
  | Some st =>
      match id_remap st with
      | Some callback => Some (spaceid st, callback)
      | None => None
      end
  | None => None
  end.

(** *** Instances to evaluate on *)

(** The values of the constants in Blender 2.80. *)
Definition blender_dna : DNA := {|
  OB_MODE_OBJECT := 0;
  OB_MODE_EDIT := 1;
  OB_MODE_SCULPT := 2;
  RPT_STORE := 2
|}.

Definition local_id : ID := {| lib := None |}.

Definition example_object (t : ObType) (m : Z) (d : option pointer)
    (ss : option SculptSession) : Object :=
  {| ob_id := local_id; type := t; mode := m; data := d; sculpt := ss |}.

Definition example_world (obs : list Object) (h : gmap pointer Datablock) : World :=
  {| CTX_data_main := Some {| name := "/home/user/scene.blend"; object := obs |};
     CTX_wm_manager := {| undo_stack := None |};
     CTX_wm_reports := {| flag := 3 |};
     CTX_data_active_object := Some 0%nat;
     CTX_data_scene := Some 7%positive;
     G_MAIN_wm := [{| undo_stack := Some 9%positive |}];
     G_relbase_valid := true;
     heap := h |}.

(** One object with the bits of edit mode and of sculpt mode both set, in
    the middle of a stroke. *)
Definition world_mid_stroke : World :=
  example_world
    [example_object OB_MESH 3 (Some 1%positive) (Some {| cache := Some 5%positive |})]
    {[ 1%positive := DB_Mesh {| me_id := local_id; edit_btmesh := None |} ]}.

(** An object in the middle of a sculpt stroke, and a mesh in edit mode. *)
Definition world_two_objects : World :=
  example_world
    [example_object OB_MESH 2 (Some 1%positive) (Some {| cache := Some 5%positive |});
     example_object OB_MESH 1 (Some 2%positive) None]
    {[ 1%positive := DB_Mesh {| me_id := local_id; edit_btmesh := None |};
       2%positive := DB_Mesh {| me_id := local_id; edit_btmesh := Some 6%positive |} ]}.

(** A host whose [ED_armature_edit_free] clears the list of edit bones. *)
Definition example_exit_host : ExitHost := {|
  ED_armature_edit_free := fun arm => {| arm_id := arm_id arm; edbo := None |}
|}.

(** Two objects that share a mesh in edit mode, an armature with edit
    bones, and an empty. *)
Definition world_at_exit : World :=
  example_world
    [example_object OB_MESH 1 (Some 1%positive) None;
     example_object OB_MESH 0 (Some 1%positive) None;
     example_object OB_ARMATURE 1 (Some 2%positive) None;
     example_object OB_OTHER 0 None None]
    {[ 1%positive := DB_Mesh {| me_id := local_id; edit_btmesh := Some 11%positive |};
       2%positive := DB_Armature {| arm_id := local_id; edbo := Some 12%positive |} ]}.

(** A host in which nothing has mode data after the load, and the toggle
    enters the mode for the active object. *)
Definition example_init_host : InitHost := {|
  BKE_undosys_stack_create := fun _ => 21%positive;
  BKE_object_has_mode_data := fun _ _ _ => false;
  ED_object_mode_toggle := fun m C =>
    match CTX_data_active_object C with
    | Some obact => set_ob_mode obact m C
    | None => C
    end;
  ED_space_image_paint_update := fun _ C => C
|}.

(** The active mesh saved in edit mode, a mesh saved in sculpt mode, a
    grease pencil object saved in a mode of its own, and a mesh in object
    mode. *)
Definition world_at_init : World :=
  example_world
    [example_object OB_MESH 1 (Some 1%positive) None;
     example_object OB_MESH 2 (Some 2%positive) None;
     example_object OB_GPENCIL 32 None None;
     example_object OB_MESH 0 (Some 2%positive) None]
    {[ 1%positive := DB_Mesh {| me_id := local_id; edit_btmesh := None |};
       2%positive := DB_Mesh {| me_id := local_id; edit_btmesh := None |} ]}.

(** [printf] with [%s] only, cut to a buffer of [size] bytes, and the part
    of a path after its last slash. *)
Fixpoint format (fmt : string) (args : list string) : string :=
  match fmt with
  | String "%" (String "s" rest) =>
      match args with
      | a :: args => a ++ format rest args
      | [] => format rest []
      end
  | String c rest => String c (format rest args)
  | EmptyString => EmptyString
  end.

Fixpoint file_part (path acc : string) : string :=
  match path with
  | String c rest =>
      if bool_decide (c = "/"%char) then file_part rest EmptyString
      else file_part rest (acc ++ String c EmptyString)
  | EmptyString => acc
  end.

Definition example_unpack_host (status : string -> ePF_FileStatus) : UnpackHost := {|
  FILE_MAX := 1024;
  FILE_MAXDIR := 768;
  WM_operatortype_find := fun _ _ => Some 1%positive;
  IFACE_ := fun msgid => msgid;
  BLI_split_file_part := fun path size => substring 0 (size - 1) (file_part path EmptyString);
  BLI_snprintf := fun size fmt args => substring 0 (size - 1) (format fmt args);
  checkPackedFile := fun _ filename _ => status filename
|}.

(** The file on disk differs at the local path and is missing at the
    absolute one. *)
Definition example_status (filename : string) : ePF_FileStatus :=
  if String.eqb filename "//textures/wood.png" then PF_DIFFERS else PF_NOFILE.

(** A registry of two space types: the callback of the first clears the
    report flags, the second has none. *)
Definition example_space_host : SpaceHost := {|
  BKE_spacetype_from_id := fun spaceid =>
    if spaceid =? 1
    then Some {| spaceid := 1;
                 id_remap := Some (fun _ _ _ _ C =>
                   set_reports {| flag := 0 |} C) |}
    else if spaceid =? 2 then Some {| spaceid := 2; id_remap := None |}
    else None
|}.

(** *** ed_flush_edits_exec and ED_OT_flush_edits *)

(** The values an operator callback returns ([WM_types.h]). *)
Inductive OperatorReturn : Type :=
| OPERATOR_RUNNING_MODAL | OPERATOR_CANCELLED | OPERATOR_FINISHED
| OPERATOR_PASS_THROUGH.

(** The value returned and the calls made; the result of the flush is
    dropped.  The operator argument is unused. *)
Definition ed_flush_edits_exec `{DNA} (C : World)
  : option (OperatorReturn * list Event) :=
  match ED_editors_flush_edits C false with
  | Some (_, calls) => Some (OPERATOR_FINISHED, calls)
  | None => None
  end.

(** An operator type: the fields [ED_OT_flush_edits] writes ([name],
    [idname], [description], [exec], [flag]) and, of those it leaves alone,
    the [poll] callback. *)
Record wmOperatorType : Type := {
  ot_name : string;
  ot_idname : string;
  ot_description : string;
  ot_exec : option (World -> option (OperatorReturn * list Event));
  ot_poll : option (World -> bool);
  ot_flag : Z
}.

(** [OPTYPE_INTERNAL] of [WM_types.h] is an argument. *)
Definition ED_OT_flush_edits `{DNA} (OPTYPE_INTERNAL : Z) (ot : wmOperatorType)
  : wmOperatorType :=
  {| ot_name := "Flush Edits";
     ot_description := "Flush edit data from active editing modes";
     ot_idname := "ED_OT_flush_edits";
     ot_exec := Some ed_flush_edits_exec;
     ot_poll := ot_poll ot;
     ot_flag := OPTYPE_INTERNAL |}.

(** *** Further observations *)

(** The pointers given to [MEM_freeN] and to [EDBM_mesh_free], in the order
    of the calls. *)
Definition freed (calls : list Event) : list pointer :=
  omap (fun e => match e with Call_MEM_freeN p => Some p | _ => None end) calls.

Definition edit_meshes_freed (calls : list Event) : list pointer :=
  omap (fun e => match e with Call_EDBM_mesh_free em => Some em | _ => None end) calls.

(** No two meshes hold the same edit mesh. *)
Definition edit_meshes_unshared (h : gmap pointer Datablock) : Prop :=
  forall p q me me' em,
    h !! p = Some (DB_Mesh me) -> h !! q = Some (DB_Mesh me') ->
    edit_btmesh me = Some em -> edit_btmesh me' = Some em -> p = q.

(** [ED_armature_edit_free] leaves the armature without edit bones. *)
Definition edit_free_clears `{ExitHost} : Prop :=
  forall arm, edbo (ED_armature_edit_free arm) = None.

(** An object is as it was, or as it was with its mode reset. *)
Definition mode_kept_or_reset `{DNA} (ob ob' : Object) : Prop :=
  ob' = ob \/ ob' = with_mode OB_MODE_OBJECT ob.




(** *** Further instances to evaluate on *)

(** A database whose active object is linked from a library and was saved
    in edit mode, beside a local mesh saved in sculpt mode; no scene. *)
Definition world_linked_active : World :=
  {| CTX_data_main :=
       Some {| name := "/home/user/scene.blend";
               object :=
                 [{| ob_id := {| lib := Some 30%positive |}; type := OB_MESH;
                     mode := 1; data := Some 1%positive; sculpt := None |};
                  example_object OB_MESH 2 (Some 2%positive) None] |};
     CTX_wm_manager := {| undo_stack := Some 20%positive |};
     CTX_wm_reports := {| flag := 2 |};
     CTX_data_active_object := Some 0%nat;
     CTX_data_scene := None;
     G_MAIN_wm := [];
     G_relbase_valid := false;
     heap :=
       {[ 1%positive := DB_Mesh {| me_id := local_id; edit_btmesh := None |};
          2%positive := DB_Mesh {| me_id := local_id; edit_btmesh := None |} ]} |}.

(** A context without main database, active object or scene. *)
Definition world_empty : World :=
  {| CTX_data_main := None;
     CTX_wm_manager := {| undo_stack := None |};
     CTX_wm_reports := {| flag := 2 |};
     CTX_data_active_object := None;
     CTX_data_scene := None;
     G_MAIN_wm := [];
     G_relbase_valid := false;
     heap := ∅ |}.

End ed_util.

(** * Theorems *)

(** ** Single-precision floats *)

(** [floorf] at 3.7, -3.7, a third, minus a third, -4, the largest float
    with a fraction, and the special values. *)
Example floorf_values :
  F32.floorf (F32.of_ratio 37 10) = F32.of_Z 3
  /\ F32.floorf (F32.opp (F32.of_ratio 37 10)) = F32.of_Z (-4)
  /\ F32.floorf (F32.of_ratio 1 3) = F32.zero
  /\ F32.floorf (F32.opp (F32.of_ratio 1 3)) = F32.of_Z (-1)
  /\ F32.floorf (F32.of_Z (-4)) = F32.of_Z (-4)
  /\ F32.floorf (F32.of_ratio 16777215 2) = F32.of_Z 8388607
  /\ F32.floorf (S754_zero true) = S754_zero true
  /\ F32.floorf (S754_infinity true) = S754_infinity true
  /\ F32.floorf S754_nan = S754_nan.
Proof. repeat split; vm_compute; reflexivity. Qed.

(** The literals of the two files are floats of the format. *)
Example literals_valid :
  forallb F32.is_valid
    [F32.zero; F32.half; F32.one; VR_Widget_Shift.rect_extent;
     VR_Widget_Shift.rect_depth] = true.
Proof. vm_compute. reflexivity. Qed.

(** *** [floorf] is the integer floor

    The conversion of an integer below [2^24] in magnitude to a float is
    exact, and the result is a float of the format. *)
Lemma digits2_pos_size (p : positive) : digits2_pos p = Pos.size p.
Proof. induction p; simpl; congruence. Qed.

Lemma size_bound (p : positive) : (Pos.size p <= 24)%positive <-> Zpos p < 2 ^ 24.
Proof.
  split; intros Hp.
  - pose proof (Pos.size_gt p) as Hgt.
    apply Pos2Z.pos_lt_pos in Hgt. rewrite Pos2Z.inj_pow in Hgt.
    eapply Z.lt_le_trans; [exact Hgt|].
    apply Z.pow_le_mono_r; lia.
  - destruct (Pos.leb_spec (Pos.size p) 24) as [Hle|Hlt]; [exact Hle|exfalso].
    pose proof (Pos.size_le p) as Hle.
    apply Pos2Z.pos_le_pos in Hle. rewrite Pos2Z.inj_pow in Hle.
    assert (2 ^ 25 <= 2 ^ Zpos (Pos.size p)) by (apply Z.pow_le_mono_r; lia).
    change (2 ^ 25) with (2 * 2 ^ 24) in *. lia.
Qed.

(** [k] shifts to the left multiply by [2^k] and add [k] digits. *)
Lemma iter_xO (p k : positive) :
  Zpos (Pos.iter xO p k) = Zpos p * 2 ^ Zpos k
  /\ digits2_pos (Pos.iter xO p k) = (digits2_pos p + k)%positive.
Proof.
  induction k as [|k [IHv IHd]] using Pos.peano_ind.
  - simpl. split; [lia|]. now rewrite Pos.add_1_r.
  - rewrite Pos.iter_succ, Pos2Z.inj_succ, Z.pow_succ_r by lia.
    simpl digits2_pos. rewrite IHd. split; lia.
Qed.

(** A mantissa of 24 digits above the least exponent is not shifted. *)
Lemma shr_fexp_exact (m : positive) (e : Z) :
  Zpos (digits2_pos m) = 24 -> -149 <= e ->
  shr_fexp F32.prec F32.emax (Zpos m) e loc_Exact
  = ({| shr_m := Zpos m; shr_r := false; shr_s := false |}, e).
Proof.
  intros Hd He. unfold shr_fexp, fexp, emin, Zdigits2, F32.prec, F32.emax.
  rewrite Hd. replace (Z.max (24 + e - 24) (3 - 128 - 24) - e) with 0 by lia.
  reflexivity.
Qed.

(** Rounding an integer of at most 24 digits: the mantissa is shifted to
    24 digits, and nothing is lost. *)
Lemma binary_round_exact (s : bool) (p : positive) :
  Zpos p < 2 ^ 24 ->
  exists m e,
    binary_round F32.prec F32.emax s p 0 = S754_finite s m e
    /\ e <= 0 /\ Zpos m = Zpos p * 2 ^ (- e)
    /\ F32.is_valid (S754_finite s m e) = true.
Proof.
  intros Hp. apply size_bound in Hp. rewrite <- digits2_pos_size in Hp.
  set (d := Zpos (digits2_pos p)).
  assert (Hd : 1 <= d <= 24) by (unfold d; lia).
  assert (Halign : exists m, shl_align p 0 (d - 24) = (m, d - 24)
                    /\ Zpos m = Zpos p * 2 ^ (24 - d)
                    /\ Zpos (digits2_pos m) = 24).
  { unfold shl_align. destruct (d - 24 - 0) as [|k|k] eqn:Hk; try lia.
    - exists p. replace (d - 24) with 0 by lia. replace (24 - d) with 0 by lia.
      split; [reflexivity|]. split; [lia|]. unfold d in *; lia.
    - exists (Pos.iter xO p k). destruct (iter_xO p k) as [Hv Hdig].
      split; [reflexivity|]. rewrite Hv, Hdig.
      replace (24 - d) with (Zpos k) by lia. split; [reflexivity|].
      unfold d in *; lia. }
  destruct Halign as (m & Halign & Hm & Hdig).
  exists m, (d - 24).
  split; [|split; [lia|split]].
  - unfold binary_round.
    change (fexp F32.prec F32.emax (Zpos (digits2_pos p) + 0))
      with (Z.max (d + 0 - 24) (3 - 128 - 24)).
    replace (Z.max (d + 0 - 24) (3 - 128 - 24)) with (d - 24) by lia.
    rewrite Halign. unfold binary_round_aux.
    rewrite shr_fexp_exact by (assumption || lia).
    cbn [shr_m loc_of_shr_record shr_r shr_s round_nearest_even].
    rewrite shr_fexp_exact by (assumption || lia).
    cbn [shr_m].
    destruct (Z.leb_spec (d - 24) (F32.emax - F32.prec)) as [_|Hgt]; [reflexivity|].
    unfold F32.emax, F32.prec in Hgt. lia.
  - rewrite Hm. f_equal. f_equal. lia.
  - unfold F32.is_valid, valid_binary, bounded, canonical_mantissa, fexp, emin,
      F32.prec, F32.emax.
    rewrite Hdig. apply andb_true_intro. split; [apply Z.eqb_eq|apply Z.leb_le]; lia.
Qed.

Lemma to_Q_exact (s : bool) (m : positive) (e : Z) (p : positive) :
  e <= 0 -> Zpos m = Zpos p * 2 ^ (- e) ->
  (F32.to_Q (S754_finite s m e) == inject_Z (cond_Zopp s (Zpos p)))%Q.
Proof.
  intros He Hm. destruct e as [|k|k]; try lia.
  - simpl in Hm. unfold F32.to_Q. rewrite Z.pow_0_r, Z.mul_1_r.
    replace (Zpos m) with (Zpos p) by lia. reflexivity.
  - unfold F32.to_Q, Qeq. simpl Qnum. simpl Qden.
    rewrite Pos2Z.inj_pow. change (- Z.neg k) with (Z.pos k) in Hm.
    destruct s; simpl cond_Zopp; lia.
Qed.

(** The float of an integer below [2^24] in magnitude is that integer. *)
Lemma of_Z_exact (z : Z) (s : bool) :
  Z.abs z < 2 ^ 24 ->
  F32.is_valid (binary_normalize F32.prec F32.emax z 0 s) = true
  /\ F32.is_finite (binary_normalize F32.prec F32.emax z 0 s) = true
  /\ (F32.to_Q (binary_normalize F32.prec F32.emax z 0 s) == inject_Z z)%Q.
Proof.
  intros Hz. destruct z as [|p|p]; unfold binary_normalize.
  - repeat split; reflexivity.
  - destruct (binary_round_exact false p) as (m & e & -> & He & Hm & Hvalid); [lia|].
    repeat split; [exact Hvalid|]. exact (to_Q_exact false m e p He Hm).
  - destruct (binary_round_exact true p) as (m & e & -> & He & Hm & Hvalid); [lia|].
    repeat split; [exact Hvalid|]. exact (to_Q_exact true m e p He Hm).
Qed.

(** A float of the format has a mantissa of at most 24 digits. *)
Lemma valid_in_precision (x : float32) :
  F32.is_valid x = true -> F32.in_precision x = true.
Proof.
  destruct x as [s|s| |s m e]; try reflexivity.
  unfold F32.is_valid, valid_binary, bounded, canonical_mantissa, fexp, emin,
    F32.prec, F32.emax.
  intros Hv. apply andb_prop in Hv as [Hc _]. apply Z.eqb_eq in Hc.
  apply Z.ltb_lt, size_bound. rewrite <- digits2_pos_size. lia.
Qed.

(** [floorf] of a finite float with a mantissa of at most 24 digits is
    finite and is, as a number, the largest integer not above the
    argument. *)
Lemma floorf_floor (x : float32) :
  F32.in_precision x = true -> F32.is_finite x = true ->
  F32.is_finite (F32.floorf x) = true
  /\ (F32.to_Q (F32.floorf x) == inject_Z (Qfloor (F32.to_Q x)))%Q.
Proof.
  intros Hprec Hfin. destruct x as [s| s| |s m e]; try discriminate.
  - split; reflexivity.
  - unfold F32.floorf. destruct (Z.leb_spec 0 e) as [He|He].
    + split; [reflexivity|].
      assert (Hq : F32.to_Q (S754_finite s m e)
                   = inject_Z (cond_Zopp s (Zpos m) * 2 ^ e)).
      { destruct e; try lia; reflexivity. }
      rewrite Hq, Qfloor_Z. reflexivity.
    + destruct e as [|k|k]; try lia.
      assert (Hm : Zpos m < 2 ^ 24) by (apply Z.ltb_lt; exact Hprec).
      change (- Zneg k) with (Zpos k).
      rewrite Z.shiftr_div_pow2, Z.shiftl_mul_pow2 by lia.
      assert (Hpow : 2 <= 2 ^ Zpos k).
      { change 2 with (2 ^ 1) at 1. apply Z.pow_le_mono_r; lia. }
      set (q := Zpos m / 2 ^ Zpos k).
      assert (Hq : 0 <= q /\ q * 2 < 2 ^ 24).
      { unfold q. split; [apply Z.div_pos; lia|].
        assert (Zpos m / 2 ^ Zpos k <= Zpos m / 2) by (apply Z.div_le_compat_l; lia).
        assert (2 * (Zpos m / 2) <= Zpos m) by (apply Z.mul_div_le; lia). lia. }
      assert (Hfloor : Qfloor (F32.to_Q (S754_finite s m (Zneg k)))
                       = cond_Zopp s (Zpos m) / 2 ^ Zpos k).
      { unfold F32.to_Q, Qfloor. now rewrite Pos2Z.inj_pow. }
      rewrite Hfloor.
      change (2 ^ 24) with 16777216 in *.
      destruct s.
      * change (cond_Zopp true (Zpos m)) with (- Zpos m).
        destruct (Z.eqb_spec (q * 2 ^ Zpos k) (Zpos m)) as [Hint|Hint].
        -- assert (Hdiv : - Zpos m / 2 ^ Zpos k = - q).
           { rewrite <- Hint at 1. rewrite <- Z.mul_opp_l. apply Z.div_mul. lia. }
           rewrite Hdiv. apply of_Z_exact. lia.
        -- assert (Hdiv : - Zpos m / 2 ^ Zpos k = - (q + 1)).
           { rewrite Z.div_opp_l_nz; [unfold q; lia|lia|].
             intros Hmod. apply Hint. unfold q.
             pose proof (Z.div_mod (Zpos m) (2 ^ Zpos k)). lia. }
           rewrite Hdiv. apply of_Z_exact. lia.
      * change (cond_Zopp false (Zpos m)) with (Zpos m).
        apply of_Z_exact. fold q. lia.
Qed.

(** [floorf] of a float of the format is a float of the format. *)
Lemma floorf_valid (x : float32) :
  F32.is_valid x = true -> F32.is_valid (F32.floorf x) = true.
Proof.
  intros Hvalid. destruct x as [s| s| |s m e]; try exact Hvalid.
  pose proof (valid_in_precision _ Hvalid) as Hprec.
  apply Z.ltb_lt in Hprec. change (Zpos m < 2 ^ 24) in Hprec.
  unfold F32.floorf. destruct (Z.leb_spec 0 e) as [He|He]; [exact Hvalid|].
  destruct e as [|k|k]; try lia.
  change (- Zneg k) with (Zpos k).
  rewrite Z.shiftr_div_pow2, Z.shiftl_mul_pow2 by lia.
  assert (Hpow : 2 <= 2 ^ Zpos k).
  { change 2 with (2 ^ 1) at 1. apply Z.pow_le_mono_r; lia. }
  set (q := Zpos m / 2 ^ Zpos k).
  assert (Hq : 0 <= q /\ q * 2 < 2 ^ 24).
  { unfold q. split; [apply Z.div_pos; lia|].
    assert (Zpos m / 2 ^ Zpos k <= Zpos m / 2) by (apply Z.div_le_compat_l; lia).
    assert (2 * (Zpos m / 2) <= Zpos m) by (apply Z.mul_div_le; lia). lia. }
  change (2 ^ 24) with 16777216 in *.
  destruct s; [destruct (q * 2 ^ Zpos k =? Zpos m)|]; apply of_Z_exact; lia.
Qed.

(** *** The results of the operations have at most 24 digits

    Rounding shifts a mantissa to the right until it has at most 24
    digits; the shift is a division by a power of two. *)
Lemma digits2_gt (p : positive) : Zpos p < 2 ^ Zpos (digits2_pos p).
Proof.
  rewrite digits2_pos_size. pose proof (Pos.size_gt p) as Hgt.
  apply Pos2Z.pos_lt_pos in Hgt. now rewrite Pos2Z.inj_pow in Hgt.
Qed.

Lemma shr_1_m (mrs : shr_record) :
  0 <= shr_m mrs -> shr_m (shr_1 mrs) = shr_m mrs / 2.
Proof.
  destruct mrs as [m r s]. cbn [shr_m]. intros Hm.
  destruct m as [|[p|p|]|p]; cbn [shr_1 shr_m]; try lia; try reflexivity.
  - apply (Z.div_unique _ _ _ 1); lia.
  - apply (Z.div_unique _ _ _ 0); lia.
Qed.

Lemma shr_iter_m (p : positive) :
  forall mrs : shr_record,
    0 <= shr_m mrs ->
    shr_m (SpecFloat.iter_pos shr_1 p mrs) = shr_m mrs / 2 ^ Zpos p.
Proof.
  assert (Hpos : forall k, 0 < 2 ^ Zpos k) by (intros k; apply Z.pow_pos_nonneg; lia).
  induction p as [p IH|p IH|]; intros mrs Hm; cbn [SpecFloat.iter_pos].
  - assert (H1 : 0 <= shr_m (shr_1 mrs)).
    { rewrite shr_1_m by exact Hm. apply Z.div_pos; lia. }
    assert (H2 : 0 <= shr_m (SpecFloat.iter_pos shr_1 p (shr_1 mrs))).
    { rewrite IH by exact H1. apply Z.div_pos; [exact H1|apply Hpos]. }
    rewrite IH by exact H2. rewrite IH by exact H1. rewrite shr_1_m by exact Hm.
    pose proof (Hpos p).
    rewrite !Z.div_div by lia.
    f_equal. replace (Zpos p~1) with (1 + Zpos p + Zpos p) by lia.
    rewrite !Z.pow_add_r by lia. change (2 ^ 1) with 2. lia.
  - assert (H2 : 0 <= shr_m (SpecFloat.iter_pos shr_1 p mrs)).
    { rewrite IH by exact Hm. apply Z.div_pos; [exact Hm|apply Hpos]. }
    rewrite IH by exact H2. rewrite IH by exact Hm.
    pose proof (Hpos p).
    rewrite !Z.div_div by lia.
    f_equal. replace (Zpos p~0) with (Zpos p + Zpos p) by lia.
    now rewrite Z.pow_add_r by lia.
  - rewrite shr_1_m by exact Hm. reflexivity.
Qed.

Lemma shr_record_of_loc_m (m : Z) (l : location) : shr_m (shr_record_of_loc m l) = m.
Proof. destruct l as [|[]]; reflexivity. Qed.

Lemma shr_fexp_bound (m e : Z) (l : location) :
  0 <= m -> 0 <= shr_m (fst (shr_fexp F32.prec F32.emax m e l)) < 2 ^ 24.
Proof.
  intros Hm. unfold shr_fexp, shr.
  assert (Hdigits : m < 2 ^ Zdigits2 m /\ 0 <= Zdigits2 m).
  { destruct m as [|p|p]; cbn [Zdigits2]; [lia| |lia].
    split; [apply digits2_gt|lia]. }
  destruct Hdigits as [Hlt Hd].
  assert (Hn : Zdigits2 m - 24 <= fexp F32.prec F32.emax (Zdigits2 m + e) - e).
  { unfold fexp, F32.prec. lia. }
  destruct (fexp F32.prec F32.emax (Zdigits2 m + e) - e) as [|n|n] eqn:Hshift;
    cbn [fst]; rewrite ?shr_iter_m, ?shr_record_of_loc_m
      by (rewrite shr_record_of_loc_m; exact Hm).
  - split; [exact Hm|]. eapply Z.lt_le_trans; [exact Hlt|].
    apply Z.pow_le_mono_r; lia.
  - assert (Hpos : 0 < 2 ^ Zpos n) by (apply Z.pow_pos_nonneg; lia).
    split; [apply Z.div_pos; lia|].
    apply Z.div_lt_upper_bound; [exact Hpos|].
    rewrite <- Z.pow_add_r by lia.
    eapply Z.lt_le_trans; [exact Hlt|]. apply Z.pow_le_mono_r; lia.
  - split; [exact Hm|]. eapply Z.lt_le_trans; [exact Hlt|].
    apply Z.pow_le_mono_r; lia.
Qed.

Lemma round_nearest_even_nonneg (m : Z) (l : location) :
  0 <= m -> 0 <= round_nearest_even m l.
Proof.
  intros Hm. destruct l as [|[]]; cbn [round_nearest_even]; try lia.
  destruct (Z.even m); lia.
Qed.

Lemma binary_round_aux_in_precision (s : bool) (m e : Z) (l : location) :
  0 <= m -> F32.in_precision (binary_round_aux F32.prec F32.emax s m e l) = true.
Proof.
  intros Hm. unfold binary_round_aux.
  pose proof (shr_fexp_bound m e l Hm) as H1.
  destruct (shr_fexp F32.prec F32.emax m e l) as [mrs1 e1]. cbn [fst] in H1.
  pose proof (shr_fexp_bound (round_nearest_even (shr_m mrs1) (loc_of_shr_record mrs1))
                e1 loc_Exact (round_nearest_even_nonneg _ _ (proj1 H1))) as H2.
  destruct (shr_fexp F32.prec F32.emax _ e1 loc_Exact) as [mrs2 e2]. cbn [fst] in H2.
  destruct (shr_m mrs2) as [|p|p]; [reflexivity| |reflexivity].
  destruct (e2 <=? F32.emax - F32.prec); [|reflexivity].
  apply Z.ltb_lt. exact (proj2 H2).
Qed.

Lemma binary_normalize_in_precision (z e : Z) (s : bool) :
  F32.in_precision (binary_normalize F32.prec F32.emax z e s) = true.
Proof.
  destruct z as [|p|p]; [reflexivity| |]; unfold binary_normalize, binary_round;
    destruct (shl_align _ _ _) as [mz ez]; apply binary_round_aux_in_precision; lia.
Qed.

Lemma add_in_precision (x y : float32) :
  F32.in_precision x = true -> F32.in_precision y = true ->
  F32.in_precision (F32.add x y) = true.
Proof.
  intros Hx Hy. destruct x as [sx|sx| |sx mx ex], y as [sy|sy| |sy my ey];
    try reflexivity; try assumption;
    try (destruct sx, sy; reflexivity).
  apply binary_normalize_in_precision.
Qed.

Lemma mul_in_precision (x y : float32) :
  F32.in_precision (F32.mul x y) = true.
Proof.
  destruct x as [sx|sx| |sx mx ex], y as [sy|sy| |sy my ey]; try reflexivity.
  apply binary_round_aux_in_precision. lia.
Qed.

Lemma div_in_precision (x y : float32) :
  F32.in_precision (F32.div x y) = true.
Proof.
  destruct x as [sx|sx| |sx mx ex], y as [sy|sy| |sy my ey]; try reflexivity.
  unfold F32.div, SFdiv, SFdiv_core_binary.
  set (m' := match _ - _ - _ with Z0 => _ | Zpos _ => _ | Zneg _ => _ end).
  assert (Hm' : 0 <= m').
  { subst m'. destruct (_ - _ - _); [lia| |lia]. apply Z.shiftl_nonneg. lia. }
  pose proof (Z_div_mod m' (Zpos my) ltac:(lia)) as Hdiv.
  destruct (Z.div_eucl m' (Zpos my)) as [q r].
  apply binary_round_aux_in_precision. nia.
Qed.

(** ** Widget_Shift::render_icon *)
Section Widget_Shift_render_icon.

Import VR_Widget_Shift.
Context `{VR_Types}.

(** One call of [render_icon] renders one rectangle. *)
Lemma render_icon_one_rect (t : Mat44f) (side : VR_Side) (active touched : bool) :
  length (rendered no_state (render_icon t side active touched)) = 1%nat.
Proof. destruct active, touched; reflexivity. Qed.

(** C1, as amended: the colour the rectangle is rendered with depends on
    [active] alone; it is (1, 0, 0, 1) for an active widget and
    (1, 1, 1, 1) otherwise, whatever [t], the side and [touched] are. *)
Theorem render_icon_color (t : Mat44f) (side : VR_Side) (active touched : bool) :
  icon_color t side active touched
  = [Some (if active then color_active else color_idle)].
Proof. destruct active, touched; reflexivity. Qed.

(** C2, as amended: the modelview matrix the rectangle is rendered with is
    [t] for a widget that is not touched and [m_widget_touched * t] for a
    touched one, whatever the side and [active] are. *)
Theorem render_icon_modelview (t : Mat44f) (side : VR_Side) (active touched : bool) :
  icon_modelview t side active touched
  = [Some (if touched then Mat44f_mul m_widget_touched t else t)].
Proof. destruct active, touched; reflexivity. Qed.

End Widget_Shift_render_icon.

(** C1 as stated fails: an active widget and an idle one are rendered in
    different colours, red and white. *)
Lemma render_icon_color_depends_on_active :
  let icon := @VR_Widget_Shift.icon_color VR_Widget_Shift.example_types
                VR_Widget_Shift.identity VR_Widget_Shift.VR_SIDE_LEFT in
  icon true false = [Some VR_Widget_Shift.color_active]
  /\ icon false false = [Some VR_Widget_Shift.color_idle]
  /\ VR_Widget_Shift.color_active <> VR_Widget_Shift.color_idle.
Proof. repeat split; discriminate. Qed.

(** C2 as stated fails: for a touched widget the matrix given to the draw
    layer is not the argument (here the identity) but its product with the
    touched matrix. *)
Lemma render_icon_modelview_depends_on_touched :
  let icon := @VR_Widget_Shift.icon_modelview VR_Widget_Shift.example_types
                VR_Widget_Shift.identity VR_Widget_Shift.VR_SIDE_LEFT in
  icon false false = [Some VR_Widget_Shift.identity]
  /\ icon false true = [Some VR_Widget_Shift.enlarge]
  /\ VR_Widget_Shift.enlarge <> VR_Widget_Shift.identity.
Proof. repeat split; discriminate. Qed.

(** ** apply_keyb_grid *)
Section Apply_keyb_grid.

Import ed_util.

(** The three branches of [apply_keyb_grid] do the same with the factor each
    of them takes. *)
Lemma selected_factor_cases (shift ctrl : Z) (fac1 fac2 fac3 : float32) (invert : Z) :
  selected_factor shift ctrl fac1 fac2 fac3 invert = fac1
  \/ selected_factor shift ctrl fac1 fac2 fac3 invert = fac2
  \/ selected_factor shift ctrl fac1 fac2 fac3 invert = fac3.
Proof.
  unfold selected_factor.
  destruct (invert =? 0), (ctrl =? 0), (shift =? 0); simpl; auto.
Qed.

(** C8, as amended: [apply_keyb_grid] takes the one factor the keys select
    and leaves in [*val] the value [factor * floorf(val / factor + 0.5f)],
    where the division, the addition and the multiplication each round to
    single precision; a selected factor equal to 0.0 (of either sign)
    leaves [*val] as it was.  The [floorf] in it is the integer floor:
    whenever the rounded sum [val / factor + 0.5f] is finite, its [floorf]
    is the finite float that is the largest integer not above the sum; and
    it is a float of the format when the sum is. *)
Theorem apply_keyb_grid_selected_factor
    (shift ctrl : Z) (val fac1 fac2 fac3 : float32) (invert : Z) :
  let factor := selected_factor shift ctrl fac1 fac2 fac3 invert in
  let sum := F32.add (F32.div val factor) F32.half in
  apply_keyb_grid shift ctrl val fac1 fac2 fac3 invert
  = (if F32.eqb factor F32.zero then val else grid_multiple factor val)
  /\ grid_multiple factor val = F32.mul factor (F32.floorf sum)
  /\ (F32.is_finite sum = true ->
      F32.is_finite (F32.floorf sum) = true
      /\ (F32.to_Q (F32.floorf sum) == inject_Z (Qfloor (F32.to_Q sum)))%Q
      /\ (inject_Z (Qfloor (F32.to_Q sum)) <= F32.to_Q sum
          < inject_Z (Qfloor (F32.to_Q sum) + 1))%Q)
  /\ (F32.is_valid sum = true -> F32.is_valid (F32.floorf sum) = true).
Proof.
  intros factor sum. split; [|split; [|split]].
  - subst factor sum.
    unfold apply_keyb_grid, selected_factor, grid_multiple, F32.neqb.
    destruct (invert =? 0); simpl;
      destruct (ctrl =? 0); simpl;
      destruct (shift =? 0); simpl;
      match goal with |- context [F32.eqb ?f F32.zero] => destruct (F32.eqb f F32.zero) end;
      reflexivity.
  - reflexivity.
  - intros Hfinite.
    assert (Hprec : F32.in_precision sum = true).
    { apply add_in_precision; [apply div_in_precision|reflexivity]. }
    destruct (floorf_floor sum Hprec Hfinite) as (Hf & Hq).
    split; [exact Hf|]. split; [exact Hq|].
    split; [apply Qfloor_le|apply Qlt_floor].
  - apply floorf_valid.
Qed.

(** On the grid of tenths, 0.37 goes to four tenths, up to the rounding of
    single precision; with ctrl inverted the grid is that of [fac2]. *)
Example apply_keyb_grid_tenths :
  apply_keyb_grid 0 0 (F32.of_ratio 37 100) (F32.of_ratio 1 10) F32.one F32.zero 0
  = F32.mul (F32.of_ratio 1 10) (F32.of_Z 4)
  /\ apply_keyb_grid 0 0 (F32.of_ratio 37 100) (F32.of_ratio 1 10) F32.one F32.zero 1
     = F32.zero
  /\ apply_keyb_grid 1 1 (F32.of_ratio 37 100) (F32.of_ratio 1 10) F32.one F32.zero 0
     = F32.of_ratio 37 100.
Proof. repeat split; vm_compute; reflexivity. Qed.

End Apply_keyb_grid.

(** C8 as stated fails: on the grid of the integers the float just below
    one half, [0.5 - 2^-25], goes to 1, although 0 is the nearer integer.
    The sum [val / 1 + 0.5f] is [1 - 2^-25], which lies halfway between two
    floats and rounds to 1. *)
Lemma apply_keyb_grid_not_nearest :
  ed_util.apply_keyb_grid 0 0 ed_util.below_half F32.one F32.one F32.one 0 = F32.one
  /\ F32.add (F32.div ed_util.below_half F32.one) F32.half = F32.one
  /\ (F32.to_Q ed_util.below_half < 1 # 2)%Q
  /\ (Qabs (inject_Z 0 * F32.to_Q F32.one - F32.to_Q ed_util.below_half)
      < Qabs (F32.to_Q F32.one - F32.to_Q ed_util.below_half))%Q
  /\ ~ ed_util.nearest_multiple F32.one ed_util.below_half
         (ed_util.apply_keyb_grid 0 0 ed_util.below_half F32.one F32.one F32.one 0).
Proof.
  split; [vm_compute; reflexivity|].
  split; [vm_compute; reflexivity|].
  split; [vm_compute; reflexivity|].
  split; [vm_compute; reflexivity|].
  intros (k & _ & Hnearest). specialize (Hnearest 0).
  vm_compute in Hnearest. exact (Hnearest eq_refl).
Qed.

(** The theorem of C8 on the grid of tenths: for 0.37 the sum is a finite
    float between 4 and 5, its [floorf] is 4, and the value left is the
    float product of a tenth and 4. *)
Lemma apply_keyb_grid_selected_factor_witness :
  let val := F32.of_ratio 37 100 in
  let tenth := F32.of_ratio 1 10 in
  let sum := F32.add (F32.div val tenth) F32.half in
  F32.is_finite sum = true
  /\ F32.is_valid sum = true
  /\ ed_util.apply_keyb_grid 0 0 val tenth F32.one F32.zero 0
     = F32.mul tenth (F32.floorf sum)
  /\ Qfloor (F32.to_Q sum) = 4
  /\ (F32.to_Q (F32.floorf sum) == inject_Z 4)%Q
  /\ F32.is_valid (F32.floorf sum) = true.
Proof.
  intros val tenth sum.
  assert (Hfinite : F32.is_finite sum = true) by (vm_compute; reflexivity).
  assert (Hvalid : F32.is_valid sum = true) by (vm_compute; reflexivity).
  destruct (apply_keyb_grid_selected_factor 0 0 val tenth F32.one F32.zero 0)
    as (Hresult & Hgrid & Hfloor & Hformat).
  destruct (Hfloor Hfinite) as (_ & Hq & _).
  split; [exact Hfinite|]. split; [exact Hvalid|].
  split; [rewrite Hresult; exact Hgrid|].
  split; [vm_compute; reflexivity|].
  split; [exact Hq|exact (Hformat Hvalid)].
Defined.

(** ** ED_spacedata_id_remap *)
Section Spacedata_id_remap.

Import ed_util.
Context `{SpaceHost}.

(** C7: the callback is invoked, once and with the arguments of the call,
    exactly when a space type is found and has one; otherwise nothing is
    called and the state is the one before. *)
Theorem ED_spacedata_id_remap_dispatch (sa : pointer) (sl : SpaceLink)
    (old_id : pointer) (new_id : option pointer) (s : St) :
  match remap_callback sl with
  | Some (spaceid, callback) =>
      ED_spacedata_id_remap sa sl old_id new_id s
      = (callback sa sl old_id new_id (fst s),
         snd s ++ [Call_id_remap spaceid sa sl old_id new_id])
  | None => ED_spacedata_id_remap sa sl old_id new_id s = s
  end.
Proof.
  unfold remap_callback, ED_spacedata_id_remap.
  destruct (BKE_spacetype_from_id (spacetype sl)) as [st|]; [|reflexivity].
  destruct (id_remap st); reflexivity.
Qed.

(** The trace tells the two cases apart: it grows exactly when there is a
    callback to invoke. *)
Lemma ED_spacedata_id_remap_calls (sa : pointer) (sl : SpaceLink)
    (old_id : pointer) (new_id : option pointer) (s : St) :
  snd (ED_spacedata_id_remap sa sl old_id new_id s) <> snd s
  <-> is_Some (remap_callback sl).
Proof.
  unfold remap_callback, ED_spacedata_id_remap.
  destruct (BKE_spacetype_from_id (spacetype sl)) as [st|]; simpl.
  - destruct (id_remap st); simpl.
    + split; [eauto|]. intros _ Heq.
      apply (f_equal length) in Heq. rewrite length_app in Heq. simpl in Heq. lia.
    + split; [congruence|]. intros [? ?]; discriminate.
  - split; [congruence|]. intros [? ?]; discriminate.
Qed.

End Spacedata_id_remap.

(** In the example registry type 1 has a callback, type 2 has none and
    type 3 is not registered. *)
Example ED_spacedata_id_remap_example :
  let s := (ed_util.world_mid_stroke, []) in
  let remap i := @ed_util.ED_spacedata_id_remap ed_util.example_space_host
                   4%positive {| ed_util.spacetype := i |} 5%positive None s in
  snd (remap 1) = [ed_util.Call_id_remap 1 4%positive {| ed_util.spacetype := 1 |} 5%positive None]
  /\ ed_util.flag (ed_util.CTX_wm_reports (fst (remap 1))) = 0
  /\ remap 2 = s
  /\ remap 3 = s.
Proof. repeat split. Qed.

(** ** unpack_menu *)
Section Unpack_menu.

Import ed_util.
Context `{UnpackHost}.

(** An entry with a method for the original path does not target the local
    one. *)
Lemma unpack_item_targets_local (ot : option pointer) (line : string)
    (method : ePF_FileStatus) (id_name : string) :
  existsb targets_local (unpack_item ot line method id_name)
  = bool_decide (method = PF_WRITE_LOCAL \/ method = PF_USE_LOCAL).
Proof. destruct method; reflexivity. Qed.

Lemma unpack_entries_targets_local (ot : option pointer) (status : ePF_FileStatus)
    (path id_name : string) :
  existsb targets_local
    (unpack_entries ot status path PF_USE_ORIGINAL PF_WRITE_ORIGINAL id_name) = false.
Proof. destruct status; reflexivity. Qed.

(** The two [switch] statements are the entries of the claim, for the local
    and for the absolute path. *)
Lemma unpack_local_entries (ot : option pointer) (bmain : Main)
    (id_name local_name : string) (pf : pointer) :
  unpack_local ot bmain id_name local_name pf
  = unpack_entries ot (checkPackedFile (BKE_main_blendfile_path bmain) local_name pf)
      local_name PF_USE_LOCAL PF_WRITE_LOCAL id_name.
Proof. unfold unpack_local, unpack_entries. destruct checkPackedFile; reflexivity. Qed.

Lemma unpack_original_entries (ot : option pointer) (bmain : Main)
    (id_name abs_name : string) (pf : pointer) :
  unpack_original ot bmain id_name abs_name pf
  = unpack_entries ot (checkPackedFile (BKE_main_blendfile_path bmain) abs_name pf)
      abs_name PF_USE_ORIGINAL PF_WRITE_ORIGINAL id_name.
Proof. unfold unpack_original, unpack_entries. destruct checkPackedFile; reflexivity. Qed.

(** C6: the menu is opened, holds the 'Remove Pack' entry first, then the
    entries for the local path, which are there only for a valid base path
    and a local name that differs from the absolute one, then the entries
    for the absolute path, and is closed.  For each of the two paths the
    entries are those of [unpack_entries]: 'Use' and 'Overwrite' for
    [PF_DIFFERS], one 'Create' for [PF_NOFILE], one 'Use' for [PF_EQUAL]. *)
Theorem unpack_menu_entries (C : World) (bmain : Main)
    (opname id_name abs_name folder : string) (pf : pointer)
    (Hmain : CTX_data_main C = Some bmain) :
  let ot := WM_operatortype_find opname true in
  let local_name := unpack_local_name abs_name folder in
  let blend := BKE_main_blendfile_path bmain in
  let local_entries :=
    if G_relbase_valid C && negb (String.eqb abs_name local_name)
    then unpack_entries ot (checkPackedFile blend local_name pf) local_name
           PF_USE_LOCAL PF_WRITE_LOCAL id_name
    else [] in
  unpack_menu C opname id_name abs_name folder pf
  = Some ([Call_UI_popup_menu_begin (IFACE_ "Unpack File")]
          ++ unpack_item ot (IFACE_ "Remove Pack") PF_REMOVE id_name
          ++ local_entries
          ++ unpack_entries ot (checkPackedFile blend abs_name pf) abs_name
               PF_USE_ORIGINAL PF_WRITE_ORIGINAL id_name
          ++ [Call_UI_popup_menu_end])
  /\ forall calls,
       unpack_menu C opname id_name abs_name folder pf = Some calls ->
       existsb targets_local calls = true ->
       G_relbase_valid C = true /\ abs_name <> local_name.
Proof.
  intros ot local_name blend local_entries.
  assert (Hmenu : unpack_menu C opname id_name abs_name folder pf
    = Some ([Call_UI_popup_menu_begin (IFACE_ "Unpack File")]
            ++ unpack_item ot (IFACE_ "Remove Pack") PF_REMOVE id_name
            ++ local_entries
            ++ unpack_entries ot (checkPackedFile blend abs_name pf) abs_name
                 PF_USE_ORIGINAL PF_WRITE_ORIGINAL id_name
            ++ [Call_UI_popup_menu_end])).
  { unfold unpack_menu. rewrite Hmain.
    rewrite unpack_original_entries.
    subst local_entries. fold ot local_name blend.
    destruct (G_relbase_valid C); simpl andb.
    - destruct (negb (String.eqb abs_name local_name)).
      + rewrite unpack_local_entries. fold blend.
        now rewrite <- !app_assoc.
      + now rewrite <- ?app_assoc.
    - now rewrite <- ?app_assoc. }
  split; [exact Hmenu|].
  intros calls Hcalls Hlocal.
  rewrite Hmenu in Hcalls. injection Hcalls as <-.
  cbn [existsb targets_local orb] in Hlocal.
  rewrite !existsb_app, unpack_entries_targets_local in Hlocal.
  cbn [existsb targets_local orb] in Hlocal. rewrite !orb_false_r in Hlocal.
  subst local_entries.
  destruct (G_relbase_valid C); simpl in Hlocal; [|discriminate].
  destruct (String.eqb_spec abs_name local_name) as [Heq|Hne];
    simpl in Hlocal; [discriminate|].
  split; [reflexivity|exact Hne].
Qed.

End Unpack_menu.

(** The theorem at a file that differs at the local path and is missing at
    the absolute one: five entries, two of them for the local path. *)
Lemma unpack_menu_entries_witness :
  let host := ed_util.example_unpack_host ed_util.example_status in
  @ed_util.unpack_menu host ed_util.world_mid_stroke
      "FILE_OT_unpack_item" "IMwood" "/tmp/wood.png" "textures" 3%positive
  = Some
      [ed_util.Call_UI_popup_menu_begin "Unpack File";
       ed_util.Call_uiItemFullO_ptr (Some 1%positive) "Remove Pack";
       ed_util.Call_RNA_enum_set "method" ed_util.PF_REMOVE;
       ed_util.Call_RNA_string_set "id" "IMwood";
       ed_util.Call_uiItemFullO_ptr (Some 1%positive) "Use //textures/wood.png (differs)";
       ed_util.Call_RNA_enum_set "method" ed_util.PF_USE_LOCAL;
       ed_util.Call_RNA_string_set "id" "IMwood";
       ed_util.Call_uiItemFullO_ptr (Some 1%positive) "Overwrite //textures/wood.png";
       ed_util.Call_RNA_enum_set "method" ed_util.PF_WRITE_LOCAL;
       ed_util.Call_RNA_string_set "id" "IMwood";
       ed_util.Call_uiItemFullO_ptr (Some 1%positive) "Create /tmp/wood.png";
       ed_util.Call_RNA_enum_set "method" ed_util.PF_WRITE_ORIGINAL;
       ed_util.Call_RNA_string_set "id" "IMwood";
       ed_util.Call_UI_popup_menu_end].
Proof.
  exact (proj1 (@unpack_menu_entries
                  (ed_util.example_unpack_host ed_util.example_status)
                  ed_util.world_mid_stroke _
                  "FILE_OT_unpack_item" "IMwood" "/tmp/wood.png" "textures" 3%positive
                  eq_refl)).
Defined.

(** ** ED_editors_flush_edits *)
Section Flush_edits.

Import ed_util.
Context `{DNA}.

(** The test of the loop, in the words of the modes. *)
Lemma flush_wanted_modes (ob : Object) :
  flush_wanted ob = true
  <-> (in_sculpt_mode ob /\ stroke_active ob = false)
      \/ (in_edit_mode ob /\ ~ in_sculpt_mode ob).
Proof.
  unfold flush_wanted, in_sculpt_mode, in_edit_mode.
  destruct (Z.eqb_spec (Z.land (mode ob) OB_MODE_SCULPT) 0) as [Hs|Hs];
    destruct (Z.eqb_spec (Z.land (mode ob) OB_MODE_EDIT) 0) as [He|He];
    destruct (stroke_active ob); simpl; split; intros Hw;
    try discriminate; try tauto;
    destruct Hw as [[? ?]|[? ?]]; try discriminate; tauto.
Qed.

(** The body of the loop: the flag is raised for a wanted object, and the
    calls for the object are appended. *)
Lemma flush_object_step (for_render : bool) (i : nat) (ob : Object)
    (has_edited : bool) (calls : list Event) :
  flush_object for_render i ob (has_edited, calls)
  = (has_edited || flush_wanted ob, calls ++ flush_calls for_render i ob).
Proof.
  unfold flush_calls, flush_object, flush_wanted.
  destruct (Z.land (mode ob) OB_MODE_SCULPT =? 0),
           (Z.land (mode ob) OB_MODE_EDIT =? 0),
           (stroke_active ob), for_render, has_edited; simpl;
    rewrite ?app_nil_r, <- ?app_assoc; reflexivity.
Qed.

(** The calls for an object are made for it, and only when it is wanted. *)
Lemma flush_calls_object (for_render : bool) (i : nat) (ob : Object) (e : Event) :
  e ∈ flush_calls for_render i ob ->
  flush_wanted ob = true /\ flushed_object e = Some i.
Proof.
  unfold flush_calls, flush_object, flush_wanted.
  destruct (Z.land (mode ob) OB_MODE_SCULPT =? 0),
           (Z.land (mode ob) OB_MODE_EDIT =? 0),
           (stroke_active ob), for_render; simpl;
    rewrite ?elem_of_cons, ?elem_of_nil; intuition (subst; auto; discriminate).
Qed.

Lemma flush_calls_unwanted (for_render : bool) (i : nat) (ob : Object) :
  flush_wanted ob = false -> flush_calls for_render i ob = [].
Proof.
  unfold flush_calls, flush_object, flush_wanted.
  destruct (Z.land (mode ob) OB_MODE_SCULPT =? 0),
           (Z.land (mode ob) OB_MODE_EDIT =? 0),
           (stroke_active ob), for_render; simpl; intros; congruence.
Qed.

(** The loop: the value returned. *)
Lemma flush_objects_has_edited (for_render : bool) (obs : list Object) :
  forall (i : nat) (has_edited : bool) (calls : list Event),
    fst (flush_objects for_render i obs (has_edited, calls))
    = has_edited || existsb flush_wanted obs.
Proof.
  induction obs as [|ob obs IH]; intros i has_edited calls;
    cbn [flush_objects existsb fst].
  - now rewrite orb_false_r.
  - rewrite flush_object_step, IH. now rewrite orb_assoc.
Qed.

(** The loop: every call made is one for a wanted object of the list. *)
Lemma flush_objects_calls (for_render : bool) (obs : list Object) :
  forall (i : nat) (has_edited : bool) (calls : list Event) (e : Event),
    e ∈ snd (flush_objects for_render i obs (has_edited, calls)) ->
    e ∈ calls
    \/ exists (j : nat) (ob : Object),
         obs !! j = Some ob /\ flush_wanted ob = true
         /\ flushed_object e = Some (i + j)%nat.
Proof.
  induction obs as [|ob obs IH]; intros i has_edited calls e;
    cbn [flush_objects snd].
  - auto.
  - rewrite flush_object_step. intros He.
    apply IH in He as [He|(j & ob' & Hj & Hw & Hfl)].
    + apply elem_of_app in He as [He|He]; [now left|].
      right. exists 0%nat, ob. apply flush_calls_object in He as [Hw Hfl].
      rewrite Nat.add_0_r. auto.
    + right. exists (S j), ob'. rewrite Nat.add_succ_r. auto.
Qed.

(** The loop: no call at all when no object is wanted. *)
Lemma flush_objects_no_calls (for_render : bool) (obs : list Object) :
  forall (i : nat) (has_edited : bool) (calls : list Event),
    existsb flush_wanted obs = false ->
    snd (flush_objects for_render i obs (has_edited, calls)) = calls.
Proof.
  induction obs as [|ob obs IH]; intros i has_edited calls Hnone;
    cbn [flush_objects snd].
  - reflexivity.
  - simpl in Hnone. apply orb_false_iff in Hnone as [Hob Hobs].
    rewrite flush_object_step, IH by exact Hobs.
    rewrite flush_calls_unwanted by exact Hob. apply app_nil_r.
Qed.

Lemma existsb_flush_wanted (obs : list Object) :
  existsb flush_wanted obs = true
  <-> exists ob, ob ∈ obs
        /\ ((in_sculpt_mode ob /\ stroke_active ob = false)
            \/ (in_edit_mode ob /\ ~ in_sculpt_mode ob)).
Proof.
  rewrite existsb_exists. split; intros (ob & Hin & Hw); exists ob.
  - split; [now apply list_elem_of_In|]. now apply flush_wanted_modes.
  - split; [now apply list_elem_of_In|]. now apply flush_wanted_modes.
Qed.

(** C3, as amended: the value returned is true exactly when some object of
    the main database is in sculpt mode with no stroke going on, or is in
    edit mode and not in sculpt mode; when it is false no flush was
    called. *)
Theorem ED_editors_flush_edits_returns (C : World) (bmain : Main)
    (for_render : bool) (Hmain : CTX_data_main C = Some bmain) :
  exists (has_edited : bool) (calls : list Event),
    ED_editors_flush_edits C for_render = Some (has_edited, calls)
    /\ (has_edited = true
        <-> exists ob, ob ∈ object bmain
              /\ ((in_sculpt_mode ob /\ stroke_active ob = false)
                  \/ (in_edit_mode ob /\ ~ in_sculpt_mode ob)))
    /\ (has_edited = false -> calls = []).
Proof.
  unfold ED_editors_flush_edits. rewrite Hmain.
  destruct (flush_objects for_render 0 (object bmain) (false, []))
    as [has_edited calls] eqn:Hrun.
  exists has_edited, calls.
  pose proof (flush_objects_has_edited for_render (object bmain) 0 false []) as Hret.
  rewrite Hrun in Hret. simpl in Hret.
  split; [reflexivity|]. split.
  - rewrite Hret. apply existsb_flush_wanted.
  - intros Hfalse. rewrite Hfalse in Hret.
    pose proof (flush_objects_no_calls for_render (object bmain) 0 false []
                  (eq_sym Hret)) as Hcalls.
    now rewrite Hrun in Hcalls.
Qed.

(** C4: for an object in sculpt mode in the middle of a stroke no flush is
    called, neither the multires update nor a conversion of the BMesh nor
    the load of edit mode; and when the value returned is true, another
    object of the database is the reason. *)
Theorem ED_editors_flush_edits_mid_stroke (C : World) (bmain : Main)
    (for_render : bool) (i : nat) (ob : Object)
    (Hmain : CTX_data_main C = Some bmain)
    (Hob : object bmain !! i = Some ob)
    (Hsculpt : in_sculpt_mode ob)
    (Hstroke : stroke_active ob = true) :
  exists (has_edited : bool) (calls : list Event),
    ED_editors_flush_edits C for_render = Some (has_edited, calls)
    /\ (forall e, e ∈ calls -> flushed_object e <> Some i)
    /\ (has_edited = true ->
        exists (j : nat) (ob' : Object),
          j <> i /\ object bmain !! j = Some ob'
          /\ ((in_sculpt_mode ob' /\ stroke_active ob' = false)
              \/ (in_edit_mode ob' /\ ~ in_sculpt_mode ob'))).
Proof.
  assert (Hunwanted : flush_wanted ob = false).
  { destruct (flush_wanted ob) eqn:Hw; [|reflexivity].
    apply flush_wanted_modes in Hw as [[_ Hno]|[_ Hno]]; [congruence|tauto]. }
  unfold ED_editors_flush_edits. rewrite Hmain.
  destruct (flush_objects for_render 0 (object bmain) (false, []))
    as [has_edited calls] eqn:Hrun.
  exists has_edited, calls. split; [reflexivity|]. split.
  - intros e He Hfl.
    pose proof (flush_objects_calls for_render (object bmain) 0 false [] e) as Hcalls.
    rewrite Hrun in Hcalls.
    destruct (Hcalls He) as [Hnil|(j & ob' & Hj & Hw & Hfl')].
    + now apply elem_of_nil in Hnil.
    + rewrite Hfl in Hfl'. simpl in Hfl'. injection Hfl' as ->. congruence.
  - intros Htrue.
    pose proof (flush_objects_has_edited for_render (object bmain) 0 false []) as Hret.
    rewrite Hrun in Hret. simpl in Hret. rewrite Htrue in Hret.
    symmetry in Hret. apply existsb_exists in Hret as (ob' & Hin & Hw).
    apply list_elem_of_In, list_elem_of_lookup in Hin as [j Hj].
    exists j, ob'. split; [|split; [exact Hj|now apply flush_wanted_modes]].
    intros ->. congruence.
Qed.

End Flush_edits.

(** C3 as stated fails: an object with the bits of edit mode and of sculpt
    mode both set, in the middle of a stroke, is in edit mode, and the
    value returned is false. *)
Lemma ED_editors_flush_edits_edit_bit_mid_stroke :
  let ob := ed_util.example_object ed_util.OB_MESH 3 (Some 1%positive)
              (Some {| ed_util.cache := Some 5%positive |}) in
  ed_util.objects ed_util.world_mid_stroke = [ob]
  /\ @ed_util.in_edit_mode ed_util.blender_dna ob
  /\ @ed_util.in_sculpt_mode ed_util.blender_dna ob
  /\ ed_util.stroke_active ob = true
  /\ @ed_util.ED_editors_flush_edits ed_util.blender_dna ed_util.world_mid_stroke false
     = Some (false, [])
  /\ @ed_util.ED_editors_flush_edits ed_util.blender_dna ed_util.world_mid_stroke true
     = Some (false, []).
Proof. repeat split; discriminate. Qed.

(** The theorem of C3 at a database with a mesh in edit mode beside an
    object in the middle of a stroke. *)
Lemma ED_editors_flush_edits_returns_witness :
  exists (has_edited : bool) (calls : list ed_util.Event),
    @ed_util.ED_editors_flush_edits ed_util.blender_dna ed_util.world_two_objects false
    = Some (has_edited, calls)
    /\ (has_edited = true
        <-> exists ob, ob ∈ ed_util.objects ed_util.world_two_objects
              /\ ((@ed_util.in_sculpt_mode ed_util.blender_dna ob
                   /\ ed_util.stroke_active ob = false)
                  \/ (@ed_util.in_edit_mode ed_util.blender_dna ob
                      /\ ~ @ed_util.in_sculpt_mode ed_util.blender_dna ob)))
    /\ (has_edited = false -> calls = []).
Proof.
  exact (@ED_editors_flush_edits_returns ed_util.blender_dna
           ed_util.world_two_objects _ false eq_refl).
Defined.

(** The theorem of C4 at the same database, for its first object. *)
Lemma ED_editors_flush_edits_mid_stroke_witness :
  exists (has_edited : bool) (calls : list ed_util.Event),
    @ed_util.ED_editors_flush_edits ed_util.blender_dna ed_util.world_two_objects true
    = Some (has_edited, calls)
    /\ (forall e, e ∈ calls -> ed_util.flushed_object e <> Some 0%nat)
    /\ (has_edited = true ->
        exists (j : nat) (ob' : ed_util.Object),
          j <> 0%nat /\ ed_util.objects ed_util.world_two_objects !! j = Some ob'
          /\ ((@ed_util.in_sculpt_mode ed_util.blender_dna ob'
               /\ ed_util.stroke_active ob' = false)
              \/ (@ed_util.in_edit_mode ed_util.blender_dna ob'
                  /\ ~ @ed_util.in_sculpt_mode ed_util.blender_dna ob'))).
Proof.
  apply (@ED_editors_flush_edits_mid_stroke ed_util.blender_dna
           ed_util.world_two_objects _ true 0%nat
           (ed_util.example_object ed_util.OB_MESH 2 (Some 1%positive)
              (Some {| ed_util.cache := Some 5%positive |}))).
  - reflexivity.
  - reflexivity.
  - discriminate.
  - reflexivity.
Defined.

(** At that database the mesh in edit mode is loaded and the object in the
    middle of its stroke is left alone. *)
Example ED_editors_flush_edits_two_objects :
  @ed_util.ED_editors_flush_edits ed_util.blender_dna ed_util.world_two_objects false
  = Some (true, [ed_util.Call_ED_object_editmode_load 1]).
Proof. reflexivity. Qed.

(** ** ED_editors_exit *)
Section Editors_exit.

Import ed_util.
Context `{ExitHost}.

(** What one step of the loop can do: nothing, clear the edit mesh of the
    mesh at [ob->data], or free the edit bones of the armature there. *)
Lemma exit_object_inv (ob : Object) (s s' : St) :
  exit_object ob s = Some s' ->
  s' = s
  \/ (exists p me em,
        type ob = OB_MESH /\ data ob = Some p
        /\ heap (fst s) !! p = Some (DB_Mesh me) /\ edit_btmesh me = Some em
        /\ s' = (set_heap (<[p := DB_Mesh {| me_id := me_id me; edit_btmesh := None |}]>
                             (heap (fst s))) (fst s),
                 (snd s ++ [Call_EDBM_mesh_free em]) ++ [Call_MEM_freeN em]))
  \/ (exists p arm,
        type ob = OB_ARMATURE /\ data ob = Some p
        /\ heap (fst s) !! p = Some (DB_Armature arm) /\ is_Some (edbo arm)
        /\ s' = (set_heap (<[p := DB_Armature (ED_armature_edit_free arm)]>
                             (heap (fst s))) (fst s),
                 snd s ++ [Call_ED_armature_edit_free p])).
Proof.
  unfold exit_object. intros Hstep.
  destruct (type ob) eqn:Htype; try (injection Hstep as <-; now left);
    destruct (data ob) as [p|] eqn:Hdata; try discriminate;
    destruct (heap (fst s) !! p) as [[me|arm|]|] eqn:Hp; try discriminate.
  - destruct (edit_btmesh me) as [em|] eqn:Hem; injection Hstep as <-; [|now left].
    right; left. exists p, me, em. auto.
  - destruct (edbo arm) as [eb|] eqn:Hedbo; injection Hstep as <-; [|now left].
    right; right. exists p, arm. eauto 10.
Qed.

(** A step forgets no call. *)
Lemma exit_object_calls (ob : Object) (s s' : St) (e : Event) :
  exit_object ob s = Some s' -> e ∈ snd s -> e ∈ snd s'.
Proof.
  intros Hstep He.
  apply exit_object_inv in Hstep
    as [->|[(p & me & em & _ & _ & _ & _ & ->)|(p & arm & _ & _ & _ & _ & ->)]];
    simpl; rewrite ?elem_of_app; auto.
Qed.

(** A step leaves the window managers of [G_MAIN] alone. *)
Lemma exit_object_wm (ob : Object) (s s' : St) :
  exit_object ob s = Some s' -> G_MAIN_wm (fst s') = G_MAIN_wm (fst s).
Proof.
  intros Hstep.
  apply exit_object_inv in Hstep
    as [->|[(p & me & em & _ & _ & _ & _ & ->)|(p & arm & _ & _ & _ & _ & ->)]];
    reflexivity.
Qed.

(** A step keeps meshes meshes and armatures armatures. *)
Lemma exit_object_typed (ob : Object) (s s' : St) (ob' : Object) :
  exit_object ob s = Some s' ->
  data_typed (heap (fst s)) ob' -> data_typed (heap (fst s')) ob'.
Proof.
  intros Hstep.
  apply exit_object_inv in Hstep
    as [->|[(p & me & em & _ & _ & Hp & _ & ->)|(p & arm & _ & _ & Hp & _ & ->)]];
    [auto| |]; unfold data_typed; simpl;
    destruct (type ob'); auto;
    intros (q & x & Hdata & Hq);
    destruct (decide (p = q)) as [<-|Hne];
    try (rewrite Hp in Hq; discriminate).
  - exists p. eexists. split; [exact Hdata|]. apply lookup_insert_eq.
  - exists q, x. split; [exact Hdata|]. now rewrite lookup_insert_ne.
  - exists q, x. split; [exact Hdata|]. now rewrite lookup_insert_ne.
  - exists q, x. split; [exact Hdata|]. now rewrite lookup_insert_ne.
  - exists p. eexists. split; [exact Hdata|]. apply lookup_insert_eq.
  - exists q, x. split; [exact Hdata|]. now rewrite lookup_insert_ne.
Qed.

(** A step does not fault on an object whose data has the object's type. *)
Lemma exit_object_total (ob : Object) (s : St) :
  data_typed (heap (fst s)) ob -> is_Some (exit_object ob s).
Proof.
  unfold data_typed, exit_object.
  destruct (type ob); try (intros _; eauto; fail);
    intros (p & x & -> & ->).
  - destruct (edit_btmesh x); eauto.
  - destruct (edbo x); eauto.
Qed.

(** A mesh without an edit mesh stays one. *)
Lemma exit_object_no_edit_mesh (ob : Object) (s s' : St) (p : pointer) (me : Mesh) :
  exit_object ob s = Some s' ->
  heap (fst s) !! p = Some (DB_Mesh me) -> edit_btmesh me = None ->
  exists me', heap (fst s') !! p = Some (DB_Mesh me') /\ edit_btmesh me' = None.
Proof.
  intros Hstep Hp Hnone.
  apply exit_object_inv in Hstep
    as [->|[(q & me0 & em & _ & _ & Hq & _ & ->)|(q & arm & _ & _ & Hq & _ & ->)]];
    simpl.
  - eauto.
  - destruct (decide (q = p)) as [->|Hne].
    + rewrite lookup_insert_eq. eauto.
    + rewrite lookup_insert_ne by exact Hne. eauto.
  - destruct (decide (q = p)) as [->|Hne]; [congruence|].
    rewrite lookup_insert_ne by exact Hne. eauto.
Qed.

(** After the step for a mesh object its mesh has no edit mesh. *)
Lemma exit_object_mesh (ob : Object) (s s' : St) :
  exit_object ob s = Some s' -> type ob = OB_MESH ->
  exists p me,
    data ob = Some p /\ heap (fst s') !! p = Some (DB_Mesh me)
    /\ edit_btmesh me = None.
Proof.
  unfold exit_object. intros Hstep Htype. rewrite Htype in Hstep.
  destruct (data ob) as [p|]; [|discriminate].
  destruct (heap (fst s) !! p) as [[me| |]|] eqn:Hp; try discriminate.
  destruct (edit_btmesh me) as [em|] eqn:Hem; injection Hstep as <-.
  - exists p. eexists. simpl. rewrite lookup_insert_eq. auto.
  - exists p, me. auto.
Qed.

(** An armature is as it was after a step, unless the step freed its edit
    bones. *)
Lemma exit_object_armature_kept (ob : Object) (s s' : St) (p : pointer)
    (arm : bArmature) :
  exit_object ob s = Some s' ->
  heap (fst s) !! p = Some (DB_Armature arm) ->
  heap (fst s') !! p = Some (DB_Armature arm)
  \/ Call_ED_armature_edit_free p ∈ snd s'.
Proof.
  intros Hstep Hp.
  apply exit_object_inv in Hstep
    as [->|[(q & me0 & em & _ & _ & Hq & _ & ->)|(q & arm0 & _ & _ & Hq & _ & ->)]];
    simpl.
  - now left.
  - destruct (decide (q = p)) as [->|Hne]; [congruence|].
    left. now rewrite lookup_insert_ne.
  - destruct (decide (q = p)) as [->|Hne].
    + right. apply elem_of_app. right. apply list_elem_of_singleton. reflexivity.
    + left. now rewrite lookup_insert_ne.
Qed.

(** The step for an armature object with edit bones frees them. *)
Lemma exit_object_armature (ob : Object) (s s' : St) (p : pointer)
    (arm : bArmature) :
  exit_object ob s = Some s' ->
  type ob = OB_ARMATURE -> data ob = Some p ->
  heap (fst s) !! p = Some (DB_Armature arm) -> is_Some (edbo arm) ->
  Call_ED_armature_edit_free p ∈ snd s'.
Proof.
  unfold exit_object. intros Hstep Htype Hdata Hp [eb Hedbo].
  rewrite Htype, Hdata, Hp, Hedbo in Hstep.
  injection Hstep as <-. simpl.
  apply elem_of_app. right. apply list_elem_of_singleton. reflexivity.
Qed.

(** The loop. *)
Lemma exit_objects_calls (obs : list Object) :
  forall (s s' : St) (e : Event),
    exit_objects obs s = Some s' -> e ∈ snd s -> e ∈ snd s'.
Proof.
  induction obs as [|ob obs IH]; intros s s' e; cbn [exit_objects].
  - now intros [= <-].
  - destruct (exit_object ob s) as [s1|] eqn:Hstep; [|discriminate].
    intros Hrun He. eapply IH; [exact Hrun|]. eapply exit_object_calls; eauto.
Qed.

Lemma exit_objects_wm (obs : list Object) :
  forall (s s' : St),
    exit_objects obs s = Some s' -> G_MAIN_wm (fst s') = G_MAIN_wm (fst s).
Proof.
  induction obs as [|ob obs IH]; intros s s'; cbn [exit_objects].
  - now intros [= <-].
  - destruct (exit_object ob s) as [s1|] eqn:Hstep; [|discriminate].
    intros Hrun. rewrite (IH _ _ Hrun). eapply exit_object_wm; eauto.
Qed.

Lemma exit_objects_total (obs : list Object) :
  forall (s : St),
    Forall (data_typed (heap (fst s))) obs -> is_Some (exit_objects obs s).
Proof.
  induction obs as [|ob obs IH]; intros s Htyped; cbn [exit_objects].
  - eauto.
  - apply Forall_cons in Htyped as [Hob Hobs].
    destruct (exit_object_total ob s Hob) as [s1 Hstep]. rewrite Hstep.
    apply IH. eapply Forall_impl; [exact Hobs|].
    intros ob' Hob'. eapply exit_object_typed; eauto.
Qed.

Lemma exit_objects_no_edit_mesh (obs : list Object) :
  forall (s s' : St) (p : pointer) (me : Mesh),
    exit_objects obs s = Some s' ->
    heap (fst s) !! p = Some (DB_Mesh me) -> edit_btmesh me = None ->
    exists me', heap (fst s') !! p = Some (DB_Mesh me') /\ edit_btmesh me' = None.
Proof.
  induction obs as [|ob obs IH]; intros s s' p me; cbn [exit_objects].
  - intros [= <-]. eauto.
  - destruct (exit_object ob s) as [s1|] eqn:Hstep; [|discriminate].
    intros Hrun Hp Hnone.
    destruct (exit_object_no_edit_mesh _ _ _ _ _ Hstep Hp Hnone) as (me1 & Hp1 & Hnone1).
    eapply IH; eauto.
Qed.

Lemma exit_objects_meshes (obs : list Object) :
  forall (s s' : St) (ob : Object),
    exit_objects obs s = Some s' -> ob ∈ obs -> type ob = OB_MESH ->
    exists p me,
      data ob = Some p /\ heap (fst s') !! p = Some (DB_Mesh me)
      /\ edit_btmesh me = None.
Proof.
  induction obs as [|ob0 obs IH]; intros s s' ob; cbn [exit_objects].
  - intros _ Hin. now apply elem_of_nil in Hin.
  - destruct (exit_object ob0 s) as [s1|] eqn:Hstep; [|discriminate].
    intros Hrun Hin Htype. apply elem_of_cons in Hin as [->|Hin].
    + destruct (exit_object_mesh _ _ _ Hstep Htype) as (p & me & Hdata & Hp & Hnone).
      destruct (exit_objects_no_edit_mesh _ _ _ _ _ Hrun Hp Hnone) as (me' & Hp' & Hnone').
      eauto.
    + eapply IH; eauto.
Qed.

Lemma exit_objects_armatures (obs : list Object) :
  forall (s s' : St) (ob : Object) (p : pointer) (arm : bArmature),
    exit_objects obs s = Some s' -> ob ∈ obs ->
    type ob = OB_ARMATURE -> data ob = Some p ->
    heap (fst s) !! p = Some (DB_Armature arm) -> is_Some (edbo arm) ->
    Call_ED_armature_edit_free p ∈ snd s'.
Proof.
  induction obs as [|ob0 obs IH]; intros s s' ob p arm; cbn [exit_objects].
  - intros _ Hin. now apply elem_of_nil in Hin.
  - destruct (exit_object ob0 s) as [s1|] eqn:Hstep; [|discriminate].
    intros Hrun Hin Htype Hdata Hp Hedbo. apply elem_of_cons in Hin as [->|Hin].
    + eapply exit_objects_calls; [exact Hrun|].
      eapply exit_object_armature; eauto.
    + destruct (exit_object_armature_kept _ _ _ _ _ Hstep Hp) as [Hp1|Hfreed].
      * eapply IH; eauto.
      * eapply exit_objects_calls; eauto.
Qed.

(** C10: with a null main database [ED_editors_exit] returns at once, with
    no call made and the state as it was.  Otherwise it returns (it does
    not fault when the data of every object has the object's type), and
    then the mesh of every mesh object has a null [edit_btmesh], the edit
    bones of every armature object that had some have been freed, and the
    first window manager of [G_MAIN] has a null undo stack, destroyed if
    there was one. *)
Theorem ED_editors_exit_frees (C : World) :
  match CTX_data_main C with
  | None => ED_editors_exit C = Some (C, [])
  | Some bmain =>
      (Forall (data_typed (heap C)) (object bmain) -> is_Some (ED_editors_exit C))
      /\ forall (C' : World) (calls : list Event),
           ED_editors_exit C = Some (C', calls) ->
           (forall ob, ob ∈ object bmain -> type ob = OB_MESH ->
              exists p me,
                data ob = Some p /\ heap C' !! p = Some (DB_Mesh me)
                /\ edit_btmesh me = None)
           /\ (forall ob p arm,
                 ob ∈ object bmain -> type ob = OB_ARMATURE -> data ob = Some p ->
                 heap C !! p = Some (DB_Armature arm) -> is_Some (edbo arm) ->
                 Call_ED_armature_edit_free p ∈ calls)
           /\ (forall wm wms,
                 G_MAIN_wm C = wm :: wms ->
                 G_MAIN_wm C' = {| undo_stack := None |} :: wms
                 /\ forall ustack,
                      undo_stack wm = Some ustack ->
                      Call_BKE_undosys_stack_destroy ustack ∈ calls)
  end.
Proof.
  unfold ED_editors_exit.
  destruct (CTX_data_main C) as [bmain|] eqn:Hmain; [|reflexivity].
  assert (Hheap : heap (fst (exit_undo (C, []))) = heap C).
  { unfold exit_undo. simpl. destruct (G_MAIN_wm C) as [|wm wms]; [reflexivity|].
    destruct (undo_stack wm); reflexivity. }
  split.
  - intros Htyped. rewrite <- Hheap in Htyped.
    destruct (exit_objects_total _ _ Htyped) as [s Hrun]. rewrite Hrun. eauto.
  - intros C' calls Hexit.
    destruct (exit_objects (object bmain) (exit_undo (C, []))) as [s|] eqn:Hrun;
      [|discriminate].
    injection Hexit as <- <-. simpl. split; [|split].
    + intros ob Hin Htype. eapply exit_objects_meshes; eauto.
    + intros ob p arm Hin Htype Hdata Hp Hedbo.
      rewrite !elem_of_app. left; left.
      eapply exit_objects_armatures; eauto. now rewrite Hheap.
    + intros wm wms Hwm. rewrite (exit_objects_wm _ _ _ Hrun).
      unfold exit_undo in *. simpl in *. rewrite Hwm in *.
      destruct (undo_stack wm) as [ustack|] eqn:Hundo.
      * simpl. split; [reflexivity|]. intros ? [= <-].
        rewrite !elem_of_app. left; left.
        eapply exit_objects_calls; [exact Hrun|]. simpl.
        apply list_elem_of_singleton. reflexivity.
      * simpl. split; [|discriminate]. rewrite Hwm.
        destruct wm as [u]. simpl in Hundo. now subst u.
Qed.

End Editors_exit.

(** The theorem of C10 at a database of two objects that share a mesh in
    edit mode, an armature with edit bones and an empty: the function
    returns, the shared mesh has lost its edit mesh, the edit bones are
    freed and the undo stack is gone. *)
Lemma ED_editors_exit_frees_witness :
  exists (C' : ed_util.World) (calls : list ed_util.Event),
    @ed_util.ED_editors_exit ed_util.example_exit_host ed_util.world_at_exit
    = Some (C', calls)
    /\ (exists me, ed_util.heap C' !! 1%positive = Some (ed_util.DB_Mesh me)
                   /\ ed_util.edit_btmesh me = None)
    /\ ed_util.Call_ED_armature_edit_free 2%positive ∈ calls
    /\ ed_util.Call_BKE_undosys_stack_destroy 9%positive ∈ calls
    /\ ed_util.G_MAIN_wm C' = [{| ed_util.undo_stack := None |}].
Proof.
  pose proof (@ED_editors_exit_frees ed_util.example_exit_host ed_util.world_at_exit)
    as Hexit.
  hnf in Hexit. destruct Hexit as [Htotal Hpost].
  destruct Htotal as [[C' calls] Hrun].
  { repeat constructor; hnf; eauto. }
  exists C', calls. split; [exact Hrun|].
  destruct (Hpost C' calls Hrun) as (Hmeshes & Harmatures & Hwm).
  split; [|split; [|split]].
  - destruct (Hmeshes (ed_util.example_object ed_util.OB_MESH 1 (Some 1%positive) None))
      as (p & me & Hdata & Hp & Hnone).
    + apply elem_of_cons. now left.
    + reflexivity.
    + injection Hdata as <-. eauto.
  - eapply (Harmatures
              (ed_util.example_object ed_util.OB_ARMATURE 1 (Some 2%positive) None)).
    + do 2 (apply elem_of_cons; right). apply elem_of_cons. now left.
    + reflexivity.
    + reflexivity.
    + reflexivity.
    + simpl. eauto.
  - eapply Hwm; reflexivity.
  - eapply Hwm; reflexivity.
Defined.

(** The calls of [ED_editors_exit] at that database, in their order: the
    second object finds the shared mesh already cleared. *)
Example ED_editors_exit_example :
  snd <$> @ed_util.ED_editors_exit ed_util.example_exit_host ed_util.world_at_exit
  = Some [ed_util.Call_BKE_undosys_stack_destroy 9%positive;
          ed_util.Call_EDBM_mesh_free 11%positive;
          ed_util.Call_MEM_freeN 11%positive;
          ed_util.Call_ED_armature_edit_free 2%positive;
          ed_util.Call_ED_mesh_mirror_spatial_table "e";
          ed_util.Call_ED_mesh_mirror_topo_table "e"].
Proof. vm_compute. reflexivity. Qed.

(** ** ED_editors_init *)
Section Editors_init.

Import ed_util.
Context `{DNA} `{InitHost}.

(** [ob->mode = m] touches the mode of one object and nothing else. *)
Lemma set_ob_mode_count (i : nat) (m : Z) (C : World) :
  object_count (set_ob_mode i m C) = object_count C.
Proof.
  unfold object_count, set_ob_mode.
  destruct (CTX_data_main C) as [bmain|] eqn:Hmain; simpl.
  - now rewrite length_alter.
  - now rewrite Hmain.
Qed.

Lemma set_ob_mode_heap (i : nat) (m : Z) (C : World) :
  heap (set_ob_mode i m C) = heap C.
Proof. unfold set_ob_mode. destruct (CTX_data_main C); reflexivity. Qed.

Lemma set_ob_mode_lookup (i : nat) (m : Z) (C : World) :
  objects (set_ob_mode i m C) !! i = with_mode m <$> objects C !! i.
Proof.
  unfold objects, set_ob_mode.
  destruct (CTX_data_main C) as [bmain|] eqn:Hmain; simpl.
  - apply list_lookup_alter_eq.
  - now rewrite Hmain.
Qed.

Lemma set_ob_mode_lookup_ne (i j : nat) (m : Z) (C : World) :
  i <> j -> objects (set_ob_mode i m C) !! j = objects C !! j.
Proof.
  intros Hne. unfold objects, set_ob_mode.
  destruct (CTX_data_main C) as [bmain|] eqn:Hmain; simpl.
  - now apply list_lookup_alter_ne.
  - now rewrite Hmain.
Qed.

(** The test of the data in the body of the loop. *)
Lemma data_linked_dec (h : gmap pointer Datablock) (d : option pointer) :
  data_linked h d \/ ~ data_linked h d.
Proof.
  unfold data_linked. destruct d as [p|].
  - destruct (h !! p) as [db|] eqn:Hp.
    + destruct (ID_IS_LINKED (datablock_id db)) eqn:Hl.
      * left. eauto.
      * right. intros (q & db' & [= <-] & Hq & Hl'). congruence.
    + right. intros (q & db' & [= <-] & Hq & _). congruence.
  - right. intros (q & db' & Hq & _). discriminate.
Qed.

(** What the body of the loop does for an object: nothing; or, for an
    object that is not a grease pencil, is saved in a mode and has no mode
    data, the reset of its mode, followed by the toggle exactly when the
    toggle is allowed. *)
Lemma init_object_inv (obact i : nat) (ob : Object) (s s' : St) :
  init_object obact i ob s = Some s' ->
  (s' = s
   /\ (mode ob = OB_MODE_OBJECT
       \/ BKE_object_has_mode_data (fst s) i (mode ob) = true
       \/ type ob = OB_GPENCIL))
  \/ (mode ob <> OB_MODE_OBJECT
      /\ BKE_object_has_mode_data (fst s) i (mode ob) = false
      /\ type ob <> OB_GPENCIL
      /\ ((toggle_allowed obact i ob (heap (fst s))
           /\ s' = call (Call_ED_object_mode_toggle (mode ob))
                        (ED_object_mode_toggle (mode ob))
                        (set_ob_mode i OB_MODE_OBJECT (fst s), snd s))
          \/ (~ toggle_allowed obact i ob (heap (fst s))
              /\ s' = (set_ob_mode i OB_MODE_OBJECT (fst s), snd s)))).
Proof.
  unfold init_object, toggle_allowed. intros Hstep.
  destruct (Z.eqb_spec (mode ob) OB_MODE_OBJECT) as [Hmode|Hmode].
  { injection Hstep as <-. left. auto. }
  destruct (BKE_object_has_mode_data (fst s) i (mode ob)) eqn:Hdata; simpl in Hstep.
  { injection Hstep as <-. left. auto. }
  destruct (decide (type ob = OB_GPENCIL)) as [Htype|Htype].
  { rewrite bool_decide_eq_true_2 in Hstep by exact Htype.
    injection Hstep as <-. left. auto. }
  rewrite bool_decide_eq_false_2 in Hstep by exact Htype. simpl in Hstep.
  right. do 3 (split; [first [assumption|reflexivity]|]).
  destruct (decide (i = obact)) as [Hact|Hact].
  2:{ rewrite bool_decide_eq_false_2 in Hstep by exact Hact.
      injection Hstep as <-. right. split; [tauto|reflexivity]. }
  rewrite bool_decide_eq_true_2 in Hstep by exact Hact.
  destruct (ID_IS_LINKED (ob_id ob)) eqn:Hlinked; simpl in Hstep.
  { injection Hstep as <-. right. split; [|reflexivity]. intros (_ & ? & _). discriminate. }
  rewrite set_ob_mode_heap in Hstep.
  destruct (data ob) as [p|] eqn:Hp.
  - destruct (heap (fst s) !! p) as [db|] eqn:Hdb; [|discriminate].
    destruct (ID_IS_LINKED (datablock_id db)) eqn:Hdl; injection Hstep as <-.
    + right. split; [|reflexivity]. intros (_ & _ & Hno). apply Hno.
      exists p, db. auto.
    + left. split; [|reflexivity]. repeat split; auto.
      intros (q & db' & [= <-] & Hq & Hl). congruence.
  - injection Hstep as <-. left. split; [|reflexivity]. repeat split; auto.
    intros (q & db' & Hq & _). discriminate.
Qed.

(** The body faults only on dangling data of the active object. *)
Lemma init_object_total (obact i : nat) (ob : Object) (s : St) :
  (i = obact -> forall p, data ob = Some p -> is_Some (heap (fst s) !! p)) ->
  is_Some (init_object obact i ob s).
Proof.
  unfold init_object. intros Hvalid.
  destruct (mode ob =? OB_MODE_OBJECT); [eauto|].
  destruct (negb (BKE_object_has_mode_data (fst s) i (mode ob))); [|eauto].
  destruct (negb (bool_decide (type ob = OB_GPENCIL))); [|eauto].
  destruct (decide (i = obact)) as [Hact|Hact].
  2:{ rewrite bool_decide_eq_false_2 by exact Hact. simpl. eauto. }
  rewrite bool_decide_eq_true_2 by exact Hact.
  destruct (negb (ID_IS_LINKED (ob_id ob))); simpl; [|eauto].
  destruct (data ob) as [p|]; [|eauto].
  rewrite set_ob_mode_heap.
  destruct (Hvalid Hact p eq_refl) as [db ->].
  destruct (negb (ID_IS_LINKED (datablock_id db))); eauto.
Qed.

(** A step of the loop keeps the number of objects, under a toggle that
    does. *)
Lemma init_object_count (Hhost : toggle_keeps_objects)
    (obact i : nat) (ob : Object) (s s' : St) :
  init_object obact i ob s = Some s' ->
  object_count (fst s') = object_count (fst s).
Proof.
  intros Hstep.
  apply init_object_inv in Hstep
    as [[-> _]|(_ & _ & _ & [[_ ->]|[_ ->]])]; simpl.
  - reflexivity.
  - now rewrite Hhost, set_ob_mode_count.
  - apply set_ob_mode_count.
Qed.

(** A step for another object than the active one calls nothing and leaves
    the active object and the datablocks as they are. *)
Lemma init_object_other (obact i : nat) (ob : Object) (s s' : St) :
  i <> obact ->
  init_object obact i ob s = Some s' ->
  snd s' = snd s
  /\ objects (fst s') !! obact = objects (fst s) !! obact
  /\ heap (fst s') = heap (fst s).
Proof.
  intros Hne Hstep.
  apply init_object_inv in Hstep
    as [[-> _]|(_ & _ & _ & [[(Hact & _) _]|[_ ->]])]; simpl.
  - auto.
  - contradiction.
  - split; [reflexivity|].
    split; [now apply set_ob_mode_lookup_ne|apply set_ob_mode_heap].
Qed.

(** The loop returns: the fuel it is given is enough when the toggle keeps
    the number of objects. *)
Lemma init_objects_total (Hhost : toggle_keeps_objects) (obact : nat) (fuel : nat) :
  forall (i : nat) (s : St) (n : nat),
    object_count (fst s) = Some n ->
    (n - i < fuel)%nat ->
    ((i <= obact)%nat ->
     forall ob p, objects (fst s) !! obact = Some ob -> data ob = Some p ->
                  is_Some (heap (fst s) !! p)) ->
    is_Some (init_objects fuel obact i s).
Proof.
  induction fuel as [|fuel IH]; intros i s n Hcount Hfuel Hvalid; [lia|].
  cbn [init_objects].
  unfold object_count in Hcount.
  destruct (CTX_data_main (fst s)) as [bmain|] eqn:Hmain; [|discriminate].
  injection Hcount as Hcount.
  destruct (object bmain !! i) as [ob|] eqn:Hob; [|eauto].
  assert (Hi : (i < n)%nat).
  { rewrite <- Hcount. eapply lookup_lt_Some; eauto. }
  destruct (init_object_total obact i ob s) as [s1 Hstep].
  { intros -> p Hp. eapply Hvalid; [lia| |exact Hp].
    unfold objects. now rewrite Hmain. }
  rewrite Hstep. apply (IH (S i) s1 n).
  - rewrite (init_object_count Hhost _ _ _ _ _ Hstep).
    unfold object_count. now rewrite Hmain, Hcount.
  - lia.
  - intros Hle ob' p Hob' Hp.
    destruct (init_object_other obact i ob s s1) as (_ & Hsame & Hheap);
      [lia|exact Hstep|].
    rewrite Hheap. rewrite Hsame in Hob'. eapply Hvalid; eauto. lia.
Qed.

(** The calls of the loop: none, or one toggle, made for the active object
    as the loop was entered, with the mode it was saved in. *)
Lemma init_objects_toggle (obact : nat) (fuel : nat) :
  forall (i : nat) (s s' : St),
    init_objects fuel obact i s = Some s' ->
    snd s' = snd s
    \/ exists ob,
         (i <= obact)%nat
         /\ objects (fst s) !! obact = Some ob
         /\ mode ob <> OB_MODE_OBJECT
         /\ type ob <> OB_GPENCIL
         /\ toggle_allowed obact obact ob (heap (fst s))
         /\ snd s' = snd s ++ [Call_ED_object_mode_toggle (mode ob)].
Proof.
  induction fuel as [|fuel IH]; intros i s s'; cbn [init_objects]; [discriminate|].
  destruct (CTX_data_main (fst s)) as [bmain|] eqn:Hmain; [|discriminate].
  destruct (object bmain !! i) as [ob|] eqn:Hob; [|intros [= <-]; now left].
  destruct (init_object obact i ob s) as [s1|] eqn:Hstep; [|discriminate].
  intros Hrun. destruct (decide (i = obact)) as [->|Hne].
  - (* the active object: whatever follows calls nothing *)
    assert (Hrest : snd s' = snd s1).
    { destruct (IH _ _ _ Hrun) as [Hnone|(ob' & Hle & _)]; [exact Hnone|lia]. }
    rewrite Hrest.
    apply init_object_inv in Hstep
      as [[-> _]|(Hmode & _ & Htype & [[Hallowed ->]|[_ ->]])]; simpl; auto.
    right. exists ob. split; [lia|].
    split; [unfold objects; now rewrite Hmain|]. auto.
  - destruct (init_object_other obact i ob s s1 Hne Hstep) as (Hcalls & Hsame & Hheap).
    destruct (IH _ _ _ Hrun) as [Hnone|(ob' & Hle & Hob' & Hmode & Htype & Hallowed & Hlog)].
    + left. congruence.
    + right. exists ob'. rewrite <- Hsame, <- Hheap, <- Hcalls.
      split; [lia|]. auto.
Qed.

(** The start of [ED_editors_init]: the flags of the reports lose
    [RPT_STORE], the local keeps what they were; the objects, the
    datablocks and the active object are as before, and no toggle has been
    called. *)
Lemma init_enter_state (C : World) :
  snd (init_enter C) = flag (CTX_wm_reports C)
  /\ flag (CTX_wm_reports (fst (fst (init_enter C))))
     = Z.land (flag (CTX_wm_reports C)) (Z.lnot RPT_STORE)
  /\ CTX_data_main (fst (fst (init_enter C))) = CTX_data_main C
  /\ CTX_data_active_object (fst (fst (init_enter C))) = CTX_data_active_object C
  /\ heap (fst (fst (init_enter C))) = heap C
  /\ List.filter is_toggle (snd (fst (init_enter C))) = [].
Proof.
  unfold init_enter, SWAP. destruct (undo_stack (CTX_wm_manager C)); simpl; auto 10.
Qed.

(** The end of [ED_editors_init] adds no toggle to the calls. *)
Lemma init_leave_paint_toggles (prev : Z) (s : St) :
  List.filter is_toggle (snd (init_leave prev (init_paint s)))
  = List.filter is_toggle (snd s).
Proof.
  unfold init_leave, init_paint, SWAP.
  destruct (CTX_data_scene (fst s)); simpl; [|reflexivity].
  rewrite List.filter_app. simpl. apply app_nil_r.
Qed.

(** The second [SWAP] stores the local in the flags. *)
Lemma init_leave_flag (prev : Z) (s : St) :
  flag (CTX_wm_reports (fst (init_leave prev s))) = prev.
Proof. reflexivity. Qed.

(** The toggling of the modes returns. *)
Lemma init_modes_total (Hhost : toggle_keeps_objects) (C : World) :
  init_ready C -> is_Some (init_modes (fst (init_enter C))).
Proof.
  intros Hready. unfold init_modes.
  destruct (init_enter_state C) as (_ & _ & Hmain & Hact & Hheap & _).
  rewrite Hact, Hmain.
  destruct (CTX_data_active_object C) as [obact|] eqn:Hobact; [|eauto].
  destruct (Hready obact Hobact) as [[bmain Hbmain] Hvalid]. rewrite Hbmain.
  apply (init_objects_total Hhost obact _ 0%nat _ (length (object bmain))).
  - unfold object_count. now rewrite Hmain, Hbmain.
  - lia.
  - intros _ ob p Hob Hp. rewrite Hheap. apply (Hvalid ob p); [|exact Hp].
    unfold objects in *. now rewrite Hmain in Hob.
Qed.

(** C9: [ED_editors_init] returns with the flags of the report list as they
    were on entry.  The first [SWAP] leaves the flags without [RPT_STORE]
    in the report list, for the toggling of the modes and the paint update
    to run with, and the flags of the entry in the local; the second
    [SWAP] stores the local back, whatever the host did to the flags in
    between. *)
Theorem ED_editors_init_reports_flag (C : World)
    (Hhost : toggle_keeps_objects) (Hready : init_ready C) :
  exists (s0 s1 : St) (C' : World) (calls : list Event),
    init_enter C = (s0, flag (CTX_wm_reports C))
    /\ flag (CTX_wm_reports (fst s0))
       = Z.land (flag (CTX_wm_reports C)) (Z.lnot RPT_STORE)
    /\ Z.land (flag (CTX_wm_reports (fst s0))) RPT_STORE = 0
    /\ init_modes s0 = Some s1
    /\ ED_editors_init C = Some (C', calls)
    /\ (C', calls) = init_leave (flag (CTX_wm_reports C)) (init_paint s1)
    /\ flag (CTX_wm_reports C') = flag (CTX_wm_reports C).
Proof.
  destruct (init_enter_state C) as (Hprev & Hflag & _).
  destruct (init_modes_total Hhost C Hready) as [s1 Hmodes].
  unfold ED_editors_init.
  destruct (init_enter C) as [s0 prev] eqn:Henter. simpl in *. subst prev.
  rewrite Hmodes.
  exists s0, s1, (fst (init_leave (flag (CTX_wm_reports C)) (init_paint s1))),
    (snd (init_leave (flag (CTX_wm_reports C)) (init_paint s1))).
  split; [reflexivity|]. split; [exact Hflag|]. split.
  { rewrite Hflag, <- Z.land_assoc, (Z.land_comm (Z.lnot RPT_STORE)).
    now rewrite Z.land_lnot_diag, Z.land_0_r. }
  split; [exact Hmodes|]. split; [now rewrite <- surjective_pairing|].
  split; [now rewrite <- surjective_pairing|]. apply init_leave_flag.
Qed.

(** The run of the loop, visit by visit: the states in which the loop
    stands before the objects at the indices [i], [i + 1], ... and, last,
    the state it leaves.  Each is the result of the body of the loop on
    the one before, for the object found at the index in that state. *)
Lemma init_objects_visits (Hhost : toggle_keeps_objects) (obact : nat) (fuel : nat) :
  forall (i : nat) (s s' : St) (n : nat),
    init_objects fuel obact i s = Some s' ->
    object_count (fst s) = Some n ->
    (i <= n)%nat ->
    exists visits : list St,
      visits !! 0%nat = Some s
      /\ visits !! (n - i)%nat = Some s'
      /\ forall (k : nat) (sk : St),
           (k < n - i)%nat -> visits !! k = Some sk ->
           exists (ob : Object) (sk' : St),
             objects (fst sk) !! (i + k)%nat = Some ob
             /\ visits !! S k = Some sk'
             /\ init_object obact (i + k) ob sk = Some sk'.
Proof.
  induction fuel as [|fuel IH]; intros i s s' n; cbn [init_objects]; [discriminate|].
  intros Hrun Hcount Hle.
  unfold object_count in Hcount.
  destruct (CTX_data_main (fst s)) as [bmain|] eqn:Hmain; [|discriminate].
  injection Hcount as Hcount.
  destruct (object bmain !! i) as [ob|] eqn:Hob.
  - assert (Hi : (i < n)%nat).
    { rewrite <- Hcount. eapply lookup_lt_Some; eauto. }
    destruct (init_object obact i ob s) as [s1|] eqn:Hstep; [|discriminate].
    destruct (IH (S i) s1 s' n Hrun) as (visits & Hfirst & Hlast & Hvisits).
    { rewrite (init_object_count Hhost _ _ _ _ _ Hstep).
      unfold object_count. now rewrite Hmain, Hcount. }
    { lia. }
    exists (s :: visits). split; [reflexivity|]. split.
    { replace (n - i)%nat with (S (n - S i)) by lia. exact Hlast. }
    intros [|k] sk Hk Hsk.
    + injection Hsk as <-. exists ob, s1.
      rewrite Nat.add_0_r. split; [unfold objects; now rewrite Hmain|].
      split; [exact Hfirst|exact Hstep].
    + destruct (Hvisits k sk) as (ob' & sk' & Hob' & Hnext & Hstep');
        [lia|exact Hsk|].
      exists ob', sk'. replace (i + S k)%nat with (S i + k)%nat by lia. auto.
  - injection Hrun as <-.
    assert (Hi : (n <= i)%nat).
    { rewrite <- Hcount. now apply lookup_ge_None. }
    exists [s]. replace (n - i)%nat with 0%nat by lia.
    split; [reflexivity|]. split; [reflexivity|].
    intros k sk Hk. lia.
Qed.

(** C5: with an active object, [ED_editors_init] returns, and its run is
    this.  From the state the first [SWAP] leaves, the loop visits every
    object of the main database once, in the order of the list;
    [visits !! k] is the state in which it comes to the object at index
    [k], and the state after the last visit is what the paint update and
    the second [SWAP] start from.  At each visit the body of the loop is
    run, and
    - an object that is not a grease pencil, is saved in another mode than
      [OB_MODE_OBJECT] and has no mode data has its mode set to
      [OB_MODE_OBJECT]; the toggle is then called, with the saved mode,
      exactly when the object is the active one and neither it nor its
      data is linked;
    - any other object is left as it is, and nothing is called.
    Over the whole run the toggle is called at most once, and when it is,
    for the active object as it was on entry.  The last two parts say the
    same of the body of the loop at any state. *)
Theorem ED_editors_init_mode_toggle (C : World) (obact : nat)
    (Hhost : toggle_keeps_objects) (Hready : init_ready C)
    (Hact : CTX_data_active_object C = Some obact) :
  (exists (visits : list St) (s_end : St) (C' : World) (calls : list Event),
     visits !! 0%nat = Some (fst (init_enter C))
     /\ visits !! length (objects C) = Some s_end
     /\ ED_editors_init C = Some (C', calls)
     /\ (C', calls) = init_leave (flag (CTX_wm_reports C)) (init_paint s_end)
     /\ (forall (k : nat) (s : St),
           (k < length (objects C))%nat ->
           visits !! k = Some s ->
           exists (ob : Object) (s' : St),
             objects (fst s) !! k = Some ob
             /\ visits !! S k = Some s'
             /\ init_object obact k ob s = Some s'
             /\ ((s' = s
                  /\ (mode ob = OB_MODE_OBJECT
                      \/ BKE_object_has_mode_data (fst s) k (mode ob) = true
                      \/ type ob = OB_GPENCIL))
                 \/ (mode ob <> OB_MODE_OBJECT
                     /\ BKE_object_has_mode_data (fst s) k (mode ob) = false
                     /\ type ob <> OB_GPENCIL
                     /\ mode <$> objects (set_ob_mode k OB_MODE_OBJECT (fst s)) !! k
                        = Some OB_MODE_OBJECT
                     /\ ((toggle_allowed obact k ob (heap (fst s))
                          /\ s' = call (Call_ED_object_mode_toggle (mode ob))
                                       (ED_object_mode_toggle (mode ob))
                                       (set_ob_mode k OB_MODE_OBJECT (fst s), snd s))
                         \/ (~ toggle_allowed obact k ob (heap (fst s))
                             /\ s' = (set_ob_mode k OB_MODE_OBJECT (fst s), snd s))))))
     /\ (List.filter is_toggle calls = []
         \/ exists ob,
              objects C !! obact = Some ob
              /\ mode ob <> OB_MODE_OBJECT
              /\ type ob <> OB_GPENCIL
              /\ toggle_allowed obact obact ob (heap C)
              /\ List.filter is_toggle calls
                 = [Call_ED_object_mode_toggle (mode ob)]))
  /\ (forall (i : nat) (ob : Object) (s s' : St),
        objects (fst s) !! i = Some ob ->
        init_object obact i ob s = Some s' ->
        type ob <> OB_GPENCIL -> mode ob <> OB_MODE_OBJECT ->
        BKE_object_has_mode_data (fst s) i (mode ob) = false ->
        let C1 := set_ob_mode i OB_MODE_OBJECT (fst s) in
        mode <$> objects C1 !! i = Some OB_MODE_OBJECT
        /\ ((toggle_allowed obact i ob (heap (fst s))
             /\ s' = call (Call_ED_object_mode_toggle (mode ob))
                          (ED_object_mode_toggle (mode ob)) (C1, snd s))
            \/ (~ toggle_allowed obact i ob (heap (fst s))
                /\ s' = (C1, snd s))))
  /\ (forall (i : nat) (ob : Object) (s s' : St),
        init_object obact i ob s = Some s' ->
        snd s' <> snd s ->
        toggle_allowed obact i ob (heap (fst s))).
Proof.
  split; [|split].
  - destruct (init_enter_state C) as (Hprev & _ & Hmain & Hobact & Hheap & Hnone).
    destruct (init_modes_total Hhost C Hready) as [s1 Hmodes].
    destruct (Hready obact Hact) as [[bmain Hbmain] _].
    unfold ED_editors_init.
    destruct (init_enter C) as [s0 prev] eqn:Henter. simpl in *. subst prev.
    rewrite Hmodes.
    pose proof Hmodes as Hrun.
    unfold init_modes in Hrun. rewrite Hobact, Hact, Hmain, Hbmain in Hrun.
    destruct (init_objects_visits Hhost obact _ 0%nat s0 s1 (length (object bmain)) Hrun)
      as (visits & Hfirst & Hlast & Hvisits).
    { unfold object_count. now rewrite Hmain, Hbmain. }
    { lia. }
    assert (Hlen : length (objects C) = length (object bmain)).
    { unfold objects. now rewrite Hbmain. }
    rewrite Nat.sub_0_r in Hlast, Hvisits.
    exists visits, s1,
      (fst (init_leave (flag (CTX_wm_reports C)) (init_paint s1))),
      (snd (init_leave (flag (CTX_wm_reports C)) (init_paint s1))).
    split; [exact Hfirst|]. split; [now rewrite Hlen|].
    split; [now rewrite <- surjective_pairing|].
    split; [now rewrite <- surjective_pairing|]. split.
    + intros k s Hk Hs. rewrite Hlen in Hk.
      destruct (Hvisits k s Hk Hs) as (ob & s' & Hob & Hnext & Hstep).
      simpl in Hob, Hstep.
      exists ob, s'. split; [exact Hob|]. split; [exact Hnext|].
      split; [exact Hstep|].
      apply init_object_inv in Hstep
        as [Hskip|(Hmode & Hdata & Htype & Hcases)]; [now left|right].
      split; [exact Hmode|]. split; [exact Hdata|]. split; [exact Htype|].
      split; [|exact Hcases].
      rewrite set_ob_mode_lookup, Hob. reflexivity.
    + rewrite init_leave_paint_toggles.
      unfold init_modes in Hmodes. rewrite Hobact, Hact, Hmain, Hbmain in Hmodes.
      apply init_objects_toggle in Hmodes
        as [->|(ob & _ & Hob & Hmode & Htype & Hallowed & ->)].
      * left. exact Hnone.
      * right. exists ob. rewrite <- Hheap.
        unfold objects in *. rewrite Hmain, Hbmain in Hob. rewrite Hbmain.
        rewrite List.filter_app, Hnone. auto 10.
  - intros i ob s s' Hob Hstep Htype Hmode Hdata C1. split.
    + subst C1. rewrite set_ob_mode_lookup, Hob. reflexivity.
    + apply init_object_inv in Hstep as [[_ [?|[?|?]]]|(_ & _ & _ & Hcases)];
        [congruence..|exact Hcases].
  - intros i ob s s' Hstep Hcalls.
    apply init_object_inv in Hstep
      as [[-> _]|(_ & _ & _ & [[Hallowed _]|[_ ->]])];
      [contradiction|exact Hallowed|contradiction].
Qed.

End Editors_init.

(** The example host keeps the objects in place, and the example database
    is ready for [ED_editors_init]. *)
Lemma example_toggle_keeps_objects :
  @ed_util.toggle_keeps_objects ed_util.example_init_host.
Proof.
  intros m C. simpl.
  destruct (ed_util.CTX_data_active_object C) as [obact|]; [|reflexivity].
  unfold ed_util.object_count, ed_util.set_ob_mode.
  destruct (ed_util.CTX_data_main C) as [bmain|] eqn:Hmain; simpl.
  - now rewrite length_alter.
  - now rewrite Hmain.
Qed.

Lemma world_at_init_ready : ed_util.init_ready ed_util.world_at_init.
Proof.
  intros obact [= <-]. split; [eauto|].
  intros ob p [= <-] [= <-]. eauto.
Qed.

(** The theorem of C9 at the example database: the flags are 3 on entry
    and on return, and 1 in between. *)
Lemma ED_editors_init_reports_flag_witness :
  exists (s0 : ed_util.St) (C' : ed_util.World) (calls : list ed_util.Event),
    fst (@ed_util.init_enter ed_util.blender_dna ed_util.example_init_host
           ed_util.world_at_init) = s0
    /\ ed_util.flag (ed_util.CTX_wm_reports (fst s0)) = 1
    /\ @ed_util.ED_editors_init ed_util.blender_dna ed_util.example_init_host
         ed_util.world_at_init = Some (C', calls)
    /\ ed_util.flag (ed_util.CTX_wm_reports C') = 3.
Proof.
  destruct (@ED_editors_init_reports_flag ed_util.blender_dna
              ed_util.example_init_host ed_util.world_at_init
              example_toggle_keeps_objects world_at_init_ready)
    as (s0 & s1 & C' & calls & Henter & Hflag & _ & _ & Hinit & _ & Hret).
  exists s0, C', calls.
  split; [now rewrite Henter|]. split; [exact Hflag|].
  split; [exact Hinit|exact Hret].
Defined.

(** The theorem of C5 at the example database, whose active object, a
    mesh that is not linked, was saved in edit mode, and whose second
    object was saved in sculpt mode.  The visit of the active object calls
    the toggle for edit mode, after the creation of the undo stack; the
    visit of the second object resets its mode and calls nothing; the
    grease pencil object keeps its mode.  On return the toggle has been
    called once, and the saved sculpt mode is gone. *)
Lemma ED_editors_init_mode_toggle_witness :
  exists (visits : list ed_util.St) (s1 s2 : ed_util.St)
         (C' : ed_util.World) (calls : list ed_util.Event),
    visits !! 0%nat
    = Some (fst (@ed_util.init_enter ed_util.blender_dna ed_util.example_init_host
                   ed_util.world_at_init))
    /\ visits !! 1%nat = Some s1
    /\ snd s1 = [ed_util.Call_BKE_undosys_stack_create;
                 ed_util.Call_ED_object_mode_toggle 1]
    /\ map ed_util.mode (ed_util.objects (fst s1)) = [1; 2; 32; 0]
    /\ visits !! 2%nat = Some s2
    /\ snd s2 = snd s1
    /\ map ed_util.mode (ed_util.objects (fst s2)) = [1; 0; 32; 0]
    /\ @ed_util.ED_editors_init ed_util.blender_dna ed_util.example_init_host
         ed_util.world_at_init = Some (C', calls)
    /\ List.filter ed_util.is_toggle calls = [ed_util.Call_ED_object_mode_toggle 1]
    /\ map ed_util.mode (ed_util.objects C') = [1; 0; 32; 0].
Proof.
  destruct (@ED_editors_init_mode_toggle ed_util.blender_dna
              ed_util.example_init_host ed_util.world_at_init 0%nat
              example_toggle_keeps_objects world_at_init_ready eq_refl)
    as ((visits & s_end & C' & calls & Hfirst & _ & Hinit & _ & Hvisits & _) & _).
  destruct (Hvisits 0%nat _ ltac:(vm_compute; lia) Hfirst)
    as (ob0 & s1 & Hob0 & Hnext0 & Hstep0 & _).
  vm_compute in Hob0. injection Hob0 as <-.
  destruct (Hvisits 1%nat _ ltac:(vm_compute; lia) Hnext0)
    as (ob1 & s2 & Hob1 & Hnext1 & Hstep1 & _).
  exists visits, s1, s2, C', calls.
  split; [exact Hfirst|]. split; [exact Hnext0|].
  vm_compute in Hstep0. injection Hstep0 as <-.
  vm_compute in Hob1. injection Hob1 as <-.
  vm_compute in Hstep1. injection Hstep1 as <-.
  vm_compute in Hinit. injection Hinit as <- <-.
  split; [vm_compute; reflexivity|]. split; [vm_compute; reflexivity|].
  split; [exact Hnext1|].
  repeat split; vm_compute; reflexivity.
Defined.

(** [ED_editors_init] at the example database: the active mesh is back in
    edit mode through the toggle, the other mesh has lost its sculpt mode,
    the grease pencil object keeps its mode. *)
Example ED_editors_init_example :
  let run := @ed_util.ED_editors_init ed_util.blender_dna ed_util.example_init_host
               ed_util.world_at_init in
  snd <$> run
  = Some [ed_util.Call_BKE_undosys_stack_create;
          ed_util.Call_ED_object_mode_toggle 1;
          ed_util.Call_ED_space_image_paint_update 7%positive]
  /\ (fun s => map ed_util.mode (ed_util.objects (fst s))) <$> run
     = Some [1; 0; 32; 0]
  /\ (fun s => ed_util.undo_stack (ed_util.CTX_wm_manager (fst s))) <$> run
     = Some (Some 21%positive).
Proof. repeat split; vm_compute; reflexivity. Qed.

(** * Further properties *)

(** ** ED_editors_flush_edits: the calls *)
Section Flush_edits_calls.

Import ed_util.
Context `{DNA}.

(** The calls of the body for one object. *)
Lemma flush_calls_cases (for_render : bool) (i : nat) (ob : Object) :
  flush_calls for_render i ob
  = if negb (Z.land (mode ob) OB_MODE_SCULPT =? 0)
    then if stroke_active ob then []
         else [Call_multires_force_update i;
               if for_render
               then Call_BKE_sculptsession_bm_to_me_for_render i
               else Call_BKE_sculptsession_bm_to_me i false]
    else if negb (Z.land (mode ob) OB_MODE_EDIT =? 0)
         then [Call_ED_object_editmode_load i]
         else [].
Proof.
  unfold flush_calls, flush_object.
  destruct (Z.land (mode ob) OB_MODE_SCULPT =? 0),
           (Z.land (mode ob) OB_MODE_EDIT =? 0),
           (stroke_active ob), for_render; reflexivity.
Qed.

(** The loop forgets no call, and makes the calls of every object. *)
Lemma flush_objects_calls_kept (for_render : bool) (obs : list Object) :
  forall (i : nat) (has_edited : bool) (calls : list Event) (e : Event),
    e ∈ calls -> e ∈ snd (flush_objects for_render i obs (has_edited, calls)).
Proof.
  induction obs as [|ob obs IH]; intros i has_edited calls e He;
    cbn [flush_objects snd]; [exact He|].
  rewrite flush_object_step. apply IH. apply elem_of_app. now left.
Qed.

Lemma flush_objects_calls_complete (for_render : bool) (obs : list Object) :
  forall (i j : nat) (ob : Object) (has_edited : bool) (calls : list Event)
         (e : Event),
    obs !! j = Some ob ->
    e ∈ flush_calls for_render (i + j) ob ->
    e ∈ snd (flush_objects for_render i obs (has_edited, calls)).
Proof.
  induction obs as [|ob0 obs IH]; intros i j ob has_edited calls e Hj He;
    [discriminate|].
  cbn [flush_objects]. rewrite flush_object_step.
  destruct j as [|j]; simpl in Hj.
  - injection Hj as ->. rewrite Nat.add_0_r in He.
    apply flush_objects_calls_kept. apply elem_of_app. now right.
  - apply (IH (S i) j ob); [exact Hj|]. now rewrite Nat.add_succ_l, <- Nat.add_succ_r.
Qed.

(** X2: the value [ED_editors_flush_edits] returns does not depend on
    [for_render]. *)
Theorem ED_editors_flush_edits_for_render_irrelevant (C : World) :
  fst <$> ED_editors_flush_edits C true = fst <$> ED_editors_flush_edits C false.
Proof.
  unfold ED_editors_flush_edits.
  destruct (CTX_data_main C) as [bmain|]; [|reflexivity]. simpl.
  now rewrite !flush_objects_has_edited.
Qed.

(** X3: every object that is to be flushed is: an object in edit mode and
    not in sculpt mode is loaded from edit mode; for an object in sculpt
    mode with no stroke going on the multires update is forced and its
    BMesh is converted, for the render or without reordering. *)
Theorem ED_editors_flush_edits_complete (C : World) (bmain : Main)
    (for_render : bool) (i : nat) (ob : Object)
    (has_edited : bool) (calls : list Event)
    (Hmain : CTX_data_main C = Some bmain)
    (Hob : object bmain !! i = Some ob)
    (Hrun : ED_editors_flush_edits C for_render = Some (has_edited, calls)) :
  (in_edit_mode ob -> ~ in_sculpt_mode ob ->
   Call_ED_object_editmode_load i ∈ calls)
  /\ (in_sculpt_mode ob -> stroke_active ob = false ->
      Call_multires_force_update i ∈ calls
      /\ (if for_render
          then Call_BKE_sculptsession_bm_to_me_for_render i
          else Call_BKE_sculptsession_bm_to_me i false) ∈ calls).
Proof.
  unfold ED_editors_flush_edits in Hrun. rewrite Hmain in Hrun.
  injection Hrun as Hrun.
  assert (Hcalls : forall e, e ∈ flush_calls for_render i ob -> e ∈ calls).
  { intros e He.
    pose proof (flush_objects_calls_complete for_render (object bmain)
                  0 i ob false [] e Hob He) as Hin.
    now rewrite Hrun in Hin. }
  unfold in_edit_mode, in_sculpt_mode.
  rewrite flush_calls_cases in Hcalls.
  destruct (Z.eqb_spec (Z.land (mode ob) OB_MODE_SCULPT) 0) as [Hs|Hs];
    destruct (Z.eqb_spec (Z.land (mode ob) OB_MODE_EDIT) 0) as [He|He];
    simpl in Hcalls; split; try tauto.
  - intros _ _. apply Hcalls. apply list_elem_of_singleton. reflexivity.
  - intros _ Hstroke. rewrite Hstroke in Hcalls.
    split; apply Hcalls; rewrite !elem_of_cons; auto.
  - intros _ Hstroke. rewrite Hstroke in Hcalls.
    split; apply Hcalls; rewrite !elem_of_cons; auto.
Qed.

(** Where a call of the loop comes from: the calls made before, or the
    body, for an object of the list. *)
Lemma flush_objects_call_origin (for_render : bool) (e : Event) (obs : list Object) :
  forall (i : nat) (has_edited : bool) (calls : list Event),
    e ∈ snd (flush_objects for_render i obs (has_edited, calls)) ->
    e ∈ calls
    \/ exists j ob, obs !! j = Some ob /\ e ∈ flush_calls for_render (i + j) ob.
Proof.
  induction obs as [|ob obs IH]; intros i b c; cbn [flush_objects snd]; [auto|].
  rewrite flush_object_step. intros Hin.
  apply IH in Hin as [Hin|(j & ob' & Hj & Hin)].
  - apply elem_of_app in Hin as [Hin|Hin]; [now left|].
    right. exists 0%nat, ob. now rewrite Nat.add_0_r.
  - right. exists (S j), ob'. now rewrite Nat.add_succ_r.
Qed.

(** The conversion the body calls is the one [for_render] asks for. *)
Lemma flush_calls_conversion (for_render : bool) (i : nat) (ob : Object) (e : Event) :
  e ∈ flush_calls for_render i ob ->
  match e with
  | Call_BKE_sculptsession_bm_to_me_for_render _ => for_render = true
  | Call_BKE_sculptsession_bm_to_me _ reorder =>
      for_render = false /\ reorder = false
  | _ => True
  end.
Proof.
  rewrite flush_calls_cases.
  destruct (negb (Z.land (mode ob) OB_MODE_SCULPT =? 0)),
           (negb (Z.land (mode ob) OB_MODE_EDIT =? 0)),
           (stroke_active ob), for_render;
    rewrite ?elem_of_cons, ?elem_of_nil; intuition (subst; auto).
Qed.

(** X4: every call of the flush is one of its four calls for an object of
    the database; the conversion for the render is called only with
    [for_render], the plain conversion only without it and never with a
    reordering. *)
Theorem ED_editors_flush_edits_conversion (C : World) (bmain : Main)
    (for_render : bool) (has_edited : bool) (calls : list Event) (e : Event)
    (Hmain : CTX_data_main C = Some bmain)
    (Hrun : ED_editors_flush_edits C for_render = Some (has_edited, calls))
    (He : e ∈ calls) :
  (exists i ob, object bmain !! i = Some ob /\ flushed_object e = Some i)
  /\ match e with
     | Call_BKE_sculptsession_bm_to_me_for_render _ => for_render = true
     | Call_BKE_sculptsession_bm_to_me _ reorder =>
         for_render = false /\ reorder = false
     | _ => True
     end.
Proof.
  unfold ED_editors_flush_edits in Hrun. rewrite Hmain in Hrun.
  injection Hrun as Hrun.
  pose proof (flush_objects_call_origin for_render e (object bmain) 0%nat false [])
    as Hin.
  rewrite Hrun in Hin. destruct (Hin He) as [Hnil|(j & ob & Hj & Hcall)].
  { now apply elem_of_nil in Hnil. }
  simpl in Hcall. split.
  - exists j, ob. split; [exact Hj|].
    now apply flush_calls_object in Hcall as [_ ?].
  - eapply flush_calls_conversion; eauto.
Qed.

(** X5: the operator [ED_OT_flush_edits] registers keeps the [poll] it had
    and, executed, returns [OPERATOR_FINISHED] whatever the flush found,
    with the calls of a flush that is not for a render: the conversion for
    the render is not among them.  It faults only on a null main
    database. *)
Theorem ED_OT_flush_edits_exec (OPTYPE_INTERNAL : Z) (ot : wmOperatorType)
    (C : World) :
  exists exec,
    ot_exec (ED_OT_flush_edits OPTYPE_INTERNAL ot) = Some exec
    /\ ot_poll (ED_OT_flush_edits OPTYPE_INTERNAL ot) = ot_poll ot
    /\ match exec C with
       | Some (ret, calls) =>
           ret = OPERATOR_FINISHED
           /\ snd <$> ED_editors_flush_edits C false = Some calls
           /\ forall i, Call_BKE_sculptsession_bm_to_me_for_render i ∉ calls
       | None => CTX_data_main C = None
       end.
Proof.
  exists ed_flush_edits_exec. split; [reflexivity|]. split; [reflexivity|].
  unfold ed_flush_edits_exec.
  destruct (ED_editors_flush_edits C false) as [[has_edited calls]|] eqn:Hrun.
  - split; [reflexivity|]. split; [reflexivity|]. intros i Hin.
    unfold ED_editors_flush_edits in Hrun.
    destruct (CTX_data_main C) as [bmain|] eqn:Hmain; [|discriminate].
    injection Hrun as Hrun.
    pose proof (flush_objects_call_origin false
                  (Call_BKE_sculptsession_bm_to_me_for_render i)
                  (object bmain) 0%nat false []) as Horigin.
    rewrite Hrun in Horigin.
    destruct (Horigin Hin) as [Hnil|(j & ob & _ & Hcall)].
    { now apply elem_of_nil in Hnil. }
    apply flush_calls_conversion in Hcall. discriminate.
  - unfold ED_editors_flush_edits in Hrun.
    destruct (CTX_data_main C); [discriminate|reflexivity].
Qed.

End Flush_edits_calls.

(** ** ED_editors_exit: what is left alone, what is freed *)
Section Editors_exit_frame.

Import ed_util.
Context `{ExitHost}.

(** A step changes datablocks only. *)
Lemma exit_object_fields (ob : Object) (s s' : St) :
  exit_object ob s = Some s' -> fst s' = set_heap (heap (fst s')) (fst s).
Proof.
  intros Hstep.
  apply exit_object_inv in Hstep
    as [->|[(p & me & em & _ & _ & _ & _ & ->)|(p & arm & _ & _ & _ & _ & ->)]];
    try reflexivity.
  destruct s as [[] calls]. reflexivity.
Qed.

Lemma exit_objects_fields (obs : list Object) :
  forall s s' : St,
    exit_objects obs s = Some s' -> fst s' = set_heap (heap (fst s')) (fst s).
Proof.
  induction obs as [|ob obs IH]; intros s s'; cbn [exit_objects].
  - intros [= <-]. destruct s as [[] calls]. reflexivity.
  - destruct (exit_object ob s) as [s1|] eqn:Hstep; [|discriminate].
    intros Hrun. rewrite (IH _ _ Hrun), (exit_object_fields _ _ _ Hstep).
    reflexivity.
Qed.

(** A step touches the datablock of its own object at most, and that only
    for a mesh or an armature object. *)
Lemma exit_object_untouched (ob : Object) (s s' : St) (p : pointer) :
  exit_object ob s = Some s' ->
  heap (fst s') !! p = heap (fst s) !! p
  \/ (data ob = Some p /\ (type ob = OB_MESH \/ type ob = OB_ARMATURE)).
Proof.
  intros Hstep.
  apply exit_object_inv in Hstep
    as [->|[(q & me & em & Ht & Hd & _ & _ & ->)|(q & arm & Ht & Hd & _ & _ & ->)]];
    simpl; [now left| |];
    (destruct (decide (q = p)) as [->|Hne];
     [right; auto|left; now rewrite lookup_insert_ne]).
Qed.

Lemma exit_objects_untouched (obs : list Object) :
  forall (s s' : St) (p : pointer),
    exit_objects obs s = Some s' ->
    heap (fst s') !! p = heap (fst s) !! p
    \/ exists ob, ob ∈ obs /\ data ob = Some p
                  /\ (type ob = OB_MESH \/ type ob = OB_ARMATURE).
Proof.
  induction obs as [|ob obs IH]; intros s s' p; cbn [exit_objects].
  - intros [= <-]. now left.
  - destruct (exit_object ob s) as [s1|] eqn:Hstep; [|discriminate].
    intros Hrun.
    destruct (exit_object_untouched _ _ _ p Hstep) as [Hsame|[Hd Ht]].
    + destruct (IH _ _ p Hrun) as [Hsame'|(ob' & Hin & Hd & Ht)].
      * left. congruence.
      * right. exists ob'. rewrite elem_of_cons. auto.
    + right. exists ob. rewrite elem_of_cons. auto.
Qed.

(** A mesh stays a mesh with its identity; its edit mesh is kept or
    cleared. *)
Lemma exit_object_mesh_kept (ob : Object) (s s' : St) (p : pointer) (me : Mesh) :
  exit_object ob s = Some s' ->
  heap (fst s) !! p = Some (DB_Mesh me) ->
  exists me',
    heap (fst s') !! p = Some (DB_Mesh me') /\ me_id me' = me_id me
    /\ (edit_btmesh me' = edit_btmesh me \/ edit_btmesh me' = None).
Proof.
  intros Hstep Hp.
  apply exit_object_inv in Hstep
    as [->|[(q & me0 & em & _ & _ & Hq & _ & ->)|(q & arm & _ & _ & Hq & _ & ->)]];
    simpl.
  - eauto.
  - destruct (decide (q = p)) as [->|Hne].
    + rewrite lookup_insert_eq. rewrite Hp in Hq. injection Hq as <-.
      eexists. split; [reflexivity|]. auto.
    + rewrite lookup_insert_ne by exact Hne. eauto.
  - destruct (decide (q = p)) as [->|Hne]; [congruence|].
    rewrite lookup_insert_ne by exact Hne. eauto.
Qed.

Lemma exit_objects_mesh_kept (obs : list Object) :
  forall (s s' : St) (p : pointer) (me : Mesh),
    exit_objects obs s = Some s' ->
    heap (fst s) !! p = Some (DB_Mesh me) ->
    exists me',
      heap (fst s') !! p = Some (DB_Mesh me') /\ me_id me' = me_id me
      /\ (edit_btmesh me' = edit_btmesh me \/ edit_btmesh me' = None).
Proof.
  induction obs as [|ob obs IH]; intros s s' p me; cbn [exit_objects].
  - intros [= <-]. eauto.
  - destruct (exit_object ob s) as [s1|] eqn:Hstep; [|discriminate].
    intros Hrun Hp.
    destruct (exit_object_mesh_kept _ _ _ _ _ Hstep Hp) as (me1 & Hp1 & Hid1 & Hem1).
    destruct (IH _ _ _ _ Hrun Hp1) as (me2 & Hp2 & Hid2 & Hem2).
    exists me2. split; [exact Hp2|]. split; [congruence|].
    destruct Hem1 as [<-|Hnone1], Hem2 as [Hem2|Hem2]; auto.
    right. congruence.
Qed.

Lemma exit_undo_heap (s : St) : heap (fst (exit_undo s)) = heap (fst s).
Proof.
  unfold exit_undo. destruct (G_MAIN_wm (fst s)) as [|wm wms]; [reflexivity|].
  destruct (undo_stack wm); reflexivity.
Qed.

Lemma exit_undo_fields (s : St) :
  fst (exit_undo s) = set_G_MAIN_wm (G_MAIN_wm (fst (exit_undo s))) (fst s).
Proof.
  unfold exit_undo. destruct s as [[] calls]. simpl.
  destruct G_MAIN_wm0 as [|wm wms]; [reflexivity|].
  destruct (undo_stack wm); reflexivity.
Qed.

(** The run of [ED_editors_exit] with a main database, taken apart. *)
Lemma ED_editors_exit_run (C C' : World) (bmain : Main) (calls : list Event) :
  CTX_data_main C = Some bmain ->
  ED_editors_exit C = Some (C', calls) ->
  exists s,
    exit_objects (object bmain) (exit_undo (C, [])) = Some s
    /\ C' = fst s
    /\ calls = (snd s ++ [Call_ED_mesh_mirror_spatial_table "e"])
               ++ [Call_ED_mesh_mirror_topo_table "e"].
Proof.
  unfold ED_editors_exit. intros ->.
  destruct (exit_objects (object bmain) (exit_undo (C, []))) as [s|];
    [|discriminate].
  intros [= <- <-]. eauto.
Qed.

(** X6: [ED_editors_exit] changes nothing but datablocks and the window
    managers of [G_MAIN].  A datablock that is not the data of a mesh or
    armature object of the main database is as it was; a mesh is still a
    mesh with the identity it had, and its edit mesh is the one it had or
    null. *)
Theorem ED_editors_exit_frame (C C' : World) (calls : list Event) :
  ED_editors_exit C = Some (C', calls) ->
  C' = set_heap (heap C') (set_G_MAIN_wm (G_MAIN_wm C') C)
  /\ (forall p,
        heap C' !! p = heap C !! p
        \/ exists ob, ob ∈ objects C /\ data ob = Some p
                      /\ (type ob = OB_MESH \/ type ob = OB_ARMATURE))
  /\ (forall p me,
        heap C !! p = Some (DB_Mesh me) ->
        exists me',
          heap C' !! p = Some (DB_Mesh me') /\ me_id me' = me_id me
          /\ (edit_btmesh me' = edit_btmesh me \/ edit_btmesh me' = None)).
Proof.
  intros Hexit.
  destruct (CTX_data_main C) as [bmain|] eqn:Hmain.
  - destruct (ED_editors_exit_run _ _ _ _ Hmain Hexit) as (s & Hrun & -> & _).
    pose proof (exit_undo_heap (C, [])) as Hheap. simpl in Hheap.
    split; [|split].
    + rewrite (exit_objects_fields _ _ _ Hrun) at 1.
      rewrite (exit_undo_fields (C, [])). simpl.
      rewrite <- (exit_objects_wm _ _ _ Hrun). reflexivity.
    + intros p. unfold objects. rewrite Hmain, <- Hheap.
      eapply exit_objects_untouched; eauto.
    + intros p me Hp. rewrite <- Hheap in Hp.
      eapply exit_objects_mesh_kept; eauto.
  - unfold ED_editors_exit in Hexit. rewrite Hmain in Hexit.
    injection Hexit as <- <-. split; [|split].
    + destruct C. reflexivity.
    + intros p. now left.
    + intros p me Hp. eauto.
Qed.

End Editors_exit_frame.

(** ** ED_editors_exit: the frees *)
Section Editors_exit_frees.

Import ed_util.
Context `{ExitHost}.

(** What a step frees: nothing, or the edit mesh of the mesh of its
    object, given to [EDBM_mesh_free] and to [MEM_freeN]. *)
Lemma exit_object_freed (ob : Object) (s s' : St) :
  exit_object ob s = Some s' ->
  exists l,
    freed (snd s') = freed (snd s) ++ l
    /\ edit_meshes_freed (snd s') = edit_meshes_freed (snd s) ++ l
    /\ (l = []
        \/ exists p me em,
             l = [em] /\ type ob = OB_MESH /\ data ob = Some p
             /\ heap (fst s) !! p = Some (DB_Mesh me)
             /\ edit_btmesh me = Some em
             /\ heap (fst s') = <[p := DB_Mesh {| me_id := me_id me;
                                                  edit_btmesh := None |}]>
                                  (heap (fst s))).
Proof.
  intros Hstep.
  apply exit_object_inv in Hstep
    as [->|[(p & me & em & Ht & Hd & Hp & Hem & ->)|(p & arm & _ & _ & _ & _ & ->)]].
  - exists []. rewrite !app_nil_r. auto.
  - exists [em]. unfold freed, edit_meshes_freed. simpl.
    rewrite !omap_app. simpl. rewrite !app_nil_r.
    split; [reflexivity|]. split; [reflexivity|].
    right. exists p, me, em. auto 10.
  - exists []. unfold freed, edit_meshes_freed. simpl.
    rewrite !omap_app. simpl. rewrite !app_nil_r. auto.
Qed.

(** An edit mesh a mesh holds after a step, it held before. *)
Lemma exit_object_edit_mesh_origin (ob : Object) (s s' : St)
    (p : pointer) (me' : Mesh) (em : pointer) :
  exit_object ob s = Some s' ->
  heap (fst s') !! p = Some (DB_Mesh me') -> edit_btmesh me' = Some em ->
  exists me, heap (fst s) !! p = Some (DB_Mesh me) /\ edit_btmesh me = Some em.
Proof.
  intros Hstep.
  apply exit_object_inv in Hstep
    as [->|[(q & me0 & em0 & _ & _ & Hq & _ & ->)|(q & arm & _ & _ & Hq & _ & ->)]];
    simpl; [eauto| |];
    (destruct (decide (q = p)) as [->|Hne];
     [rewrite lookup_insert_eq|rewrite lookup_insert_ne by exact Hne]);
    intros Hp Hem; try (injection Hp as <-; discriminate); try discriminate; eauto.
Qed.

(** The loop: the frees come in pairs, and each is of the edit mesh that
    the mesh of a mesh object held when the loop began. *)
Lemma exit_objects_freed (h0 : gmap pointer Datablock) (obs : list Object) :
  forall s s' : St,
    exit_objects obs s = Some s' ->
    (forall p me em,
       heap (fst s) !! p = Some (DB_Mesh me) -> edit_btmesh me = Some em ->
       exists me0, h0 !! p = Some (DB_Mesh me0) /\ edit_btmesh me0 = Some em) ->
    exists l,
      freed (snd s') = freed (snd s) ++ l
      /\ edit_meshes_freed (snd s') = edit_meshes_freed (snd s) ++ l
      /\ forall em, em ∈ l ->
           exists ob p me0,
             ob ∈ obs /\ type ob = OB_MESH /\ data ob = Some p
             /\ h0 !! p = Some (DB_Mesh me0) /\ edit_btmesh me0 = Some em.
Proof.
  induction obs as [|ob obs IH]; intros s s'; cbn [exit_objects].
  - intros [= <-] _. exists []. rewrite !app_nil_r.
    split; [reflexivity|]. split; [reflexivity|].
    intros em Hin. now apply elem_of_nil in Hin.
  - destruct (exit_object ob s) as [s1|] eqn:Hstep; [|discriminate].
    intros Hrun Horigin.
    destruct (exit_object_freed _ _ _ Hstep) as (l1 & Hf1 & He1 & Hl1).
    destruct (IH _ _ Hrun) as (l2 & Hf2 & He2 & Hl2).
    { intros p me em Hp Hem.
      destruct (exit_object_edit_mesh_origin _ _ _ _ _ _ Hstep Hp Hem)
        as (me1 & Hp1 & Hem1).
      eauto. }
    exists (l1 ++ l2).
    split; [now rewrite Hf2, Hf1, app_assoc|].
    split; [now rewrite He2, He1, app_assoc|].
    intros em Hin. apply elem_of_app in Hin as [Hin|Hin].
    + destruct Hl1 as [->|(p & me & em1 & -> & Ht & Hd & Hp & Hem & _)].
      { now apply elem_of_nil in Hin. }
      apply list_elem_of_singleton in Hin as ->.
      destruct (Horigin _ _ _ Hp Hem) as (me0 & Hp0 & Hem0).
      exists ob, p, me0. rewrite elem_of_cons. auto 10.
    + destruct (Hl2 em Hin) as (ob' & p & me0 & Hin' & Hrest).
      exists ob', p, me0. rewrite elem_of_cons. auto.
Qed.

(** X7: [ED_editors_exit] frees edit meshes only: what it gives to
    [MEM_freeN] is what it gave to [EDBM_mesh_free], in the same order, and
    each of these pointers was, on entry, the edit mesh of the mesh of a
    mesh object of the main database. *)
Theorem ED_editors_exit_frees_edit_meshes (C C' : World) (calls : list Event) :
  ED_editors_exit C = Some (C', calls) ->
  freed calls = edit_meshes_freed calls
  /\ forall em, em ∈ freed calls ->
       exists ob p me,
         ob ∈ objects C /\ type ob = OB_MESH /\ data ob = Some p
         /\ heap C !! p = Some (DB_Mesh me) /\ edit_btmesh me = Some em.
Proof.
  intros Hexit.
  destruct (CTX_data_main C) as [bmain|] eqn:Hmain.
  - destruct (ED_editors_exit_run _ _ _ _ Hmain Hexit) as (s & Hrun & _ & ->).
    destruct (exit_objects_freed (heap C) _ _ _ Hrun) as (l & Hf & He & Hl).
    { rewrite exit_undo_heap. simpl. eauto. }
    assert (Hundo : freed (snd (exit_undo (C, []))) = []
                    /\ edit_meshes_freed (snd (exit_undo (C, []))) = []).
    { unfold exit_undo. simpl. destruct (G_MAIN_wm C) as [|wm wms]; [auto|].
      destruct (undo_stack wm); auto. }
    destruct Hundo as [Hundo1 Hundo2]. rewrite Hundo1 in Hf. rewrite Hundo2 in He.
    unfold freed, edit_meshes_freed in *. rewrite !omap_app. simpl.
    rewrite !app_nil_r, Hf, He. split; [reflexivity|].
    unfold objects. rewrite Hmain. exact Hl.
  - unfold ED_editors_exit in Hexit. rewrite Hmain in Hexit.
    injection Hexit as <- <-. split; [reflexivity|].
    intros em Hin. now apply elem_of_nil in Hin.
Qed.

(** The loop frees no pointer twice, when no two meshes share an edit
    mesh. *)
Lemma exit_objects_no_double_free (obs : list Object) :
  forall s s' : St,
    exit_objects obs s = Some s' ->
    edit_meshes_unshared (heap (fst s)) ->
    NoDup (freed (snd s)) ->
    (forall em p me,
       em ∈ freed (snd s) -> heap (fst s) !! p = Some (DB_Mesh me) ->
       edit_btmesh me <> Some em) ->
    NoDup (freed (snd s')).
Proof.
  induction obs as [|ob obs IH]; intros s s'; cbn [exit_objects].
  - now intros [= <-].
  - destruct (exit_object ob s) as [s1|] eqn:Hstep; [|discriminate].
    intros Hrun Hunshared Hnodup Hgone.
    assert (Hkeep : forall p me' em,
               heap (fst s1) !! p = Some (DB_Mesh me') ->
               edit_btmesh me' = Some em ->
               exists me, heap (fst s) !! p = Some (DB_Mesh me)
                          /\ edit_btmesh me = Some em).
    { intros. eapply exit_object_edit_mesh_origin; eauto. }
    destruct (exit_object_freed _ _ _ Hstep) as (l & Hf & _ & Hl).
    apply (IH _ _ Hrun).
    + intros p q me me' em Hp Hq Hem Hem'.
      destruct (Hkeep _ _ _ Hp Hem) as (m1 & Hp1 & Hem1).
      destruct (Hkeep _ _ _ Hq Hem') as (m2 & Hq1 & Hem2).
      eapply Hunshared; eauto.
    + rewrite Hf. destruct Hl as [->|(p & me & em & -> & _ & _ & Hp & Hem & _)].
      { now rewrite app_nil_r. }
      apply NoDup_app. split; [exact Hnodup|]. split; [|apply NoDup_singleton].
      intros em' Hin Hin'. apply list_elem_of_singleton in Hin' as ->.
      exact (Hgone _ _ _ Hin Hp Hem).
    + intros em' q me' Hin Hq Hem'. rewrite Hf in Hin.
      destruct (Hkeep _ _ _ Hq Hem') as (m1 & Hq1 & Hem1).
      apply elem_of_app in Hin as [Hin|Hin].
      { exact (Hgone _ _ _ Hin Hq1 Hem1). }
      destruct Hl as [->|(p & me & em & -> & _ & _ & Hp & Hem & Hheap)].
      { now apply elem_of_nil in Hin. }
      apply list_elem_of_singleton in Hin as ->.
      assert (q = p) as -> by (eapply Hunshared; eauto).
      rewrite Hheap, lookup_insert_eq in Hq. injection Hq as <-. discriminate.
Qed.

(** X8: when no two meshes hold the same edit mesh, [ED_editors_exit]
    frees no pointer twice, however many objects share a mesh. *)
Theorem ED_editors_exit_no_double_free (C C' : World) (calls : list Event)
    (Hunshared : edit_meshes_unshared (heap C))
    (Hexit : ED_editors_exit C = Some (C', calls)) :
  NoDup (freed calls) /\ NoDup (edit_meshes_freed calls).
Proof.
  assert (Hfreed : NoDup (freed calls)).
  { destruct (CTX_data_main C) as [bmain|] eqn:Hmain.
    - destruct (ED_editors_exit_run _ _ _ _ Hmain Hexit) as (s & Hrun & _ & ->).
      assert (Hundo : freed (snd (exit_undo (C, []))) = []).
      { unfold exit_undo. simpl. destruct (G_MAIN_wm C) as [|wm wms]; [auto|].
        destruct (undo_stack wm); auto. }
      unfold freed. rewrite !omap_app. simpl. rewrite !app_nil_r.
      apply (exit_objects_no_double_free _ _ _ Hrun).
      + now rewrite exit_undo_heap.
      + rewrite Hundo. apply NoDup_nil_2.
      + rewrite Hundo. intros em p me Hin. now apply elem_of_nil in Hin.
    - unfold ED_editors_exit in Hexit. rewrite Hmain in Hexit.
      injection Hexit as <- <-. apply NoDup_nil_2. }
  split; [exact Hfreed|].
  destruct (CTX_data_main C) as [bmain|] eqn:Hmain.
  - destruct (ED_editors_exit_run _ _ _ _ Hmain Hexit) as (s & Hrun & _ & ->).
    destruct (exit_objects_freed (heap C) _ _ _ Hrun) as (l & Hf & He & _).
    { rewrite exit_undo_heap. simpl. eauto. }
    unfold freed, edit_meshes_freed in *. rewrite !omap_app in *. simpl in *.
    rewrite !app_nil_r in *.
    assert (Hundo : omap (fun e => match e with
                                   | Call_MEM_freeN p => Some p | _ => None end)
                      (snd (exit_undo (C, [])))
                    = omap (fun e => match e with
                                     | Call_EDBM_mesh_free em => Some em | _ => None end)
                        (snd (exit_undo (C, [])))).
    { unfold exit_undo. simpl. destruct (G_MAIN_wm C) as [|wm wms]; [auto|].
      destruct (undo_stack wm); auto. }
    rewrite He, <- Hundo, <- Hf. exact Hfreed.
  - unfold ED_editors_exit in Hexit. rewrite Hmain in Hexit.
    injection Hexit as <- <-. apply NoDup_nil_2.
Qed.

End Editors_exit_frees.

(** ** ED_editors_exit, twice *)
Section Editors_exit_twice.

Import ed_util.
Context `{ExitHost}.

(** An armature without edit bones stays one. *)
Lemma exit_object_no_edit_bones (ob : Object) (s s' : St) (p : pointer)
    (arm : bArmature) :
  exit_object ob s = Some s' ->
  heap (fst s) !! p = Some (DB_Armature arm) -> edbo arm = None ->
  heap (fst s') !! p = Some (DB_Armature arm).
Proof.
  intros Hstep Hp Hnone.
  apply exit_object_inv in Hstep
    as [->|[(q & me0 & em & _ & _ & Hq & _ & ->)|(q & arm0 & _ & _ & Hq & [eb Heb] & ->)]];
    simpl; [exact Hp| |];
    (destruct (decide (q = p)) as [->|Hne];
     [congruence|now rewrite lookup_insert_ne]).
Qed.

(** After the step for an armature object its armature has no edit bones,
    when the free clears them. *)
Lemma exit_object_armature_cleared (Hclears : edit_free_clears)
    (ob : Object) (s s' : St) :
  exit_object ob s = Some s' -> type ob = OB_ARMATURE ->
  exists p arm,
    data ob = Some p /\ heap (fst s') !! p = Some (DB_Armature arm)
    /\ edbo arm = None.
Proof.
  unfold exit_object. intros Hstep Htype. rewrite Htype in Hstep.
  destruct (data ob) as [p|]; [|discriminate].
  destruct (heap (fst s) !! p) as [[|arm|]|] eqn:Hp; try discriminate.
  destruct (edbo arm) as [eb|] eqn:Hedbo; injection Hstep as <-.
  - exists p. eexists. simpl. rewrite lookup_insert_eq. auto.
  - exists p, arm. auto.
Qed.

Lemma exit_objects_no_edit_bones (obs : list Object) :
  forall (s s' : St) (p : pointer) (arm : bArmature),
    exit_objects obs s = Some s' ->
    heap (fst s) !! p = Some (DB_Armature arm) -> edbo arm = None ->
    heap (fst s') !! p = Some (DB_Armature arm).
Proof.
  induction obs as [|ob obs IH]; intros s s' p arm; cbn [exit_objects].
  - now intros [= <-].
  - destruct (exit_object ob s) as [s1|] eqn:Hstep; [|discriminate].
    intros Hrun Hp Hnone. eapply IH; eauto.
    eapply exit_object_no_edit_bones; eauto.
Qed.

Lemma exit_objects_armatures_cleared (Hclears : edit_free_clears)
    (obs : list Object) :
  forall (s s' : St) (ob : Object),
    exit_objects obs s = Some s' -> ob ∈ obs -> type ob = OB_ARMATURE ->
    exists p arm,
      data ob = Some p /\ heap (fst s') !! p = Some (DB_Armature arm)
      /\ edbo arm = None.
Proof.
  induction obs as [|ob0 obs IH]; intros s s' ob; cbn [exit_objects].
  - intros _ Hin. now apply elem_of_nil in Hin.
  - destruct (exit_object ob0 s) as [s1|] eqn:Hstep; [|discriminate].
    intros Hrun Hin Htype. apply elem_of_cons in Hin as [->|Hin].
    + destruct (exit_object_armature_cleared Hclears _ _ _ Hstep Htype)
        as (p & arm & Hdata & Hp & Hnone).
      exists p, arm. split; [exact Hdata|]. split; [|exact Hnone].
      eapply exit_objects_no_edit_bones; eauto.
    + eapply IH; eauto.
Qed.

(** A loop whose every step finds nothing to do changes nothing. *)
Lemma exit_objects_idle (obs : list Object) (s : St) :
  (forall ob, ob ∈ obs -> exit_object ob s = Some s) ->
  exit_objects obs s = Some s.
Proof.
  induction obs as [|ob obs IH]; intros Hidle; cbn [exit_objects]; [reflexivity|].
  rewrite (Hidle ob) by (apply elem_of_cons; now left).
  apply IH. intros ob' Hin. apply Hidle. apply elem_of_cons. now right.
Qed.

(** After [exit_undo] the first window manager has no undo stack, and then
    [exit_undo] does nothing. *)
Lemma exit_undo_first (s : St) (wm : wmWindowManager) (wms : list wmWindowManager) :
  G_MAIN_wm (fst (exit_undo s)) = wm :: wms -> undo_stack wm = None.
Proof.
  unfold exit_undo. destruct (G_MAIN_wm (fst s)) as [|wm0 wms0] eqn:Hwm.
  - rewrite Hwm. discriminate.
  - destruct (undo_stack wm0) eqn:Hundo; simpl.
    + now intros [= <- _].
    + rewrite Hwm. now intros [= <- _].
Qed.

Lemma exit_undo_idle (s : St) :
  (forall wm wms, G_MAIN_wm (fst s) = wm :: wms -> undo_stack wm = None) ->
  exit_undo s = s.
Proof.
  unfold exit_undo. intros Hnone.
  destruct (G_MAIN_wm (fst s)) as [|wm wms]; [reflexivity|].
  now rewrite (Hnone wm wms eq_refl).
Qed.

(** X9: with a free of the edit bones that leaves the armature without
    them, a second [ED_editors_exit] finds nothing to free: it returns the
    state the first one left, and calls nothing but the end of the two
    mirror tables. *)
Theorem ED_editors_exit_twice (C C' : World) (calls : list Event)
    (Hclears : edit_free_clears)
    (Hexit : ED_editors_exit C = Some (C', calls)) :
  ED_editors_exit C'
  = Some (C', match CTX_data_main C with
              | Some _ => [Call_ED_mesh_mirror_spatial_table "e";
                           Call_ED_mesh_mirror_topo_table "e"]
              | None => []
              end).
Proof.
  destruct (CTX_data_main C) as [bmain|] eqn:Hmain.
  - destruct (ED_editors_exit_run _ _ _ _ Hmain Hexit) as (s & Hrun & -> & _).
    assert (Hmain' : CTX_data_main (fst s) = Some bmain).
    { rewrite (exit_objects_fields _ _ _ Hrun), (exit_undo_fields (C, [])).
      exact Hmain. }
    unfold ED_editors_exit. rewrite Hmain'.
    rewrite exit_undo_idle.
    2:{ simpl. rewrite (exit_objects_wm _ _ _ Hrun). apply exit_undo_first. }
    rewrite exit_objects_idle; [reflexivity|].
    intros ob Hin. unfold exit_object. simpl.
    destruct (type ob) eqn:Htype; try reflexivity.
    + destruct (exit_objects_meshes _ _ _ _ Hrun Hin Htype)
        as (p & me & -> & -> & ->). reflexivity.
    + destruct (exit_objects_armatures_cleared Hclears _ _ _ _ Hrun Hin Htype)
        as (p & arm & -> & -> & ->). reflexivity.
  - unfold ED_editors_exit in *. rewrite Hmain in Hexit.
    injection Hexit as <- <-. now rewrite Hmain.
Qed.

End Editors_exit_twice.

(** ** ED_editors_init: the calls, and the runs without a toggle *)
Section Editors_init_calls.

Import ed_util.
Context `{DNA} `{InitHost}.

(** The calls made before the loop. *)
Lemma init_enter_calls (C : World) :
  snd (fst (init_enter C))
  = match undo_stack (CTX_wm_manager C) with
    | None => [Call_BKE_undosys_stack_create]
    | Some _ => []
    end.
Proof.
  unfold init_enter, SWAP. destruct (undo_stack (CTX_wm_manager C)); reflexivity.
Qed.

(** The calls of the toggling of the modes: none, or one toggle. *)
Lemma init_modes_calls (s s' : St) :
  init_modes s = Some s' ->
  snd s' = snd s \/ exists m, snd s' = snd s ++ [Call_ED_object_mode_toggle m].
Proof.
  unfold init_modes.
  destruct (CTX_data_active_object (fst s)) as [obact|]; [|intros [= <-]; now left].
  destruct (CTX_data_main (fst s)) as [bmain|]; [|discriminate].
  intros Hrun.
  apply init_objects_toggle in Hrun as [Hnone|(ob & _ & _ & _ & _ & _ & Hone)];
    eauto.
Qed.

(** X10: [ED_editors_init] returns, and of [BKE_undosys_stack_create],
    [ED_object_mode_toggle] and [ED_space_image_paint_update] it makes at
    most three calls, in this order: the creation of the undo stack,
    exactly when the window manager has none on entry; at most one mode
    toggle; at most one paint update of the image editor.  (The query
    [BKE_object_has_mode_data], made for every object saved in a mode, is
    read from the host and is not among the calls counted here.) *)
Theorem ED_editors_init_calls (C : World)
    (Hhost : toggle_keeps_objects) (Hready : init_ready C) :
  exists (C' : World) (calls toggles paints : list Event),
    ED_editors_init C = Some (C', calls)
    /\ calls = match undo_stack (CTX_wm_manager C) with
               | None => [Call_BKE_undosys_stack_create]
               | Some _ => []
               end ++ toggles ++ paints
    /\ (toggles = [] \/ exists m, toggles = [Call_ED_object_mode_toggle m])
    /\ (paints = [] \/ exists sce, paints = [Call_ED_space_image_paint_update sce]).
Proof.
  destruct (init_modes_total Hhost C Hready) as [s1 Hmodes].
  unfold ED_editors_init.
  pose proof (init_enter_calls C) as Henter.
  destruct (init_enter C) as [s0 prev]. simpl in Henter, Hmodes.
  rewrite Hmodes.
  exists (fst (init_leave prev (init_paint s1))),
    (snd (init_leave prev (init_paint s1))).
  rewrite <- Henter.
  unfold init_leave, init_paint, SWAP.
  apply init_modes_calls in Hmodes.
  destruct (CTX_data_scene (fst s1)) as [sce|]; simpl.
  - destruct Hmodes as [->|[m ->]].
    + exists [], [Call_ED_space_image_paint_update sce].
      split; [reflexivity|]. split; [reflexivity|]. split; [now left|right; eauto].
    + exists [Call_ED_object_mode_toggle m], [Call_ED_space_image_paint_update sce].
      rewrite <- !app_assoc.
      split; [reflexivity|]. split; [reflexivity|]. split; right; eauto.
  - destruct Hmodes as [->|[m ->]].
    + exists [], []. rewrite !app_nil_r.
      split; [reflexivity|]. split; [reflexivity|]. split; now left.
    + exists [Call_ED_object_mode_toggle m], []. rewrite !app_nil_r.
      split; [reflexivity|]. split; [reflexivity|]. split; [right; eauto|now left].
Qed.

(** X11: without an active object [ED_editors_init] returns, also with a
    null main database, and toggles no mode; without a scene either, the
    main database, the datablocks and the report list are as on entry, and
    the window manager has an undo stack. *)
Theorem ED_editors_init_no_active_object (C : World)
    (Hact : CTX_data_active_object C = None) :
  exists (C' : World) (calls : list Event),
    ED_editors_init C = Some (C', calls)
    /\ List.filter is_toggle calls = []
    /\ (CTX_data_scene C = None ->
        CTX_data_main C' = CTX_data_main C
        /\ heap C' = heap C
        /\ CTX_wm_reports C' = CTX_wm_reports C
        /\ is_Some (undo_stack (CTX_wm_manager C'))).
Proof.
  unfold ED_editors_init, init_modes.
  destruct (init_enter_state C) as (Hprev & _ & _ & Hobact & _ & Hnone).
  assert (Hfields : CTX_data_scene (fst (fst (init_enter C))) = CTX_data_scene C
                    /\ CTX_data_main (fst (fst (init_enter C))) = CTX_data_main C
                    /\ heap (fst (fst (init_enter C))) = heap C
                    /\ is_Some (undo_stack (CTX_wm_manager (fst (fst (init_enter C)))))).
  { unfold init_enter, SWAP.
    destruct (undo_stack (CTX_wm_manager C)) eqn:Hundo; simpl; rewrite ?Hundo; eauto. }
  destruct Hfields as (Hscene & Hmain & Hheap & Hundo).
  destruct (init_enter C) as [s0 prev]. simpl in *.
  rewrite Hobact, Hact.
  exists (fst (init_leave prev (init_paint s0))),
    (snd (init_leave prev (init_paint s0))).
  split; [now rewrite <- surjective_pairing|].
  split; [now rewrite init_leave_paint_toggles|].
  intros Hnoscene. unfold init_leave, init_paint, SWAP.
  rewrite Hscene, Hnoscene. simpl.
  split; [exact Hmain|]. split; [exact Hheap|]. split; [|exact Hundo].
  subst prev. now destruct (CTX_wm_reports C).
Qed.

(** The reset of a mode keeps or resets the mode of every object and
    leaves the datablocks and the scene alone. *)
Lemma set_ob_mode_kept_or_reset (i : nat) (C : World) :
  Forall2 mode_kept_or_reset (objects C) (objects (set_ob_mode i OB_MODE_OBJECT C))
  /\ heap (set_ob_mode i OB_MODE_OBJECT C) = heap C
  /\ CTX_data_scene (set_ob_mode i OB_MODE_OBJECT C) = CTX_data_scene C.
Proof.
  unfold objects, set_ob_mode.
  destruct (CTX_data_main C) as [bmain|] eqn:Hmain; simpl.
  - split; [|auto]. apply Forall2_alter_r.
    + apply Forall_Forall2_diag, Forall_forall. intros ob _. now left.
    + intros ob ob' _ _ [->| ->]; [now right|]. now right.
  - rewrite Hmain. split; [constructor|auto].
Qed.

Lemma mode_kept_or_reset_trans (l1 l2 l3 : list Object) :
  Forall2 mode_kept_or_reset l1 l2 -> Forall2 mode_kept_or_reset l2 l3 ->
  Forall2 mode_kept_or_reset l1 l3.
Proof.
  intros H12. revert l3. induction H12 as [|a b l1 l2 Hab _ IH]; intros l3 H23.
  - inversion H23. constructor.
  - inversion H23 as [|b' c l2' l3' Hbc Hrest]; subst. constructor; [|now apply IH].
    destruct Hab as [->| ->], Hbc as [->| ->]; [now left|now right|now right|].
    now right.
Qed.

(** A loop that calls nothing keeps or resets the mode of every object and
    leaves the datablocks and the scene alone. *)
Lemma init_objects_quiet (obact : nat) (fuel : nat) :
  forall (i : nat) (s s' : St),
    init_objects fuel obact i s = Some s' ->
    snd s' = snd s ->
    Forall2 mode_kept_or_reset (objects (fst s)) (objects (fst s'))
    /\ heap (fst s') = heap (fst s)
    /\ CTX_data_scene (fst s') = CTX_data_scene (fst s).
Proof.
  induction fuel as [|fuel IH]; intros i s s'; cbn [init_objects]; [discriminate|].
  assert (Hrefl : Forall2 mode_kept_or_reset (objects (fst s)) (objects (fst s))).
  { apply Forall_Forall2_diag, Forall_forall. intros ob _. now left. }
  destruct (CTX_data_main (fst s)) as [bmain|] eqn:Hmain; [|discriminate].
  destruct (object bmain !! i) as [ob|] eqn:Hob; [|intros [= <-]; auto].
  destruct (init_object obact i ob s) as [s1|] eqn:Hstep; [|discriminate].
  intros Hrun Hquiet.
  assert (Hgrow : exists l, snd s' = snd s1 ++ l).
  { apply init_objects_toggle in Hrun as [->|(ob' & _ & _ & _ & _ & _ & ->)].
    - exists []. now rewrite app_nil_r.
    - eauto. }
  destruct Hgrow as [l Hgrow].
  apply init_object_inv in Hstep
    as [[-> _]|(_ & _ & _ & [[_ ->]|[_ ->]])].
  - now apply (IH _ _ _ Hrun).
  - exfalso. simpl in Hgrow. rewrite Hgrow in Hquiet.
    apply (f_equal length) in Hquiet. rewrite !length_app in Hquiet.
    simpl in Hquiet. lia.
  - destruct (IH _ _ _ Hrun Hquiet) as (Hobs & Hheap & Hscene). simpl in *.
    destruct (set_ob_mode_kept_or_reset i (fst s)) as (Hobs1 & Hheap1 & Hscene1).
    split; [eapply mode_kept_or_reset_trans; eauto|].
    split; congruence.
Qed.

(** X12: in a run of [ED_editors_init] that toggles no mode and has no
    scene to update, every object of the main database is as on entry or
    as on entry with its mode reset to [OB_MODE_OBJECT]: no object comes or
    goes, no other field and no datablock changes. *)
Theorem ED_editors_init_without_toggle (C C' : World) (calls : list Event)
    (Hinit : ED_editors_init C = Some (C', calls))
    (Hquiet : List.filter is_toggle calls = [])
    (Hscene : CTX_data_scene C = None) :
  Forall2 mode_kept_or_reset (objects C) (objects C')
  /\ heap C' = heap C.
Proof.
  unfold ED_editors_init in Hinit.
  destruct (init_enter_state C) as (_ & _ & Hmain & _ & Hheap & Hnone).
  assert (Hscene0 : CTX_data_scene (fst (fst (init_enter C))) = CTX_data_scene C).
  { unfold init_enter, SWAP. destruct (undo_stack (CTX_wm_manager C)); reflexivity. }
  destruct (init_enter C) as [s0 prev]. simpl in *.
  destruct (init_modes s0) as [s1|] eqn:Hmodes; [|discriminate].
  assert (Hres : init_leave prev (init_paint s1) = (C', calls)) by congruence.
  clear Hinit.
  assert (Hcalls : calls = snd (init_leave prev (init_paint s1))) by now rewrite Hres.
  assert (HC' : C' = fst (init_leave prev (init_paint s1))) by now rewrite Hres.
  clear Hres. subst calls C'.
  rewrite init_leave_paint_toggles in Hquiet.
  assert (Hsame : snd s1 = snd s0).
  { destruct (init_modes_calls _ _ Hmodes) as [Hsame|[m Hone]]; [exact Hsame|].
    rewrite Hone, List.filter_app in Hquiet. simpl in Hquiet.
    apply app_eq_nil in Hquiet as [_ ?]. discriminate. }
  assert (Hloop : Forall2 mode_kept_or_reset (objects (fst s0)) (objects (fst s1))
                  /\ heap (fst s1) = heap (fst s0)
                  /\ CTX_data_scene (fst s1) = CTX_data_scene (fst s0)).
  { unfold init_modes in Hmodes.
    destruct (CTX_data_active_object (fst s0)) as [obact|].
    - destruct (CTX_data_main (fst s0)) as [bmain|]; [|discriminate].
      eapply init_objects_quiet; eauto.
    - injection Hmodes as <-. split; [|auto].
      apply Forall_Forall2_diag, Forall_forall. intros ob _. now left. }
  destruct Hloop as (Hobs & Hheap1 & Hscene1).
  unfold init_leave, init_paint, SWAP.
  rewrite Hscene1, Hscene0, Hscene. simpl.
  unfold objects in *. simpl. rewrite Hmain in Hobs.
  split; [exact Hobs|congruence].
Qed.

End Editors_init_calls.

(** ** apply_keyb_grid: keys and special values *)
Section Apply_keyb_grid_edges.

Import ed_util.

(** The value left in [*val], by the factor the keys select. *)
Lemma apply_keyb_grid_by_factor
    (shift ctrl : Z) (val fac1 fac2 fac3 : float32) (invert : Z) :
  apply_keyb_grid shift ctrl val fac1 fac2 fac3 invert
  = if F32.neqb (selected_factor shift ctrl fac1 fac2 fac3 invert) F32.zero
    then grid_multiple (selected_factor shift ctrl fac1 fac2 fac3 invert) val
    else val.
Proof.
  unfold apply_keyb_grid, selected_factor, grid_multiple.
  destruct (invert =? 0); simpl;
    destruct (ctrl =? 0); simpl;
    destruct (shift =? 0); reflexivity.
Qed.

(** X13: when ctrl is not in effect (not pressed and not inverted, or
    pressed and inverted), the grid is that of [fac1]: shift alone selects
    nothing, and [fac2] and [fac3] are not looked at. *)
Theorem apply_keyb_grid_without_ctrl
    (shift ctrl : Z) (val fac1 fac2 fac3 : float32) (invert : Z)
    (Hctrl : ctrl = 0 <-> invert = 0) :
  apply_keyb_grid shift ctrl val fac1 fac2 fac3 invert
  = if F32.neqb fac1 F32.zero then grid_multiple fac1 val else val.
Proof.
  rewrite apply_keyb_grid_by_factor.
  assert (Hfac : selected_factor shift ctrl fac1 fac2 fac3 invert = fac1).
  { unfold selected_factor.
    destruct (Z.eqb_spec invert 0) as [Hi|Hi], (Z.eqb_spec ctrl 0) as [Hc|Hc];
      simpl; try reflexivity; tauto. }
  now rewrite Hfac.
Qed.

(** X14: the special values.  A factor that is a NaN or an infinity leaves
    a NaN in [*val]; a zero factor of either sign leaves [*val] as it is;
    with a finite factor a NaN stays a NaN and an infinity stays the
    infinity it is. *)
Theorem apply_keyb_grid_special_values
    (shift ctrl : Z) (val fac1 fac2 fac3 : float32) (invert : Z) :
  let result := apply_keyb_grid shift ctrl val fac1 fac2 fac3 invert in
  match selected_factor shift ctrl fac1 fac2 fac3 invert, val with
  | S754_nan, _ | S754_infinity _, _ => result = S754_nan
  | S754_zero _, _ => result = val
  | S754_finite _ _ _, S754_nan => result = S754_nan
  | S754_finite _ _ _, S754_infinity s => result = S754_infinity s
  | S754_finite _ _ _, _ => True
  end.
Proof.
  intros result. subst result. rewrite apply_keyb_grid_by_factor.
  destruct (selected_factor shift ctrl fac1 fac2 fac3 invert) as [sf|sf| |sf m e].
  - destruct sf; reflexivity.
  - destruct val as [s|s| |s mv ev]; destruct sf; try destruct s; reflexivity.
  - reflexivity.
  - destruct val as [s|s| |s mv ev]; try exact I.
    + destruct sf, s; reflexivity.
    + destruct sf; reflexivity.
Qed.

End Apply_keyb_grid_edges.

(** ** unpack_menu: the methods offered *)
Section Unpack_menu_methods.

Import ed_util.
Context `{UnpackHost}.


End Unpack_menu_methods.

(** ** ED_editors_flush_edits: the order of the calls *)
Section Flush_edits_order.

Import ed_util.
Context `{DNA}.

(** The loop appends to the calls made so far. *)
Lemma flush_objects_extends (for_render : bool) (obs : list Object) :
  forall (i : nat) (has_edited : bool) (calls : list Event),
    exists rest,
      snd (flush_objects for_render i obs (has_edited, calls)) = calls ++ rest.
Proof.
  induction obs as [|ob obs IH]; intros i has_edited calls; cbn [flush_objects snd].
  - exists []. now rewrite app_nil_r.
  - rewrite flush_object_step.
    destruct (IH (S i) (has_edited || flush_wanted ob)
                 (calls ++ flush_calls for_render i ob)) as [rest ->].
    exists (flush_calls for_render i ob ++ rest). now rewrite app_assoc.
Qed.

(** The calls for one object stand together in the calls of the loop. *)
Lemma flush_objects_segment (for_render : bool) (obs : list Object) :
  forall (i j : nat) (ob : Object) (has_edited : bool) (calls : list Event),
    obs !! j = Some ob ->
    exists pre post,
      snd (flush_objects for_render i obs (has_edited, calls))
      = pre ++ flush_calls for_render (i + j) ob ++ post.
Proof.
  induction obs as [|ob0 obs IH]; intros i j ob has_edited calls Hj; [discriminate|].
  cbn [flush_objects]. rewrite flush_object_step.
  destruct j as [|j]; simpl in Hj.
  - injection Hj as ->. rewrite Nat.add_0_r.
    destruct (flush_objects_extends for_render obs (S i)
                (has_edited || flush_wanted ob)
                (calls ++ flush_calls for_render i ob)) as [rest ->].
    exists calls, rest. now rewrite app_assoc.
  - rewrite Nat.add_succ_r, <- Nat.add_succ_l. now apply IH.
Qed.

(** X16: for an object in sculpt mode with no stroke going on, the forced
    multires update and the conversion of the BMesh are two consecutive
    calls, the update first. *)
Theorem ED_editors_flush_edits_update_first (C : World) (bmain : Main)
    (for_render : bool) (i : nat) (ob : Object)
    (has_edited : bool) (calls : list Event)
    (Hmain : CTX_data_main C = Some bmain)
    (Hob : object bmain !! i = Some ob)
    (Hsculpt : in_sculpt_mode ob)
    (Hstroke : stroke_active ob = false)
    (Hrun : ED_editors_flush_edits C for_render = Some (has_edited, calls)) :
  exists pre post,
    calls = pre
            ++ [Call_multires_force_update i;
                if for_render
                then Call_BKE_sculptsession_bm_to_me_for_render i
                else Call_BKE_sculptsession_bm_to_me i false]
            ++ post.
Proof.
  unfold ED_editors_flush_edits in Hrun. rewrite Hmain in Hrun.
  injection Hrun as Hrun.
  destruct (flush_objects_segment for_render (object bmain) 0 i ob false [] Hob)
    as (pre & post & Hseg).
  rewrite Hrun in Hseg. simpl in Hseg. exists pre, post. rewrite Hseg.
  rewrite flush_calls_cases. unfold in_sculpt_mode in Hsculpt.
  destruct (Z.eqb_spec (Z.land (mode ob) OB_MODE_SCULPT) 0) as [Hs|Hs];
    [contradiction|].
  simpl. now rewrite Hstroke.
Qed.

End Flush_edits_order.

(** ** The further properties at the example databases *)

(** X3 at the database with a mesh in edit mode beside an object in the
    middle of a stroke: the mesh is loaded from edit mode. *)
Lemma ED_editors_flush_edits_complete_witness :
  exists calls,
    @ed_util.ED_editors_flush_edits ed_util.blender_dna ed_util.world_two_objects false
    = Some (true, calls)
    /\ ed_util.Call_ED_object_editmode_load 1 ∈ calls.
Proof.
  eexists. split; [reflexivity|].
  apply (proj1 (@ED_editors_flush_edits_complete ed_util.blender_dna
                  ed_util.world_two_objects _ false 1%nat _ true _
                  eq_refl eq_refl eq_refl)).
  - discriminate.
  - intros Hsculpt. apply Hsculpt. reflexivity.
Defined.

(** X4 at the same database: the one call made is for its second
    object. *)
Lemma ED_editors_flush_edits_conversion_witness :
  exists i ob,
    ed_util.objects ed_util.world_two_objects !! i = Some ob
    /\ ed_util.flushed_object (ed_util.Call_ED_object_editmode_load 1) = Some i.
Proof.
  refine (proj1 (@ED_editors_flush_edits_conversion ed_util.blender_dna
                   ed_util.world_two_objects _ false true
                   [ed_util.Call_ED_object_editmode_load 1]
                   (ed_util.Call_ED_object_editmode_load 1)
                   eq_refl eq_refl _)).
  apply list_elem_of_singleton. reflexivity.
Defined.

(** No two meshes of the example database hold the same edit mesh. *)
Lemma world_at_exit_unshared :
  ed_util.edit_meshes_unshared (ed_util.heap ed_util.world_at_exit).
Proof.
  intros p q me me' em Hp Hq _ _. simpl in Hp, Hq.
  rewrite lookup_insert, lookup_singleton in Hp.
  rewrite lookup_insert, lookup_singleton in Hq.
  repeat case_decide; congruence.
Qed.

(** X6 at the database of two objects that share a mesh in edit mode, an
    armature and an empty. *)
Lemma ED_editors_exit_frame_witness :
  exists (C' : ed_util.World) (calls : list ed_util.Event),
    @ed_util.ED_editors_exit ed_util.example_exit_host ed_util.world_at_exit
    = Some (C', calls)
    /\ C' = ed_util.set_heap (ed_util.heap C')
              (ed_util.set_G_MAIN_wm (ed_util.G_MAIN_wm C') ed_util.world_at_exit).
Proof.
  destruct (@ed_util.ED_editors_exit ed_util.example_exit_host ed_util.world_at_exit)
    as [[C' calls]|] eqn:Hexit; [|vm_compute in Hexit; discriminate].
  exists C', calls. split; [reflexivity|].
  exact (proj1 (@ED_editors_exit_frame ed_util.example_exit_host
                  ed_util.world_at_exit C' calls Hexit)).
Defined.

(** X7 at that database. *)
Lemma ED_editors_exit_frees_edit_meshes_witness :
  exists (C' : ed_util.World) (calls : list ed_util.Event),
    @ed_util.ED_editors_exit ed_util.example_exit_host ed_util.world_at_exit
    = Some (C', calls)
    /\ ed_util.freed calls = ed_util.edit_meshes_freed calls.
Proof.
  destruct (@ed_util.ED_editors_exit ed_util.example_exit_host ed_util.world_at_exit)
    as [[C' calls]|] eqn:Hexit; [|vm_compute in Hexit; discriminate].
  exists C', calls. split; [reflexivity|].
  exact (proj1 (@ED_editors_exit_frees_edit_meshes ed_util.example_exit_host
                  ed_util.world_at_exit C' calls Hexit)).
Defined.

(** X8 at that database, where two objects share the mesh whose edit mesh
    is freed. *)
Lemma ED_editors_exit_no_double_free_witness :
  exists (C' : ed_util.World) (calls : list ed_util.Event),
    @ed_util.ED_editors_exit ed_util.example_exit_host ed_util.world_at_exit
    = Some (C', calls)
    /\ NoDup (ed_util.freed calls).
Proof.
  destruct (@ed_util.ED_editors_exit ed_util.example_exit_host ed_util.world_at_exit)
    as [[C' calls]|] eqn:Hexit; [|vm_compute in Hexit; discriminate].
  exists C', calls. split; [reflexivity|].
  exact (proj1 (@ED_editors_exit_no_double_free ed_util.example_exit_host
                  ed_util.world_at_exit C' calls world_at_exit_unshared Hexit)).
Defined.

(** X9 at that database, with the host that clears the edit bones. *)
Lemma ED_editors_exit_twice_witness :
  exists (C' : ed_util.World) (calls : list ed_util.Event),
    @ed_util.ED_editors_exit ed_util.example_exit_host ed_util.world_at_exit
    = Some (C', calls)
    /\ @ed_util.ED_editors_exit ed_util.example_exit_host C'
       = Some (C', [ed_util.Call_ED_mesh_mirror_spatial_table "e";
                    ed_util.Call_ED_mesh_mirror_topo_table "e"]).
Proof.
  destruct (@ed_util.ED_editors_exit ed_util.example_exit_host ed_util.world_at_exit)
    as [[C' calls]|] eqn:Hexit; [|vm_compute in Hexit; discriminate].
  exists C', calls. split; [reflexivity|].
  exact (@ED_editors_exit_twice ed_util.example_exit_host
           ed_util.world_at_exit C' calls (fun arm => eq_refl) Hexit).
Defined.

(** X10 at the example database of [ED_editors_init], which has no undo
    stack, an active object to toggle and a scene: three calls. *)
Lemma ED_editors_init_calls_witness :
  exists (C' : ed_util.World) (calls toggles paints : list ed_util.Event),
    @ed_util.ED_editors_init ed_util.blender_dna ed_util.example_init_host
      ed_util.world_at_init = Some (C', calls)
    /\ calls = [ed_util.Call_BKE_undosys_stack_create] ++ toggles ++ paints
    /\ length calls = 3%nat.
Proof.
  destruct (@ED_editors_init_calls ed_util.blender_dna ed_util.example_init_host
              ed_util.world_at_init example_toggle_keeps_objects world_at_init_ready)
    as (C' & calls & toggles & paints & Hinit & Hcalls & _).
  exists C', calls, toggles, paints.
  split; [exact Hinit|]. split; [exact Hcalls|].
  vm_compute in Hinit. injection Hinit as _ <-. reflexivity.
Defined.

(** X11 at a context with nothing in it. *)
Lemma ED_editors_init_no_active_object_witness :
  exists (C' : ed_util.World) (calls : list ed_util.Event),
    @ed_util.ED_editors_init ed_util.blender_dna ed_util.example_init_host
      ed_util.world_empty = Some (C', calls)
    /\ List.filter ed_util.is_toggle calls = []
    /\ ed_util.CTX_data_main C' = None
    /\ is_Some (ed_util.undo_stack (ed_util.CTX_wm_manager C')).
Proof.
  destruct (@ED_editors_init_no_active_object ed_util.blender_dna
              ed_util.example_init_host ed_util.world_empty eq_refl)
    as (C' & calls & Hinit & Hquiet & Hrest).
  destruct (Hrest eq_refl) as (Hmain & _ & _ & Hundo).
  exists C', calls. auto.
Defined.

(** X12 at the database whose active object is linked: both modes are
    reset and nothing is toggled. *)
Lemma ED_editors_init_without_toggle_witness :
  exists (C' : ed_util.World),
    @ed_util.ED_editors_init ed_util.blender_dna ed_util.example_init_host
      ed_util.world_linked_active = Some (C', [])
    /\ Forall2 (@ed_util.mode_kept_or_reset ed_util.blender_dna)
         (ed_util.objects ed_util.world_linked_active) (ed_util.objects C')
    /\ ed_util.heap C' = ed_util.heap ed_util.world_linked_active.
Proof.
  destruct (@ed_util.ED_editors_init ed_util.blender_dna ed_util.example_init_host
              ed_util.world_linked_active)
    as [[C' calls]|] eqn:Hinit; [|vm_compute in Hinit; discriminate].
  assert (Hcalls : calls = []).
  { assert (Hsnd : snd <$> @ed_util.ED_editors_init ed_util.blender_dna
                     ed_util.example_init_host ed_util.world_linked_active
                   = Some []) by (vm_compute; reflexivity).
    rewrite Hinit in Hsnd. now injection Hsnd. }
  subst calls. exists C'. split; [reflexivity|].
  exact (@ED_editors_init_without_toggle ed_util.blender_dna
           ed_util.example_init_host ed_util.world_linked_active C' []
           Hinit eq_refl eq_refl).
Defined.

(** X13 with ctrl and shift pressed and ctrl inverted: the grid of tenths
    of [fac1]. *)
Lemma apply_keyb_grid_without_ctrl_witness :
  ed_util.apply_keyb_grid 1 1 (F32.of_ratio 37 100)
    (F32.of_ratio 1 10) F32.one F32.half 1
  = F32.mul (F32.of_ratio 1 10) (F32.of_Z 4).
Proof.
  rewrite (apply_keyb_grid_without_ctrl 1 1 (F32.of_ratio 37 100)
             (F32.of_ratio 1 10) F32.one F32.half 1).
  - vm_compute. reflexivity.
  - split; discriminate.
Defined.


(** X16 at a database of one object in sculpt mode with no stroke going
    on. *)
Lemma ED_editors_flush_edits_update_first_witness :
  exists pre post,
    [ed_util.Call_multires_force_update 0;
     ed_util.Call_BKE_sculptsession_bm_to_me_for_render 0]
    = pre
      ++ [ed_util.Call_multires_force_update 0;
          ed_util.Call_BKE_sculptsession_bm_to_me_for_render 0]
      ++ post.
Proof.
  refine (@ED_editors_flush_edits_update_first ed_util.blender_dna
            (ed_util.example_world
               [ed_util.example_object ed_util.OB_MESH 2 (Some 1%positive) None] ∅)
            _ true 0%nat _ true _
            eq_refl eq_refl _ eq_refl eq_refl).
  discriminate.
Defined.
